(** * md-linear-sync: the bidirectional synchronization engine

    A shallow embedding of the TypeScript sources of md-linear-sync
    (RetryManager, the ticket file parser, the push/pull commands of
    [cli/sync.ts] and the sync daemon) together with the properties the
    specification states about them.

    Conventions of the embedding.
    - A JavaScript string is a [string] of code units below 256 (the
      Latin-1 range); the string primitives used by the sources
      ([toLowerCase], [includes], [startsWith], [endsWith], [trim],
      [split], [replace]) are written out on that range.
    - A JavaScript number that holds a count or a time in milliseconds is
      a [nat] or a [Z].
    - An [async] function is a value of [Async]: a tree of reads and
      writes of the [World] (local ticket tree, remote tracker, timers)
      with an [Await] node at every suspension on network I/O or on a
      timer. The code between two suspensions runs without interruption,
      as it does on the JavaScript event loop.
    - What the sources take from the platform and from npm libraries
      ([Date], js-yaml, gray-matter) is a parameter, the class
      [Platform]. *)

From Stdlib Require Import String Ascii List ZArith Lia Bool Arith PeanoNat DecimalString.
Import ListNotations.
Local Open Scope string_scope.
Local Open Scope Z_scope.

Set Implicit Arguments.

(* ================================================================== *)
(** ** JavaScript string primitives *)
(* ================================================================== *)

Module JsString.

Definition code (c : ascii) : nat := nat_of_ascii c.

Definition between (lo hi : nat) (c : ascii) : bool :=
  (Nat.leb lo (code c) && Nat.leb (code c) hi)%bool.

Definition is_upper (c : ascii) : bool := between 65 90 c.    (* [A-Z] *)
Definition is_lower (c : ascii) : bool := between 97 122 c.   (* [a-z] *)
Definition is_digit (c : ascii) : bool := between 48 57 c.    (* \d *)

(** [\w]: letters, digits and the underscore. *)
Definition is_word (c : ascii) : bool :=
  (is_upper c || is_lower c || is_digit c || Nat.eqb (code c) 95)%bool.

(** [\s] and the characters [trim] strips, below 256: TAB, LF, VT, FF,
    CR, space and the no-break space. *)
Definition is_space (c : ascii) : bool :=
  (between 9 13 c || Nat.eqb (code c) 32 || Nat.eqb (code c) 160)%bool.

(** [String.prototype.toLowerCase] on one code unit: A-Z, and the
    capital letters of Latin-1 (U+00C0 to U+00DE, the multiplication
    sign U+00D7 apart). *)
Definition lower_char (c : ascii) : ascii :=
  if is_upper c then ascii_of_nat (code c + 32)
  else if (between 192 222 c && negb (Nat.eqb (code c) 215))%bool
       then ascii_of_nat (code c + 32)
       else c.

Definition upper_char (c : ascii) : ascii :=
  if is_lower c then ascii_of_nat (code c - 32) else c.

Fixpoint toLowerCase (s : string) : string :=
  match s with
  | EmptyString => EmptyString
  | String c s' => String (lower_char c) (toLowerCase s')
  end.

Definition startsWith (s p : string) : bool := String.prefix p s.

(** [s.includes(needle)] *)
Fixpoint includes (s needle : string) : bool :=
  if startsWith s needle then true
  else match s with
       | EmptyString => false
       | String _ s' => includes s' needle
       end.

Fixpoint drop (n : nat) (s : string) : string :=
  match n, s with
  | O, _ => s
  | S n', String _ s' => drop n' s'
  | S _, EmptyString => EmptyString
  end.

Fixpoint take (n : nat) (s : string) : string :=
  match n, s with
  | O, _ => EmptyString
  | S n', String c s' => String c (take n' s')
  | S _, EmptyString => EmptyString
  end.

Definition endsWith (s p : string) : bool :=
  (Nat.leb (String.length p) (String.length s)
   && String.eqb (drop (String.length s - String.length p) s) p)%bool.

Fixpoint trimStart (s : string) : string :=
  match s with
  | String c s' => if is_space c then trimStart s' else s
  | EmptyString => EmptyString
  end.

(** Strips trailing white space: a character is kept when it is not
    white space or when something is kept after it. *)
Fixpoint trimEnd (s : string) : string :=
  match s with
  | EmptyString => EmptyString
  | String c s' =>
      match trimEnd s' with
      | EmptyString => if is_space c then EmptyString else String c EmptyString
      | r => String c r
      end
  end.

Definition trim (s : string) : string := trimEnd (trimStart s).

(** [s.split(sep)] for a non-empty separator. [skip] counts the
    characters of a separator just matched that are still to be passed
    over; [cur] is the piece being collected. *)
Fixpoint split_go (sep : string) (skip : nat) (cur s : string) : list string :=
  match s with
  | EmptyString => [cur]
  | String c s' =>
      match skip with
      | S k => split_go sep k cur s'
      | O =>
          if startsWith s sep
          then cur :: split_go sep (String.length sep - 1) EmptyString s'
          else split_go sep 0 (cur ++ String c EmptyString) s'
      end
  end.

Definition split (s sep : string) : list string := split_go sep 0 EmptyString s.

(** [s.replace(pat, rep)] with a string pattern: the first occurrence
    only. *)
Fixpoint replace (s pat rep : string) : string :=
  if startsWith s pat then rep ++ drop (String.length pat) s
  else match s with
       | EmptyString => EmptyString
       | String c s' => String c (replace s' pat rep)
       end.

End JsString.

(* ================================================================== *)
(** ** The world the engine runs in *)
(* ================================================================== *)

(** The issue tracker's view of an issue: the fields the [GetIssue] query
    of [LinearSyncClient.getIssue] selects. *)
Module Linear.

Record WorkflowState := { state_id : string; state_name : string }.

Record User := { user_name : option string; user_email : option string }.

Record Comment := {
  comment_id : string;
  body : option string;
  comment_createdAt : string;
  user : option User }.

Record Issue := {
  id : string;                  (* the tracker's internal id *)
  identifier : string;          (* PAP-447 *)
  title : string;
  description : option string;
  url : string;
  priority : Z;
  createdAt : string;
  updatedAt : string;
  dueDate : option string;
  labels : list string;
  assignee : option User;
  parent : option string;       (* parent.identifier *)
  state : WorkflowState;
  comments : list Comment }.

(** The [updates] object of [updateIssue]: each key may be absent. *)
Record IssueUpdate := {
  upd_stateId : option string;
  upd_title : option string;
  upd_description : option string }.

Definition no_update : IssueUpdate :=
  {| upd_stateId := None; upd_title := None; upd_description := None |}.

(** [Object.keys(updates).length] *)
Definition has_key {A : Type} (o : option A) : nat :=
  match o with Some _ => 1%nat | None => 0%nat end.

Definition keys (u : IssueUpdate) : nat :=
  (has_key (upd_stateId u) + has_key (upd_title u)
   + has_key (upd_description u))%nat.

End Linear.

(** A thrown JavaScript value: an [Error] with its message, or
    [undefined]. *)
Inductive Thrown : Type :=
| Err (message : string)
| Undefined.

Record FileEntry := { bytes : string; mtime : Z }.

(** A directory as [readdirSync] lists it: names in listing order. *)
Definition Folder : Type := list (string * FileEntry).

Record World := {
  (** the status folders of [linear-tickets/], in listing order *)
  tree : list (string * Folder);
  (** the tracker: its issues and the workflow states of the team *)
  issues : list Linear.Issue;
  workflow : list Linear.WorkflowState;
  (** the network: [net n] is the failure of the [n]-th request sent, if
      it fails; [requests] counts the requests sent so far *)
  net : nat -> option string;
  requests : nat;
  (** calls of [updateIssue] the tracker has received *)
  updates : list (string * Linear.IssueUpdate);
  (** delays of the timers slept on, [None] for [undefined] *)
  slept : list (option Z);
  (** the wall clock, in milliseconds *)
  clock : Z }.

Definition set_tree (t : list (string * Folder)) (w : World) : World :=
  {| tree := t; issues := issues w; workflow := workflow w; net := net w;
     requests := requests w; updates := updates w; slept := slept w;
     clock := clock w |}.

Definition set_issues (l : list Linear.Issue) (w : World) : World :=
  {| tree := tree w; issues := l; workflow := workflow w; net := net w;
     requests := requests w; updates := updates w; slept := slept w;
     clock := clock w |}.

Definition count_request (w : World) : World :=
  {| tree := tree w; issues := issues w; workflow := workflow w; net := net w;
     requests := S (requests w); updates := updates w; slept := slept w;
     clock := clock w |}.

Definition log_update (i : string) (u : Linear.IssueUpdate) (w : World) : World :=
  {| tree := tree w; issues := issues w; workflow := workflow w; net := net w;
     requests := requests w; updates := updates w ++ [(i, u)]; slept := slept w;
     clock := clock w |}.

(** [setTimeout(resolve, ms)] is called: the delay is recorded. *)
Definition log_sleep (ms : option Z) (w : World) : World :=
  {| tree := tree w; issues := issues w; workflow := workflow w; net := net w;
     requests := requests w; updates := updates w; slept := slept w ++ [ms];
     clock := clock w |}.

(** Time passes until [t] at least. *)
Definition wait_until (t : Z) (w : World) : World :=
  {| tree := tree w; issues := issues w; workflow := workflow w; net := net w;
     requests := requests w; updates := updates w; slept := slept w;
     clock := Z.max (clock w) t |}.

(* ================================================================== *)
(** ** Asynchronous computations *)
(* ================================================================== *)

(** An [async] function body. [Get] and [Put] read and write the world;
    [Await] is a suspension: on network I/O ([until = None], resumed
    whenever the answer comes) or on a timer ([until = Some t], resumed at
    the time [t] or later). What follows it runs when the event loop
    resumes the function. *)
Inductive Async (A : Type) : Type :=
| Ret (a : A)
| Throw (e : Thrown)
| Get (k : World -> Async A)
| Put (w : World) (k : Async A)
| Await (until : option Z) (k : Async A).

Arguments Ret {A} a.
Arguments Throw {A} e.
Arguments Get {A} k.
Arguments Put {A} w k.
Arguments Await {A} until k.

Fixpoint bind {A B : Type} (a : Async A) (f : A -> Async B) : Async B :=
  match a with
  | Ret x => f x
  | Throw e => Throw e
  | Get k => Get (fun w => bind (k w) f)
  | Put w k => Put w (bind k f)
  | Await t k => Await t (bind k f)
  end.

(** [try { a } catch (e) { h e }] *)
Fixpoint try_catch {A : Type} (a : Async A) (h : Thrown -> Async A) : Async A :=
  match a with
  | Ret x => Ret x
  | Throw e => h e
  | Get k => Get (fun w => try_catch (k w) h)
  | Put w k => Put w (try_catch k h)
  | Await t k => Await t (try_catch k h)
  end.

Declare Scope async_scope.
Delimit Scope async_scope with async.
Notation "x <- a ;; b" := (bind a (fun x => b))
  (at level 100, a at next level, right associativity) : async_scope.
Notation "a ;; b" := (bind a (fun _ => b))
  (at level 100, right associativity) : async_scope.
Local Open Scope async_scope.

Definition modify (f : World -> World) : Async unit :=
  Get (fun w => Put (f w) (Ret tt)).

Definition gets {A : Type} (f : World -> A) : Async A :=
  Get (fun w => Ret (f w)).

(** The outcome of a call: the value returned or the value thrown. *)
Inductive Outcome (A : Type) : Type :=
| Returned (a : A)
| Threw (e : Thrown).
Arguments Returned {A} a.
Arguments Threw {A} e.

Definition resumed (until : option Z) (w : World) : World :=
  match until with
  | Some t => wait_until t w
  | None => w
  end.

(** Running a computation alone, with nothing else scheduled in between:
    an answer awaited comes at once, a timer awaited is waited for. *)
Fixpoint run {A : Type} (a : Async A) (w : World) : World * Outcome A :=
  match a with
  | Ret x => (w, Returned x)
  | Throw e => (w, Threw e)
  | Get k => run (k w) w
  | Put w' k => run k w'
  | Await t k => run k (resumed t w)
  end.

(** Running up to the next suspension: what the event loop does with a
    function it starts or resumes. *)
Fixpoint segment {A : Type} (a : Async A) (w : World) : World * Async A :=
  match a with
  | Get k => segment (k w) w
  | Put w' k => segment k w'
  | _ => (w, a)
  end.

(** [await new Promise(resolve => setTimeout(resolve, ms))]: an
    [undefined] delay is no delay. *)
Definition sleep (ms : option Z) : Async unit :=
  Get (fun w =>
    Put (log_sleep ms w)
        (Await (Some (clock w + match ms with Some d => d | None => 0 end))
               (Ret tt))).

(** A request to the tracker: sent, awaited, and answered by [answer]
    unless the network fails it. *)
Definition request {A : Type} (answer : World -> World * Outcome A) : Async A :=
  Await None (Get (fun w =>
    let w1 := count_request w in
    match net w (requests w) with
    | Some msg => Put w1 (Throw (Err msg))
    | None =>
        let (w2, r) := answer w1 in
        Put w2 (match r with Returned x => Ret x | Threw e => Throw e end)
    end)).

(* ================================================================== *)
(** ** utils/RetryManager.ts *)
(* ================================================================== *)

Module RetryManager.

Record RetryConfig := { maxAttempts : nat; delays : list Z }.

(** [Partial<RetryConfig>] *)
Record PartialRetryConfig := {
  opt_maxAttempts : option nat;
  opt_delays : option (list Z) }.

Definition empty_config : PartialRetryConfig :=
  {| opt_maxAttempts := None; opt_delays := None |}.

Definition DEFAULT_CONFIG : RetryConfig :=
  {| maxAttempts := 3; delays := [0; 30000; 120000] |}.

(** [{ ...this.DEFAULT_CONFIG, ...config }] *)
Definition merge (config : PartialRetryConfig) : RetryConfig :=
  {| maxAttempts := match opt_maxAttempts config with
                    | Some n => n
                    | None => maxAttempts DEFAULT_CONFIG
                    end;
     delays := match opt_delays config with
               | Some d => d
               | None => delays DEFAULT_CONFIG
               end |}.

(** [message.includes(p1) || message.includes(p2) || ...] *)
Definition includes_any (message : string) (patterns : list string) : bool :=
  existsb (JsString.includes message) patterns.

Definition network_patterns : list string :=
  ["network"; "timeout"; "connection"; "econnreset"; "enotfound"].
Definition rate_limit_patterns : list string :=
  ["rate limit"; "too many requests"; "429"].
Definition server_patterns : list string :=
  ["500"; "502"; "503"; "504"; "internal server error"; "bad gateway";
   "service unavailable"; "gateway timeout"].
Definition auth_patterns : list string :=
  ["unauthorized"; "forbidden"; "invalid api key"; "401"; "403"].
Definition validation_patterns : list string :=
  ["validation"; "invalid"; "bad request"; "400"].
Definition filesystem_patterns : list string :=
  ["enoent"; "permission denied"; "eacces"].

(** [isRetryableError(error)], on the message of the error. *)
Definition isRetryableError (error : string) : bool :=
  let message := JsString.toLowerCase error in
  if includes_any message network_patterns then true
  else if includes_any message rate_limit_patterns then true
  else if includes_any message server_patterns then true
  else if includes_any message auth_patterns then false
  else if includes_any message validation_patterns then false
  else if includes_any message filesystem_patterns then false
  else true.

(** [delays[i]]: [undefined] out of range. *)
Definition delay_at (delays : list Z) (i : nat) : option Z := nth_error delays i.

(** [a || b] on numbers that may be [undefined]: [0] and [undefined]
    are falsy. *)
Definition or_else (a b : option Z) : option Z :=
  match a with
  | Some d => if d =? 0 then b else a
  | None => b
  end.

(** [error instanceof Error ? error : new Error(String(error))] *)
Definition as_error (error : Thrown) : string :=
  match error with
  | Err message => message
  | Undefined => "undefined"
  end.

Section WithRetry.
Context {T : Type}.
Variable operation : Async T.
Variable finalConfig : RetryConfig.

(** The delay slept before the iteration [attempt > 0]:
    [delays[attempt - 1] || delays[delays.length - 1]]. *)
Definition delay_before (attempt : nat) : option Z :=
  or_else (delay_at (delays finalConfig) (attempt - 1))
          (delay_at (delays finalConfig) (List.length (delays finalConfig) - 1)).

(** The [try] block of one iteration: the sleep, then the call. *)
Definition attempt_once (attempt : nat) : Async T :=
  (if Nat.ltb 0 attempt then sleep (delay_before attempt) else Ret tt) ;;
  operation.

(** The [for] loop of [withRetry], from the iteration [attempt] on;
    [remaining] is [maxAttempts - attempt], the iterations left. The
    [catch] block either throws or falls through to the next
    iteration; after the loop comes [throw lastError!]. *)
Fixpoint attempts (remaining attempt : nat) (lastError : Thrown) : Async T :=
  match remaining with
  | O => Throw lastError
  | S remaining' =>
      try_catch (attempt_once attempt)
        (fun error =>
           let lastError := as_error error in
           if negb (isRetryableError lastError) then Throw (Err lastError)
           else if Nat.eqb attempt (maxAttempts finalConfig - 1)
                then Throw (Err lastError)
                else attempts remaining' (S attempt) (Err lastError))
  end.
End WithRetry.

Definition withRetry {T : Type} (operation : Async T)
    (config : PartialRetryConfig) : Async T :=
  let finalConfig := merge config in
  attempts operation finalConfig (maxAttempts finalConfig) 0 Undefined.

End RetryManager.

(* ================================================================== *)
(** ** types/index.ts *)
(* ================================================================== *)

Module Types.

(** The value under the key [labels]. The type declares [string[]], but
    [parseFile] casts what gray-matter read without a check, so a file
    may hold a scalar there ([labels: bug]); [validateFrontmatter] tells
    the two apart with [Array.isArray]. *)
Inductive LabelsValue : Type :=
| LabelsAbsent
| LabelsArray (l : list string)
| LabelsScalar (s : string).

(** The frontmatter of a ticket file. A key that is absent from the
    YAML reads as [undefined]; for the string fields the sources only
    test it for truthiness before use, which the empty string answers
    the same way. The fields other than [labels] hold values of the
    type the interface declares: a frontmatter with, say, an unquoted
    timestamp, which YAML reads as a date and not as a string, is not
    a value of this record. *)
Record TicketMetadata := {
  linear_id : string;
  title : string;
  status : string;
  assignee : option string;
  labels : LabelsValue;
  priority : Z;
  due_date : option string;
  url : string;
  created_at : string;
  updated_at : string }.

Record Comment := {
  comment_id : string;
  author : string;
  comment_content : string;
  comment_created_at : string }.

Record TicketFile := {
  frontmatter : TicketMetadata;
  content : string;
  comments : list Comment }.

Record StatusMapping := { id : string; folder : string }.

(** [LinearSyncConfig]: [statusMapping] in the order of
    [Object.entries]. *)
Record LinearSyncConfig := {
  teamId : string;
  projectId : string;
  statusMapping : list (string * StatusMapping) }.

Definition set_updated_at (now : string) (m : TicketMetadata) : TicketMetadata :=
  {| linear_id := linear_id m; title := title m; status := status m;
     assignee := assignee m; labels := labels m; priority := priority m;
     due_date := due_date m; url := url m; created_at := created_at m;
     updated_at := now |}.

End Types.

(* ================================================================== *)
(** ** The platform: Date, js-yaml and gray-matter *)
(* ================================================================== *)

(** What the sources call and do not define. [Date_parse s] is the time
    value of [new Date(s)], [None] for an invalid date. The YAML
    functions stand for [yaml.dump] and [yaml.load] with the options
    [generateFile] and [parseFile] pass; [matter] for gray-matter, which
    returns the frontmatter data and the text below it. A call that
    throws answers [Threw]. *)
Class Platform : Type := {
  Date_parse : string -> option Z;
  Date_toISOString : Z -> string;
  yaml_dump_frontmatter : Types.TicketMetadata -> Outcome string;
  yaml_dump_comments : list Types.Comment -> Outcome string;
  (** [Array.isArray(yaml.load(text))]: [None] when the text does not
      load or loads as something that is not an array. *)
  yaml_load_comments : string -> option (list Types.Comment);
  matter : string -> Outcome (Types.TicketMetadata * string) }.

Definition nl : string := String (ascii_of_nat 10) EmptyString.

(** The double quote, as a string. *)
Definition dquote : string := String (ascii_of_nat 34) EmptyString.

(** [s] is truthy: not the empty string. *)
Definition truthy (s : string) : bool := negb (String.eqb s "").

(** [error instanceof Error ? error.message : 'Unknown error'] *)
Definition message_of (e : Thrown) : string :=
  match e with
  | Err message => message
  | Undefined => "Unknown error"
  end.

(** [l.join(sep)] *)
Fixpoint join (sep : string) (l : list string) : string :=
  match l with
  | [] => ""
  | [x] => x
  | x :: rest => x ++ sep ++ join sep rest
  end.

(** [`${n}`] for a count. *)
Definition show_nat (n : nat) : string :=
  DecimalString.NilEmpty.string_of_uint (Nat.to_uint n).

(* ================================================================== *)
(** ** parsers/index.ts *)
(* ================================================================== *)

Module TimezoneUtils.
Section WithPlatform.
Context {P : Platform}.

(** [utcToSGT]: [toISOString] throws a [RangeError] on an invalid
    date. *)
Definition utcToSGT (utcDateString : string) : Outcome string :=
  match Date_parse utcDateString with
  | None => Threw (Err "Invalid time value")
  | Some utc =>
      Returned (JsString.replace
                  (Date_toISOString (utc + 8 * 60 * 60 * 1000))
                  "Z" "+08:00")
  end.

(** [now()], at the time [clock]. *)
Definition now (clock : Z) : Outcome string :=
  utcToSGT (Date_toISOString clock).
End WithPlatform.
End TimezoneUtils.

Module TicketFileParser.
Import Types.

Definition COMMENTS_SEPARATOR : string := "---comments---".

(** How an identifier starts: [[A-Z]+-\d+], and what follows it. *)
Fixpoint span (p : ascii -> bool) (s : string) : string * string :=
  match s with
  | String c s' =>
      if p c then let (a, b) := span p s' in (String c a, b)
      else (EmptyString, s)
  | EmptyString => (EmptyString, EmptyString)
  end.

(** [^([A-Z]+)-(\d+)]: the team key, the number, and the rest. *)
Definition match_identifier (s : string) : option (string * string * string) :=
  let (key, r1) := span JsString.is_upper s in
  if truthy key then
    match r1 with
    | String "-" r2 =>
        let (number, r3) := span JsString.is_digit r2 in
        if truthy number then Some (key, number, r3) else None
    | _ => None
    end
  else None.

(** [extractLinearIdFromFilename]: the pattern
    [^(?:([A-Z]+-\d+)\.(\d+)|([A-Z]+-\d+))]. *)
Definition extractLinearIdFromFilename (filename : string) : option string :=
  match match_identifier filename with
  | Some (key, number, rest) =>
      match rest with
      | String "." r =>
          let (child, _) := span JsString.is_digit r in
          if truthy child
          then Some (key ++ "-" ++ child)       (* PAP-434.447-... is PAP-447 *)
          else Some (key ++ "-" ++ number)
      | _ => Some (key ++ "-" ++ number)
      end
  | None => None
  end.

(** [.replace(/[^a-z0-9\s-]/g, '')] *)
Fixpoint remove_special (s : string) : string :=
  match s with
  | String c s' =>
      if (JsString.is_lower c || JsString.is_digit c || JsString.is_space c
          || Ascii.eqb c "-")%bool
      then String c (remove_special s')
      else remove_special s'
  | EmptyString => EmptyString
  end.

(** Replaces every maximal run of characters satisfying [p] by one
    ["-"]: [.replace(/\s+/g, '-')] and [.replace(/-+/g, '-')]. *)
Fixpoint runs_to_hyphen (p : ascii -> bool) (in_run : bool) (s : string) : string :=
  match s with
  | String c s' =>
      if p c
      then if in_run then runs_to_hyphen p true s'
           else String "-" (runs_to_hyphen p true s')
      else String c (runs_to_hyphen p false s')
  | EmptyString => EmptyString
  end.

(** [.replace(/^-|-$/g, '')] *)
Definition strip_hyphens (s : string) : string :=
  let s1 := match s with String "-" r => r | _ => s end in
  if JsString.endsWith s1 "-"
  then JsString.take (String.length s1 - 1) s1
  else s1.

Definition sanitizeTitle (title : string) : string :=
  JsString.take 50
    (strip_hyphens
       (runs_to_hyphen (fun c => Ascii.eqb c "-") false
          (runs_to_hyphen JsString.is_space false
             (remove_special (JsString.toLowerCase title))))).

(** [generateFilename(linearId, title, parentId?)] *)
Definition generateFilename (linearId title : string) (parentId : option string) : string :=
  let sanitizedTitle := sanitizeTitle title in
  match parentId with
  | Some parent =>
      if truthy parent
      then let childNumber := nth 1 (JsString.split linearId "-") "undefined" in
           parent ++ "." ++ childNumber ++ "-" ++ sanitizedTitle ++ ".md"
      else linearId ++ "-" ++ sanitizedTitle ++ ".md"
  | None => linearId ++ "-" ++ sanitizedTitle ++ ".md"
  end.

Section WithPlatform.
Context {P : Platform}.

(** [isValidISODate] *)
Definition isValidISODate (dateString : string) : bool :=
  match Date_parse dateString with
  | Some _ => JsString.includes dateString "T"
  | None => false
  end.

Definition check (failed : bool) (message : string) : list string :=
  if failed then [message] else [].

(** [frontmatter.labels] is truthy: an array always is, a string when
    it is not empty. *)
Definition labels_truthy (v : LabelsValue) : bool :=
  match v with
  | LabelsAbsent => false
  | LabelsArray _ => true
  | LabelsScalar s => truthy s
  end.

(** [Array.isArray(frontmatter.labels)] *)
Definition isArray (v : LabelsValue) : bool :=
  match v with
  | LabelsArray _ => true
  | _ => false
  end.

(** [validateFrontmatter]: the error messages, in order. *)
Definition validateFrontmatter (frontmatter : TicketMetadata) : list string :=
  check (negb (truthy (linear_id frontmatter))) "Missing linear_id"
  ++ check (negb (truthy (status frontmatter))) "Missing status"
  ++ check (negb (truthy (url frontmatter))) "Missing url"
  ++ check (negb (truthy (created_at frontmatter))) "Missing created_at"
  ++ check (negb (truthy (updated_at frontmatter))) "Missing updated_at"
  ++ check (negb (priority frontmatter =? 0)
            && negb (existsb (Z.eqb (priority frontmatter)) [1; 2; 3; 4]))
           "Priority must be 1, 2, 3, or 4"
  ++ check (labels_truthy (labels frontmatter)
            && negb (isArray (labels frontmatter)))
           "Labels must be an array"
  ++ check (truthy (created_at frontmatter)
            && negb (isValidISODate (created_at frontmatter)))
           "created_at must be valid ISO date string"
  ++ check (truthy (updated_at frontmatter)
            && negb (isValidISODate (updated_at frontmatter)))
           "updated_at must be valid ISO date string"
  ++ check (match due_date frontmatter with
            | Some d => truthy d && negb (isValidISODate d)
            | None => false
            end)
           "due_date must be valid ISO date string".

(** [parseFile] *)
Definition parseFile (text : string) : Outcome TicketFile :=
  match matter text with
  | Threw e => Threw (Err ("Failed to parse ticket file: " ++ message_of e))
  | Returned (data, below) =>
      let parts := JsString.split below (nl ++ COMMENTS_SEPARATOR ++ nl) in
      let mainContent := JsString.trim (nth 0 parts "") in
      let comments :=
        match parts with
        | _ :: backmatter :: _ =>
            if truthy (JsString.trim backmatter)
            then match yaml_load_comments (JsString.trim backmatter) with
                 | Some commentsData => commentsData
                 | None => []
                 end
            else []
        | _ => []
        end in
      Returned {| frontmatter := data;
                  content := mainContent;
                  comments := comments |}
  end.

(** [generateFile]. The errors [validateFrontmatter] returns are not
    looked at. *)
Definition generateFile (ticket : TicketFile) : Outcome string :=
  match yaml_dump_frontmatter (frontmatter ticket) with
  | Threw e => Threw (Err ("Failed to generate ticket file: " ++ message_of e))
  | Returned frontmatterYaml =>
      let text := "---" ++ nl ++ frontmatterYaml ++ "---" ++ nl ++ nl
                  ++ content ticket in
      Returned
        match comments ticket with
        | [] => text
        | _ :: _ =>
            let text := text ++ nl ++ nl ++ COMMENTS_SEPARATOR ++ nl in
            match yaml_dump_comments (comments ticket) with
            | Returned commentsYaml => text ++ commentsYaml
            | Threw _ => text
            end
        end
  end.

(** The checks of [validateFile] on the comments: one message for
    each field a comment misses. *)
Fixpoint validateComments (i : nat) (l : list Comment) : list string :=
  match l with
  | [] => []
  | comment :: rest =>
      let n := show_nat (i + 1) in
      check (negb (truthy (comment_id comment))) ("Comment " ++ n ++ " missing id")
      ++ check (negb (truthy (author comment))) ("Comment " ++ n ++ " missing author")
      ++ check (negb (truthy (comment_content comment)))
               ("Comment " ++ n ++ " missing content")
      ++ check (negb (truthy (comment_created_at comment)))
               ("Comment " ++ n ++ " missing created_at")
      ++ validateComments (S i) rest
  end.

(** [validateFile(content).errors]; [valid] is [errors.length === 0]. *)
Definition validateFile (text : string) : list string :=
  match parseFile text with
  | Returned ticket =>
      validateFrontmatter (frontmatter ticket)
      ++ check (negb (truthy (JsString.trim (content ticket))))
               "Content section is empty"
      ++ validateComments 0 (comments ticket)
  | Threw e => ["Parse error: " ++ message_of e]
  end.

End WithPlatform.
End TicketFileParser.

Example extractLinearId_examples :
  TicketFileParser.extractLinearIdFromFilename "PAP-431-implement-feature.md" = Some "PAP-431"
  /\ TicketFileParser.extractLinearIdFromFilename "PAP-434.447-child-task.md" = Some "PAP-447"
  /\ TicketFileParser.extractLinearIdFromFilename "README.md" = None
  /\ TicketFileParser.extractLinearIdFromFilename "pap-1-x.md" = None.
Proof. repeat split; reflexivity. Qed.

Example generateFilename_examples :
  TicketFileParser.generateFilename "PAP-447" "Implement  Feature: v2!" None
  = "PAP-447-implement-feature-v2.md"
  /\ TicketFileParser.generateFilename "PAP-447" "Child task" (Some "PAP-434")
     = "PAP-434.447-child-task.md"
  /\ TicketFileParser.generateFilename "PAP-447" " - a -- b - " None
     = "PAP-447-a-b.md".
Proof. repeat split; reflexivity. Qed.

(* ================================================================== *)
(** ** The local tree: what the [fs] calls of the sources do *)
(* ================================================================== *)

Module Fs.

(** The tree is the folders of [linear-tickets/] with their files. A
    call throws for a path that is not there ([ENOENT]); the disk itself
    (permissions, space left) is taken to serve every call. *)

(** A path below [linear-tickets/]: the status folder and the file. *)
Definition Path : Type := (string * string)%type.

Definition path_eqb (a b : Path) : bool :=
  (String.eqb (fst a) (fst b) && String.eqb (snd a) (snd b))%bool.

Fixpoint assoc {A : Type} (k : string) (l : list (string * A)) : option A :=
  match l with
  | [] => None
  | (k', v) :: rest => if String.eqb k' k then Some v else assoc k rest
  end.

(** Sets the entry [k]: in place when there is one, at the end of the
    listing otherwise. *)
Fixpoint assoc_set {A : Type} (k : string) (v : A) (l : list (string * A))
  : list (string * A) :=
  match l with
  | [] => [(k, v)]
  | (k', v') :: rest =>
      if String.eqb k' k then (k', v) :: rest
      else (k', v') :: assoc_set k v rest
  end.

Fixpoint assoc_remove {A : Type} (k : string) (l : list (string * A))
  : list (string * A) :=
  match l with
  | [] => []
  | (k', v') :: rest =>
      if String.eqb k' k then rest else (k', v') :: assoc_remove k rest
  end.

Definition lookup (p : Path) (t : list (string * Folder)) : option FileEntry :=
  match assoc (fst p) t with
  | Some files => assoc (snd p) files
  | None => None
  end.

(** [fs.existsSync(dir)] *)
Definition existsDir (dir : string) (t : list (string * Folder)) : bool :=
  match assoc dir t with Some _ => true | None => false end.

(** [fs.mkdirSync(dir, { recursive: true })] *)
Definition mkdir (dir : string) (t : list (string * Folder)) : list (string * Folder) :=
  if existsDir dir t then t else t ++ [(dir, [])].

(** [fs.readFileSync(path, 'utf-8')] *)
Definition readFileSync (p : Path) : Async string :=
  Get (fun w =>
    match lookup p (tree w) with
    | Some f => Ret (bytes f)
    | None => Throw (Err "ENOENT: no such file or directory, open")
    end).

(** [fs.statSync(path).mtime], as a time value. *)
Definition statSync_mtime (p : Path) : Async Z :=
  Get (fun w =>
    match lookup p (tree w) with
    | Some f => Ret (mtime f)
    | None => Throw (Err "ENOENT: no such file or directory, stat")
    end).

(** [fs.writeFileSync(path, text, 'utf-8')]: the file is created or
    overwritten, and modified now; its folder must exist. *)
Definition writeFileSync (p : Path) (text : string) : Async unit :=
  Get (fun w =>
    match assoc (fst p) (tree w) with
    | Some files =>
        Put (set_tree
               (assoc_set (fst p)
                  (assoc_set (snd p) {| bytes := text; mtime := clock w |} files)
                  (tree w)) w)
            (Ret tt)
    | None => Throw (Err "ENOENT: no such file or directory, open")
    end).

(** [fs.unlinkSync(path)] *)
Definition unlinkSync (p : Path) : Async unit :=
  Get (fun w =>
    match assoc (fst p) (tree w) with
    | Some files =>
        match assoc (snd p) files with
        | Some _ =>
            Put (set_tree
                   (assoc_set (fst p) (assoc_remove (snd p) files) (tree w)) w)
                (Ret tt)
        | None => Throw (Err "ENOENT: no such file or directory, unlink")
        end
    | None => Throw (Err "ENOENT: no such file or directory, unlink")
    end).

End Fs.

(* ================================================================== *)
(** ** client.ts: LinearSyncClient *)
(* ================================================================== *)

Module LinearSyncClient.

(** [issue(id: $issueId)]: the tracker answers to the internal id and
    to the identifier. *)
Definition find_issue (issueId : string) (l : list Linear.Issue) : option Linear.Issue :=
  find (fun i => (String.eqb (Linear.id i) issueId
                  || String.eqb (Linear.identifier i) issueId)%bool) l.

(** [getIssue]: the query, under [RetryManager.withRetry]. *)
Definition getIssue (issueId : string) : Async Linear.Issue :=
  RetryManager.withRetry
    (request (fun w =>
       match find_issue issueId (issues w) with
       | Some issue => (w, Returned issue)
       | None => (w, Threw (Err ("Issue " ++ issueId ++ " not found")))
       end))
    RetryManager.empty_config.

(** What the tracker does with an update it accepts: the fields given
    are set; a state id the team does not have leaves the state as it
    is. *)
Definition apply_update (states : list Linear.WorkflowState)
    (u : Linear.IssueUpdate) (i : Linear.Issue) : Linear.Issue :=
  {| Linear.id := Linear.id i;
     Linear.identifier := Linear.identifier i;
     Linear.title := match Linear.upd_title u with
                     | Some t => t
                     | None => Linear.title i
                     end;
     Linear.description := match Linear.upd_description u with
                           | Some d => Some d
                           | None => Linear.description i
                           end;
     Linear.url := Linear.url i;
     Linear.priority := Linear.priority i;
     Linear.createdAt := Linear.createdAt i;
     Linear.updatedAt := Linear.updatedAt i;
     Linear.dueDate := Linear.dueDate i;
     Linear.labels := Linear.labels i;
     Linear.assignee := Linear.assignee i;
     Linear.parent := Linear.parent i;
     Linear.state :=
       match Linear.upd_stateId u with
       | Some sid =>
           match find (fun s => String.eqb (Linear.state_id s) sid) states with
           | Some s => s
           | None => Linear.state i
           end
       | None => Linear.state i
       end;
     Linear.comments := Linear.comments i |}.

(** [updateIssue]: the mutation, under [RetryManager.withRetry]. Every
    call the tracker receives is recorded in [updates]. *)
Definition updateIssue (issueId : string) (u : Linear.IssueUpdate) : Async unit :=
  RetryManager.withRetry
    (request (fun w =>
       let w1 := log_update issueId u w in
       match find_issue issueId (issues w1) with
       | Some _ =>
           (set_issues
              (map (fun i => if (String.eqb (Linear.id i) issueId
                                 || String.eqb (Linear.identifier i) issueId)%bool
                             then apply_update (workflow w1) u i else i)
                   (issues w1)) w1,
            Returned tt)
       | None => (w1, Threw (Err "Entity not found: Issue"))
       end))
    RetryManager.empty_config.

End LinearSyncClient.

(* ================================================================== *)
(** ** cli/sync.ts *)
(* ================================================================== *)

Definition lift {A : Type} (o : Outcome A) : Async A :=
  match o with
  | Returned x => Ret x
  | Threw e => Throw e
  end.

Module Sync.
Import Types TicketFileParser.

(** The test of [findTicketFile] on one file name. *)
Definition names_ticket (ticketId file : string) : bool :=
  (JsString.endsWith file ".md"
   && match extractLinearIdFromFilename file with
      | Some extractedId =>
          String.eqb (JsString.toLowerCase extractedId)
                     (JsString.toLowerCase ticketId)
      | None => false
      end)%bool.

Definition find_in_folder (ticketId : string) (files : Folder) : option string :=
  match find (fun f => names_ticket ticketId (fst f)) files with
  | Some f => Some (fst f)
  | None => None
  end.

Fixpoint find_in_tree (ticketId : string) (t : list (string * Folder))
  : option Fs.Path :=
  match t with
  | [] => None
  | (folder, files) :: rest =>
      match find_in_folder ticketId files with
      | Some file => Some (folder, file)
      | None => find_in_tree ticketId rest
      end
  end.

(** [findTicketFile]: the first file, folder by folder, whose name
    carries the id. *)
Definition findTicketFile (ticketId : string) : Async (option Fs.Path) :=
  gets (fun w => find_in_tree ticketId (tree w)).

(** [getAllTicketFiles] *)
Definition getAllTicketFiles : Async (list Fs.Path) :=
  gets (fun w =>
    flat_map
      (fun d : string * Folder =>
         map (fun f : string * FileEntry => (fst d, fst f))
             (filter (fun f : string * FileEntry =>
                        (JsString.endsWith (fst f) ".md"
                         && negb (String.eqb (fst f) "README.md"))%bool)
                     (snd d)))
      (tree w)).

Definition findStateIdForFolder (folder : string) (config : LinearSyncConfig)
  : option string :=
  match find (fun m : string * StatusMapping => String.eqb (Types.folder (snd m)) folder)
             (statusMapping config) with
  | Some m => Some (Types.id (snd m))
  | None => None
  end.

Definition findStatusFolder (stateName : string) (config : LinearSyncConfig)
  : option string :=
  match find (fun m : string * StatusMapping => String.eqb (fst m) stateName)
             (statusMapping config) with
  | Some m => Some (Types.folder (snd m))
  | None => None
  end.

(** [.replace(/-/g, ' ')] *)
Fixpoint hyphens_to_spaces (s : string) : string :=
  match s with
  | String c s' =>
      String (if Ascii.eqb c "-" then " "%char else c) (hyphens_to_spaces s')
  | EmptyString => EmptyString
  end.

(** [.replace(/\b\w/g, char => char.toUpperCase())]: [after_word]
    tells whether the character before is a word character. *)
Fixpoint title_case (after_word : bool) (s : string) : string :=
  match s with
  | String c s' =>
      String (if (JsString.is_word c && negb after_word)%bool
              then JsString.upper_char c else c)
             (title_case (JsString.is_word c) s')
  | EmptyString => EmptyString
  end.

(** [path.basename(filePath, '.md')] *)
Definition basename_md (file : string) : string :=
  if JsString.endsWith file ".md"
  then JsString.take (String.length file - 3) file
  else file.

Definition extractTitleFromFilename (filename linearId : string) : option string :=
  let prefix := linearId ++ "-" in
  if negb (JsString.startsWith filename prefix) then None
  else
    let title :=
      title_case false
        (hyphens_to_spaces (JsString.drop (String.length prefix) filename)) in
    if truthy title then Some title else None.

(** The [updates] object [pushSingleTicket] builds. *)
Definition newTitle (filePath : Fs.Path) (ticket : TicketFile) : option string :=
  let titleFromFrontmatter := title (frontmatter ticket) in
  let titleFromFilename :=
    extractTitleFromFilename (basename_md (snd filePath))
                             (linear_id (frontmatter ticket)) in
  if truthy titleFromFrontmatter then Some titleFromFrontmatter
  else titleFromFilename.

Definition differs (remote : option string) (local : string) : bool :=
  match remote with
  | Some r => negb (String.eqb r local)
  | None => true
  end.

Definition buildUpdates (filePath : Fs.Path) (ticket : TicketFile)
    (newStateId : string) (linearIssue : Linear.Issue) : Linear.IssueUpdate :=
  {| Linear.upd_stateId :=
       if negb (String.eqb (Linear.state_id (Linear.state linearIssue)) newStateId)
       then Some newStateId else None;
     Linear.upd_title :=
       match newTitle filePath ticket with
       | Some t =>
           if negb (String.eqb (Linear.title linearIssue) t) then Some t else None
       | None => None
       end;
     Linear.upd_description :=
       if (truthy (content ticket)
           && differs (Linear.description linearIssue) (content ticket))%bool
       then Some (content ticket) else None |}.

(** The tally [pushAllTickets] prints when it is done. *)
Record Tally := { pushed : nat; skipped : nat; errors : nat }.

Inductive Verdict : Type := Pushed | Skipped | Errored.

Definition count (v : Verdict) (t : Tally) : Tally :=
  match v with
  | Pushed => {| pushed := S (pushed t); skipped := skipped t; errors := errors t |}
  | Skipped => {| pushed := pushed t; skipped := S (skipped t); errors := errors t |}
  | Errored => {| pushed := pushed t; skipped := skipped t; errors := S (errors t) |}
  end.

(** [a > b] on the time values of two dates; an invalid date compares
    false. *)
Definition date_gt (a b : option Z) : bool :=
  match a, b with
  | Some x, Some y => y <? x
  | _, _ => false
  end.

Section WithPlatform.
Context {P : Platform}.
Variable config : LinearSyncConfig.

(** The end of [pushSingleTicket]: the file's [updated_at] is set to
    now and the file is written again. *)
Definition refreshLocalFile (filePath : Fs.Path) (ticket : TicketFile) : Async unit :=
  time <- gets clock ;;
  now <- lift (TimezoneUtils.now time) ;;
  updatedContent <-
    lift (generateFile
            {| frontmatter := set_updated_at now (frontmatter ticket);
               content := content ticket;
               comments := comments ticket |}) ;;
  Fs.writeFileSync filePath updatedContent.

(** [pushSingleTicket] from the fetch of the issue on: the comparison
    with the issue and what follows from it. *)
Definition pushChanges (filePath : Fs.Path) (ticket : TicketFile)
    (newStateId : string) : Async unit :=
  linearIssue <- LinearSyncClient.getIssue (linear_id (frontmatter ticket)) ;;
  let updates := buildUpdates filePath ticket newStateId linearIssue in
  if Nat.ltb 0 (Linear.keys updates)
  then
    LinearSyncClient.updateIssue (Linear.id linearIssue) updates ;;
    refreshLocalFile filePath ticket
  else Ret tt.

Definition pushSingleTicket (ticketId : string) : Async unit :=
  found <- findTicketFile ticketId ;;
  match found with
  | None => Throw (Err ("Ticket file for " ++ ticketId ++ " not found"))
  | Some filePath =>
      text <- Fs.readFileSync filePath ;;
      ticket <- lift (parseFile text) ;;
      match validateFile text with
      | (_ :: _) as errors =>
          Throw (Err ("Invalid ticket file: " ++ join ", " errors))
      | [] =>
          let currentFolder := fst filePath in
          match findStateIdForFolder currentFolder config with
          | None =>
              Throw (Err ("Cannot find Linear state ID for folder " ++ dquote
                          ++ currentFolder ++ dquote))
          | Some newStateId =>
              if negb (truthy newStateId)
              then Throw (Err ("Cannot find Linear state ID for folder " ++ dquote
                               ++ currentFolder ++ dquote))
              else pushChanges filePath ticket newStateId
          end
      end
  end.

(** The body of the loop of [pushAllTickets] for one file. *)
Definition pushIfModified (filePath : Fs.Path) : Async Verdict :=
  try_catch
    (text <- Fs.readFileSync filePath ;;
     ticket <- lift (parseFile text) ;;
     fileModifiedTime <- Fs.statSync_mtime filePath ;;
     let lastSyncTime := Date_parse (updated_at (frontmatter ticket)) in
     if date_gt (Some fileModifiedTime) lastSyncTime
     then pushSingleTicket (linear_id (frontmatter ticket)) ;; Ret Pushed
     else Ret Skipped)
    (fun _ => Ret Errored).

Fixpoint pushEach (tickets : list Fs.Path) (tally : Tally) : Async Tally :=
  match tickets with
  | [] => Ret tally
  | filePath :: rest =>
      verdict <- pushIfModified filePath ;;
      pushEach rest (count verdict tally)
  end.

Definition pushAllTickets : Async Tally :=
  tickets <- getAllTicketFiles ;;
  pushEach tickets {| pushed := 0; skipped := 0; errors := 0 |}.

(** [a || b] on optional strings. *)
Definition first_truthy (a b : option string) : option string :=
  match a with
  | Some x => if truthy x then a else b
  | None => b
  end.

Definition convertComment (comment : Linear.Comment) : Outcome Comment :=
  match TimezoneUtils.utcToSGT (Linear.comment_createdAt comment) with
  | Threw e => Threw e
  | Returned created =>
      Returned
        {| comment_id := Linear.comment_id comment;
           author :=
             match first_truthy
                     (match Linear.user comment with
                      | Some u => Linear.user_email u | None => None end)
                     (match Linear.user comment with
                      | Some u => Linear.user_name u | None => None end) with
             | Some a => if truthy a then a else "Unknown"
             | None => "Unknown"
             end;
           comment_content :=
             match Linear.body comment with Some b => b | None => "" end;
           comment_created_at := created |}
  end.

Fixpoint convertComments (l : list Linear.Comment) : Outcome (list Comment) :=
  match l with
  | [] => Returned []
  | c :: rest =>
      match convertComment c with
      | Threw e => Threw e
      | Returned c' =>
          match convertComments rest with
          | Threw e => Threw e
          | Returned rest' => Returned (c' :: rest')
          end
      end
  end.

(** [convertLinearIssueToTicket] *)
Definition convertLinearIssueToTicket (issue : Linear.Issue) : Outcome TicketFile :=
  match TimezoneUtils.utcToSGT (Linear.createdAt issue) with
  | Threw e => Threw e
  | Returned createdAt =>
  match TimezoneUtils.utcToSGT (Linear.updatedAt issue) with
  | Threw e => Threw e
  | Returned updatedAt =>
  match (match Linear.dueDate issue with
         | Some d => if truthy d
                     then match TimezoneUtils.utcToSGT d with
                          | Returned d' => Returned (Some d')
                          | Threw e => Threw e
                          end
                     else Returned None
         | None => Returned None
         end) with
  | Threw e => Threw e
  | Returned dueDate =>
  match convertComments (Linear.comments issue) with
  | Threw e => Threw e
  | Returned comments =>
      Returned
        {| frontmatter :=
             {| linear_id := Linear.identifier issue;
                title := Linear.title issue;
                status := Linear.state_name (Linear.state issue);
                assignee := match Linear.assignee issue with
                            | Some u => Linear.user_email u
                            | None => None
                            end;
                labels := LabelsArray (Linear.labels issue);
                priority := Linear.priority issue;
                due_date := dueDate;
                url := Linear.url issue;
                created_at := createdAt;
                updated_at := updatedAt |};
           content :=
             match first_truthy (Linear.description issue) None with
             | Some d => d
             | None => "# " ++ Linear.title issue ++ nl ++ nl
                       ++ "*No description provided*"
             end;
           comments := comments |}
  end end end end.

(** [pullSingleTicket] from the issue on: where the file goes, what it
    holds, the removal of a file that lies elsewhere, the write. *)
Definition writeTicket (issue : Linear.Issue) : Async unit :=
  existingFilePath <- findTicketFile (Linear.identifier issue) ;;
  match findStatusFolder (Linear.state_name (Linear.state issue)) config with
  | None =>
      Throw (Err ("Unknown Linear state " ++ dquote ++ Linear.state_name (Linear.state issue) ++ dquote ++ " not in config"))
  | Some statusFolder =>
      if negb (truthy statusFolder)
      then Throw (Err ("Unknown Linear state " ++ dquote ++ Linear.state_name (Linear.state issue) ++ dquote ++ " not in config"))
      else
        let filename :=
          generateFilename (Linear.identifier issue) (Linear.title issue)
                           (Linear.parent issue) in
        let newFilePath : Fs.Path := (statusFolder, filename) in
        ticket <- lift (convertLinearIssueToTicket issue) ;;
        text <- lift (generateFile ticket) ;;
        (match existingFilePath with
         | Some existing =>
             if negb (Fs.path_eqb existing newFilePath)
             then Fs.unlinkSync existing
             else Ret tt
         | None => Ret tt
         end) ;;
        modify (fun w => set_tree (Fs.mkdir statusFolder (tree w)) w) ;;
        Fs.writeFileSync newFilePath text
  end.

Definition pullSingleTicket (ticketId : string) : Async unit :=
  issue <- LinearSyncClient.getIssue ticketId ;;
  writeTicket issue.

End WithPlatform.
End Sync.

(* ================================================================== *)
(** ** cli/start-sync.ts: SyncDaemon *)
(* ================================================================== *)

Module SyncDaemon.
Import Types.

(** The body of a [POST /webhook]: [action], [type] and, of [data], the
    two places the handler looks for the ticket's identifier. *)
Record WebhookData := {
  identifier : option string;           (* data.identifier *)
  issue_identifier : option string }.   (* data.issue.identifier *)

Record WebhookBody := {
  action : option string;
  type : option string;
  data : option WebhookData }.

(** [x === s] for a field that may be absent. *)
Definition equals (x : option string) (s : string) : bool :=
  match x with
  | Some v => String.eqb v s
  | None => false
  end.

(** [data?.identifier || data?.issue?.identifier], when truthy. *)
Definition ticketIdOf (body : WebhookBody) : option string :=
  match data body with
  | Some d =>
      match Sync.first_truthy (identifier d) (issue_identifier d) with
      | Some t => if truthy t then Some t else None
      | None => None
      end
  | None => None
  end.

(** [extractTicketIdFromFilename]: the pattern
    [^([A-Z]+-\d+(?:\.\d+)?)-], the empty string when it does not
    match. *)
Definition extractTicketIdFromFilename (filename : string) : string :=
  match TicketFileParser.match_identifier filename with
  | Some (key, number, rest) =>
      match rest with
      | String "-" _ => key ++ "-" ++ number
      | String "." r =>
          let (child, r') := TicketFileParser.span JsString.is_digit r in
          match r' with
          | String "-" _ =>
              if truthy child then key ++ "-" ++ number ++ "." ++ child else ""
          | _ => ""
          end
      | _ => ""
      end
  | None => ""
  end.

(** The search of [removeLocalTicketFile]: the status folders of the
    configuration in order, and in each the first file of the ticket. *)
Fixpoint locate (ticketId : string) (mappings : list (string * StatusMapping))
    (t : list (string * Folder)) : option Fs.Path :=
  match mappings with
  | [] => None
  | (_, statusConfig) :: rest =>
      match Fs.assoc (folder statusConfig) t with
      | Some files =>
          match find (fun f : string * FileEntry =>
                        String.eqb (extractTicketIdFromFilename (fst f)) ticketId)
                     files with
          | Some f => Some (folder statusConfig, fst f)
          | None => locate ticketId rest t
          end
      | None => locate ticketId rest t
      end
  end.

Inductive FileAction : Type := added | removed.

(** [path.basename(filePath)] *)
Fixpoint basename_go (cur s : string) : string :=
  match s with
  | String c s' =>
      if Ascii.eqb c "/" then basename_go EmptyString s'
      else basename_go (cur ++ String c EmptyString) s'
  | EmptyString => cur
  end.

Definition basename (filePath : string) : string := basename_go EmptyString filePath.

(** The key [handleFileMove] debounces a file event under: [None] when
    the event is dropped. *)
Definition debounceKey (filePath : string) : option string :=
  if (negb (JsString.endsWith filePath ".md")
      || JsString.endsWith filePath "README.md")%bool
  then None
  else match TicketFileParser.match_identifier (basename filePath) with
       | Some (key, number, _) => Some (key ++ "-" ++ number)
       | None => None
       end.

(** A pending timer of [moveDebounceMap]: when it is due, and the
    [action] its callback has captured. *)
Record Timer := { deadline : Z; captured : FileAction }.

(** What a task of the daemon works on. *)
Inductive Op : Type := Pull | Delete | Push.

(** An asynchronous function the daemon has started: what it is for,
    when it started and what is left of it. *)
Record Task := {
  op : Op;
  ticket : string;
  started_at : Z;
  code : Async unit }.

Definition in_flight (t : Task) : bool :=
  match code t with
  | Ret _ | Throw _ => false
  | _ => true
  end.

Record Daemon := {
  world : World;
  moveDebounceMap : list (string * Timer);
  tasks : list Task }.

Section WithPlatform.
Context {P : Platform}.
Variable config : LinearSyncConfig.
(** [slackService.sendWebhookNotification], with the event
    [sendSlackNotification] or [sendDeletionNotification] builds from the
    payload. *)
Variable slackService : WebhookBody -> Async unit.

Definition sendSlackNotification (ticketId : string) (webhookPayload : WebhookBody)
  : Async unit :=
  try_catch
    (_ <- LinearSyncClient.getIssue ticketId ;; slackService webhookPayload)
    (fun _ => Ret tt).

(** [syncTicket] *)
Definition syncTicket (ticketId : string) (webhookPayload : WebhookBody) : Async unit :=
  RetryManager.withRetry
    (Sync.pullSingleTicket config ticketId ;;
     sendSlackNotification ticketId webhookPayload)
    RetryManager.empty_config.

Definition removeLocalTicketFile (ticketId : string) : Async unit :=
  try_catch
    (found <- gets (fun w => locate ticketId (statusMapping config) (tree w)) ;;
     match found with
     | Some filePath => Fs.unlinkSync filePath
     | None => Ret tt
     end)
    (fun _ => Ret tt).

Definition sendDeletionNotification (webhookPayload : WebhookBody) : Async unit :=
  try_catch (slackService webhookPayload) (fun _ => Ret tt).

(** [handleTicketDeletion] *)
Definition handleTicketDeletion (ticketId : string) (webhookPayload : WebhookBody)
  : Async unit :=
  RetryManager.withRetry
    (removeLocalTicketFile ticketId ;;
     sendDeletionNotification webhookPayload)
    RetryManager.empty_config.

(** What the handler of [POST /webhook] does with the body before it
    answers. *)
Definition dispatch (body : WebhookBody) : Async unit :=
  match ticketIdOf body with
  | Some ticketId =>
      if (equals (action body) "update" || equals (action body) "create")%bool
      then
        (if (equals (action body) "create" && equals (type body) "Comment")%bool
         then sleep (Some 2000) else Ret tt) ;;
        syncTicket ticketId body
      else if equals (action body) "remove"
           then handleTicketDeletion ticketId body
           else Ret tt
  | None => Ret tt
  end.

(** The handler of [POST /webhook]: the status of the response,
    [res.status(200).send('OK')] after the dispatch and
    [res.status(500).send('Error')] in the [catch] block. *)
Definition webhook (body : WebhookBody) : Async nat :=
  try_catch (dispatch body ;; Ret 200%nat) (fun _ => Ret 500%nat).

(** The callback [handleFileMove] hands to [setTimeout], after it has
    deleted its key from [moveDebounceMap]. *)
Definition settled (ticketId : string) (action : FileAction) : Async unit :=
  match action with
  | added => try_catch (Sync.pushSingleTicket config ticketId) (fun _ => Ret tt)
  | removed => Ret tt
  end.

(** [handleFileMove]: the timer of the key, if any, is cleared, and a
    new one is set, due in 2000 ms. *)
Definition handleFileMove (filePath : string) (action : FileAction) (d : Daemon)
  : Daemon :=
  match debounceKey filePath with
  | None => d
  | Some key =>
      {| world := world d;
         moveDebounceMap :=
           Fs.assoc_set key
             {| deadline := clock (world d) + 2000; captured := action |}
             (moveDebounceMap d);
         tasks := tasks d |}
  end.

(** The event loop starts an asynchronous function: it runs up to its
    first suspension. *)
Definition start (o : Op) (ticketId : string) (body : Async unit) (d : Daemon)
  : Daemon :=
  let (w, rest) := segment body (world d) in
  {| world := w;
     moveDebounceMap := moveDebounceMap d;
     tasks := tasks d ++ [{| op := o; ticket := ticketId;
                             started_at := clock (world d); code := rest |}] |}.

(** A timer fires: at its deadline at the earliest; its callback deletes
    the key and, for an [added] event, starts the push. *)
Definition fire (key : string) (timer : Timer) (d : Daemon) : Daemon :=
  let d1 := {| world := wait_until (deadline timer) (world d);
               moveDebounceMap := Fs.assoc_remove key (moveDebounceMap d);
               tasks := tasks d |} in
  match captured timer with
  | added => start Push key (settled key added) d1
  | removed => d1
  end.

(** The pending timer that is due first. *)
Fixpoint earliest (l : list (string * Timer)) : option (string * Timer) :=
  match l with
  | [] => None
  | (k, t) :: rest =>
      match earliest rest with
      | Some (k', t') =>
          if deadline t' <? deadline t then Some (k', t') else Some (k, t)
      | None => Some (k, t)
      end
  end.

(** The timers due at [t] fire, the earliest first. *)
Fixpoint fire_due (fuel : nat) (t : Z) (d : Daemon) : Daemon :=
  match fuel with
  | O => d
  | S fuel' =>
      match earliest (moveDebounceMap d) with
      | Some (key, timer) =>
          if deadline timer <=? t then fire_due fuel' t (fire key timer d) else d
      | None => d
      end
  end.

(** The event loop resumes the task [i], if it is suspended and what it
    waits for has come: it runs up to its next suspension. *)
Definition resume (i : nat) (d : Daemon) : Daemon :=
  match nth_error (tasks d) i with
  | Some t =>
      match code t with
      | Await until k =>
          if match until with Some u => u <=? clock (world d) | None => true end
          then
            let (w, rest) := segment k (world d) in
            {| world := w;
               moveDebounceMap := moveDebounceMap d;
               tasks := firstn i (tasks d)
                        ++ [{| op := op t; ticket := ticket t;
                               started_at := started_at t; code := rest |}]
                        ++ skipn (S i) (tasks d) |}
          else d
      | _ => d
      end
  | None => d
  end.

(** What happens to the daemon. *)
Inductive Event : Type :=
| FileChanged (filePath : string) (action : FileAction)   (* chokidar: add, unlink *)
| WebhookPosted (body : WebhookBody)                      (* POST /webhook *)
| Resumed (i : nat)                                       (* an awaited answer or timer *)
| TimePassed (t : Z).                                     (* the clock reaches [t] *)

Definition step (d : Daemon) (e : Event) : Daemon :=
  match e with
  | FileChanged filePath action => handleFileMove filePath action d
  | WebhookPosted body =>
      start (if equals (action body) "remove" then Delete else Pull)
            (match ticketIdOf body with Some t => t | None => "" end)
            (webhook body ;; Ret tt) d
  | Resumed i => resume i d
  | TimePassed t =>
      let d1 := fire_due (List.length (moveDebounceMap d)) t d in
      {| world := wait_until t (world d1);
         moveDebounceMap := moveDebounceMap d1;
         tasks := tasks d1 |}
  end.

Definition exec (d : Daemon) (events : list Event) : Daemon :=
  fold_left step events d.

End WithPlatform.
End SyncDaemon.


(* ================================================================== *)
(** ** cli/create.ts: the order tickets are created in *)
(* ================================================================== *)

Module CreateCommand.

(** A markdown file [createCommand] has parsed: [M] is the type of its
    metadata. *)
Record TicketFile (M : Type) := {
  filePath : string;
  metadata : M;
  bodyContent : string;
  dependencies : list string }.
Arguments filePath {M} _.
Arguments metadata {M} _.
Arguments bodyContent {M} _.
Arguments dependencies {M} _.

(** [set.has(x)] and [set.delete(x)] on a set of paths. *)
Definition has (set : list string) (x : string) : bool :=
  existsb (String.eqb x) set.

Definition delete (x : string) (set : list string) : list string :=
  filter (fun y => negb (String.eqb y x)) set.

Section Resolve.
Context {M : Type}.
Variable ticketFiles : list (TicketFile M).

(** [fileMap.get(path)]: the map is filled in the order of the files,
    so of two files with one path the later one is kept. *)
Definition fileMap_get (path : string) : option (TicketFile M) :=
  find (fun file => String.eqb (filePath file) path) (rev ticketFiles).

(** The sets and the list the closure [visit] works on. *)
Record Progress := {
  visited : list string;
  visiting : list string;
  result : list (TicketFile M) }.

(** How a call of [visit] ends: it returns, or it throws
    [Circular dependency detected involving <path>]. *)
Inductive Ending : Type :=
| Returns (progress : Progress)
| Circular (path : string).

(** [for (const dep of file.dependencies) visit(dep)] *)
Fixpoint each (visit : string -> Progress -> option Ending)
    (paths : list string) (progress : Progress) : option Ending :=
  match paths with
  | [] => Some (Returns progress)
  | path :: rest =>
      match visit path progress with
      | Some (Returns progress') => each visit rest progress'
      | other => other
      end
  end.

(** [visit(filePath)]; the recursion is as deep as [fuel] allows, [None]
    beyond. *)
Fixpoint visit (fuel : nat) (path : string) (progress : Progress) : option Ending :=
  match fuel with
  | O => None
  | S fuel' =>
      if has (visiting progress) path then Some (Circular path)
      else if has (visited progress) path then Some (Returns progress)
      else
        match fileMap_get path with
        | None => Some (Returns progress)      (* Dependency file not found *)
        | Some file =>
            match each (visit fuel') (dependencies file)
                    {| visited := visited progress;
                       visiting := path :: visiting progress;
                       result := result progress |} with
            | Some (Returns progress') =>
                Some (Returns
                        {| visited := path :: visited progress';
                           visiting := delete path (visiting progress');
                           result := (result progress' ++ [file])%list |})
            | other => other
            end
        end
  end.

(** [resolveDependencyOrder(ticketFiles)]: no chain of dependencies is
    longer than there are files. *)
Definition resolveDependencyOrder : option (Outcome (list (TicketFile M))) :=
  match each (visit (S (List.length ticketFiles))) (map filePath ticketFiles)
          {| visited := []; visiting := []; result := [] |} with
  | Some (Returns progress) => Some (Returned (result progress))
  | Some (Circular path) =>
      Some (Threw (Err ("Circular dependency detected involving " ++ path)))
  | None => None
  end.

End Resolve.

End CreateCommand.

(* ================================================================== *)
(** ** cli/slack-notifications.ts *)
(* ================================================================== *)

Module SlackNotificationService.

(** [truncateText(text, maxLength)]; [substring] takes a negative end
    for 0. *)
Definition truncateText (text : string) (maxLength : Z) : string :=
  if Z.of_nat (String.length text) <=? maxLength then text
  else JsString.take (Z.to_nat (maxLength - 3)) text ++ "...".

End SlackNotificationService.

(* ================================================================== *)
(** * Properties *)
(* ================================================================== *)

Unset Implicit Arguments.

(** ** Running computations *)

Lemma run_bind {A B : Type} (a : Async A) (f : A -> Async B) (w : World) :
  run (bind a f) w =
  match run a w with
  | (w', Returned x) => run (f x) w'
  | (w', Threw e) => (w', Threw e)
  end.
Proof.
  revert w; induction a as [x|e|k IH|w0 k IH|t k IH]; intros w; simpl; auto.
Qed.

Lemma run_try_catch {A : Type} (a : Async A) (h : Thrown -> Async A) (w : World) :
  run (try_catch a h) w =
  match run a w with
  | (w', Returned x) => (w', Returned x)
  | (w', Threw e) => run (h e) w'
  end.
Proof.
  revert w; induction a as [x|e|k IH|w0 k IH|t k IH]; intros w; simpl; auto.
Qed.

Lemma run_lift {A : Type} (o : Outcome A) (w : World) : run (lift o) w = (w, o).
Proof. destruct o; reflexivity. Qed.

Lemma run_gets {A : Type} (f : World -> A) (w : World) :
  run (gets f) w = (w, Returned (f w)).
Proof. reflexivity. Qed.

Lemma run_readFileSync p w f :
  Fs.lookup p (tree w) = Some f ->
  run (Fs.readFileSync p) w = (w, Returned (bytes f)).
Proof. intros H. unfold Fs.readFileSync. simpl. rewrite H. reflexivity. Qed.

Lemma run_statSync_mtime p w f :
  Fs.lookup p (tree w) = Some f ->
  run (Fs.statSync_mtime p) w = (w, Returned (mtime f)).
Proof. intros H. unfold Fs.statSync_mtime. simpl. rewrite H. reflexivity. Qed.

Module RetryFacts.
Import RetryManager.

Section Loop.
Context {T : Type}.
Variable operation : Async T.
Variable cfg : RetryConfig.

(** One iteration whose call returns ends the loop with that value. *)
Lemma attempts_returned remaining attempt lastError w w1 x :
  run (attempt_once operation cfg attempt) w = (w1, Returned x) ->
  run (attempts operation cfg (S remaining) attempt lastError) w
  = (w1, Returned x).
Proof.
  intros H. simpl. rewrite run_try_catch, H. reflexivity.
Qed.

(** An error that is not retryable ends the loop at the iteration
    that met it. *)
Lemma attempts_fatal remaining attempt lastError w w1 e :
  run (attempt_once operation cfg attempt) w = (w1, Threw e) ->
  isRetryableError (as_error e) = false ->
  run (attempts operation cfg (S remaining) attempt lastError) w
  = (w1, Threw (Err (as_error e))).
Proof.
  intros H Hf. simpl. rewrite run_try_catch, H, Hf. reflexivity.
Qed.

(** A retryable error on an iteration that is not the last one goes
    on with the next iteration. *)
Lemma attempts_retry remaining attempt lastError w w1 e :
  run (attempt_once operation cfg attempt) w = (w1, Threw e) ->
  isRetryableError (as_error e) = true ->
  attempt <> (maxAttempts cfg - 1)%nat ->
  run (attempts operation cfg (S remaining) attempt lastError) w
  = run (attempts operation cfg remaining (S attempt) (Err (as_error e))) w1.
Proof.
  intros H Hr Hn. simpl. rewrite run_try_catch, H, Hr. simpl.
  apply Nat.eqb_neq in Hn. rewrite Hn. reflexivity.
Qed.

Lemma attempts_last remaining attempt lastError w w1 e :
  run (attempt_once operation cfg attempt) w = (w1, Threw e) ->
  attempt = (maxAttempts cfg - 1)%nat ->
  run (attempts operation cfg (S remaining) attempt lastError) w
  = (w1, Threw (Err (as_error e))).
Proof.
  intros H Hn. simpl. rewrite run_try_catch, H.
  destruct (isRetryableError (as_error e)); simpl; auto.
  apply Nat.eqb_eq in Hn. rewrite Hn. reflexivity.
Qed.

(** The world after the [k] iterations from [attempt] on, when each of
    them has thrown an error [isRetryableError] accepts; [None] when one
    of them has returned or has thrown another error. *)
Fixpoint after_retryable (k attempt : nat) (w : World) : option World :=
  match k with
  | O => Some w
  | S k' =>
      match run (attempt_once operation cfg attempt) w with
      | (w1, Threw e) =>
          if isRetryableError (as_error e)
          then after_retryable k' (S attempt) w1
          else None
      | (_, Returned _) => None
      end
  end.

(** After [k] such iterations, none of them the last one, the loop is
    at the iteration [attempt + k]. *)
Lemma attempts_after_retryable k : forall remaining attempt lastError w wk,
  after_retryable k attempt w = Some wk ->
  (attempt + k < maxAttempts cfg)%nat ->
  exists lastError',
    run (attempts operation cfg (k + remaining) attempt lastError) w
    = run (attempts operation cfg remaining (attempt + k) lastError') wk.
Proof.
  induction k as [|k IH]; intros remaining attempt lastError w wk Hk Hlt.
  - injection Hk as <-. exists lastError. rewrite Nat.add_0_r. reflexivity.
  - cbn [after_retryable] in Hk.
    destruct (run (attempt_once operation cfg attempt) w) as [w1 [x|e]] eqn:E;
      [discriminate|].
    destruct (isRetryableError (as_error e)) eqn:Hr; [|discriminate].
    destruct (IH remaining (S attempt) (Err (as_error e)) w1 wk Hk ltac:(lia))
      as [lastError' H'].
    exists lastError'.
    change (S k + remaining)%nat with (S (k + remaining)).
    rewrite (attempts_retry _ _ _ _ _ _ E Hr ltac:(lia)), H'.
    replace (S attempt + k)%nat with (attempt + S k)%nat by lia.
    reflexivity.
Qed.
End Loop.

(** [withRetry] after [k] retryable failures: what the next attempt
    does decides. *)
Lemma withRetry_after_retryable {T : Type} (operation : Async T) config k w wk :
  let cfg := merge config in
  (k < maxAttempts cfg)%nat ->
  after_retryable operation cfg k 0 w = Some wk ->
  forall w1,
    (forall x,
        run (attempt_once operation cfg k) wk = (w1, Returned x) ->
        run (withRetry operation config) w = (w1, Returned x))
    /\ (forall e,
          run (attempt_once operation cfg k) wk = (w1, Threw e) ->
          isRetryableError (as_error e) = false \/ S k = maxAttempts cfg ->
          run (withRetry operation config) w = (w1, Threw (Err (as_error e)))).
Proof.
  intros cfg Hlt Hk w1. unfold withRetry. fold cfg.
  destruct (maxAttempts cfg) as [|n] eqn:En; [lia|].
  replace (S n) with (k + S (n - k))%nat by lia.
  destruct (attempts_after_retryable operation cfg k (S (n - k)) 0 Undefined
              w wk Hk ltac:(lia)) as [lastError' H].
  rewrite H. cbn [Nat.add]. split.
  - intros x Hx. apply attempts_returned. exact Hx.
  - intros e He [Hf|Hlast].
    + apply attempts_fatal; assumption.
    + apply attempts_last; [exact He|lia].
Qed.

(** The first attempt is made at once, without a sleep. *)
Lemma run_first_attempt {T : Type} (operation : Async T) cfg w :
  run (attempt_once operation cfg 0) w = run operation w.
Proof. unfold attempt_once. rewrite run_bind. reflexivity. Qed.

Lemma withRetry_returned {T : Type} (operation : Async T) w w1 x :
  run operation w = (w1, Returned x) ->
  run (withRetry operation empty_config) w = (w1, Returned x).
Proof.
  intros Hop. unfold withRetry.
  change (maxAttempts (merge empty_config)) with 3%nat.
  apply attempts_returned. rewrite run_first_attempt. exact Hop.
Qed.

Lemma withRetry_fatal {T : Type} (operation : Async T) w w1 e :
  run operation w = (w1, Threw e) ->
  isRetryableError (as_error e) = false ->
  run (withRetry operation empty_config) w = (w1, Threw (Err (as_error e))).
Proof.
  intros Hop Hf. unfold withRetry.
  change (maxAttempts (merge empty_config)) with 3%nat.
  apply attempts_fatal; [rewrite run_first_attempt; exact Hop|exact Hf].
Qed.
End RetryFacts.

Module RetryExhaustion.
Import RetryManager RetryFacts.

(** An operation that raises a transient (retryable) error whenever it
    is called. *)
Definition always_transient {T : Type} (operation : Async T) : Prop :=
  forall w, exists w' e,
    run operation w = (w', Threw e) /\ isRetryableError (as_error e) = true.

Section Exhaust.
Context {T : Type}.
Variable operation : Async T.
Variable cfg : RetryConfig.
Hypothesis transient : always_transient operation.

Lemma attempt_once_transient attempt w :
  exists w' e,
    run (attempt_once operation cfg attempt) w = (w', Threw e)
    /\ isRetryableError (as_error e) = true.
Proof.
  unfold attempt_once. rewrite run_bind.
  destruct (Nat.ltb 0 attempt); simpl.
  - match goal with
    | |- context [run operation ?w0] =>
        destruct (transient w0) as (w' & e & H & He)
    end.
    exists w', e. rewrite H. auto.
  - destruct (transient w) as (w' & e & H & He).
    exists w', e. rewrite H. auto.
Qed.

(** The world after [n] failed iterations in a row, from the iteration
    [attempt] on: each is one sleep (but before the first attempt) and
    one call of the operation. *)
Fixpoint after_failures (n attempt : nat) (w : World) : World :=
  match n with
  | O => w
  | S n' =>
      after_failures n' (S attempt)
        (fst (run (attempt_once operation cfg attempt) w))
  end.

Lemma attempts_exhaust n : forall attempt lastError w,
  (attempt + S n = maxAttempts cfg)%nat ->
  exists e,
    run (attempts operation cfg (S n) attempt lastError) w
    = (after_failures (S n) attempt w, Threw (Err e))
    /\ isRetryableError e = true.
Proof.
  induction n as [|n IH]; intros attempt lastError w Hn.
  - destruct (attempt_once_transient attempt w) as (w' & e & H & He).
    exists (as_error e). split; auto.
    erewrite attempts_last; [|exact H|lia].
    simpl. rewrite H. reflexivity.
  - destruct (attempt_once_transient attempt w) as (w' & e & H & He).
    erewrite attempts_retry; [|exact H|exact He|lia].
    destruct (IH (S attempt) (Err (as_error e)) w') as (e' & H' & He');
      [lia|].
    exists e'. split; auto. rewrite H'.
    change (after_failures (S (S n)) attempt w)
      with (after_failures (S n) (S attempt)
              (fst (run (attempt_once operation cfg attempt) w))).
    rewrite H. reflexivity.
Qed.
End Exhaust.

(** An operation that always raises a transient error is called exactly
    [maxAttempts] times, with one sleep before each call but the first,
    and the last error is raised. *)
Lemma withRetry_exhausts {T : Type} (operation : Async T) config w :
  always_transient operation ->
  (0 < maxAttempts (merge config))%nat ->
  exists e,
    run (withRetry operation config) w
    = (after_failures operation (merge config)
         (maxAttempts (merge config)) 0 w, Threw (Err e))
    /\ isRetryableError e = true.
Proof.
  intros Ht Hpos. unfold withRetry.
  destruct (maxAttempts (merge config)) as [|n] eqn:E; [lia|].
  destruct (@attempts_exhaust T operation (merge config) Ht n 0%nat
              Undefined w) as (e & H & He); [rewrite E; simpl; lia|].
  exists e. split; auto.
Qed.

(** A network on which every request fails with a timeout. *)
Definition network_down : World :=
  {| tree := []; issues := []; workflow := [];
     net := fun _ => Some "Network timeout";
     requests := 0; updates := []; slept := []; clock := 0 |}.

(** A bare request to the tracker. *)
Definition ping : Async unit := request (fun w => (w, Returned tt)).

Lemma ping_always_transient_when_down :
  forall w, net w = net network_down ->
    exists w', run ping w = (w', Threw (Err "Network timeout"))
               /\ net w' = net network_down.
Proof.
  intros w H. unfold ping, request. simpl. rewrite H. simpl.
  eexists; split; [reflexivity|]. simpl. exact H.
Qed.

(** C5 (the schedule the code runs): with the default configuration an
    operation that always fails with a transient error is called three
    times and its last error is raised, but the two sleeps are 120000 ms
    before the second attempt and 30000 ms before the third: the
    documented schedule [immediate, 30s, 2min] is read at index
    [attempt - 1], where the entry [0] is falsy and is replaced by the
    last entry. *)
Theorem C5_default_schedule_sleeps_2min_then_30s :
  let (w', r) := run (withRetry ping empty_config) network_down in
  r = Threw (Err "Network timeout")
  /\ requests w' = 3%nat
  /\ slept w' = [Some 120000; Some 30000]
  /\ delay_before DEFAULT_CONFIG 1 = Some 120000
  /\ delay_before DEFAULT_CONFIG 2 = Some 30000.
Proof. vm_compute. repeat split; reflexivity. Qed.

End RetryExhaustion.

Module RetryClassification.
Import RetryManager RetryFacts.

(** The three classes of the error taxonomy, as [isRetryableError]
    tells them apart: the transient patterns are looked for first. *)
Inductive ErrorClass : Type := Transient | Fatal | Unclassified.

Definition classify (error : string) : ErrorClass :=
  let message := JsString.toLowerCase error in
  if includes_any message
       (network_patterns ++ rate_limit_patterns ++ server_patterns)
  then Transient
  else if includes_any message
            (auth_patterns ++ validation_patterns ++ filesystem_patterns)
       then Fatal
       else Unclassified.

Lemma includes_any_app message l1 l2 :
  includes_any message (l1 ++ l2)
  = (includes_any message l1 || includes_any message l2)%bool.
Proof. unfold includes_any. apply existsb_app. Qed.

Lemma isRetryableError_classify error :
  isRetryableError error
  = match classify error with Fatal => false | _ => true end.
Proof.
  unfold isRetryableError, classify. cbv zeta.
  generalize (JsString.toLowerCase error); intros message.
  rewrite !includes_any_app.
  repeat match goal with
         | |- context [includes_any message ?l] =>
             destruct (includes_any message l)
         end; reflexivity.
Qed.

Example classify_examples :
  classify "401 Unauthorized" = Fatal
  /\ classify "Validation failed: title is required" = Fatal
  /\ classify "EACCES: permission denied, open 'x.md'" = Fatal
  /\ classify "ENOENT: no such file or directory" = Fatal
  /\ classify "socket hang up" = Unclassified
  /\ classify "Issue PAP-447 not found" = Unclassified
  /\ classify "503 Service Unavailable" = Transient
  /\ classify "Network error: 401 Unauthorized" = Transient.
Proof. repeat split; reflexivity. Qed.

(** One more iteration that throws a retryable error. *)
Lemma after_retryable_next {T : Type} (operation : Async T) cfg k :
  forall attempt w wk w1 e,
    after_retryable operation cfg k attempt w = Some wk ->
    run (attempt_once operation cfg (attempt + k)) wk = (w1, Threw e) ->
    isRetryableError (as_error e) = true ->
    after_retryable operation cfg (S k) attempt w = Some w1.
Proof.
  induction k as [|k IH]; intros attempt w wk w1 e Hk Hrun Hr.
  - injection Hk as <-. rewrite Nat.add_0_r in Hrun.
    cbn [after_retryable]. rewrite Hrun, Hr. reflexivity.
  - cbn [after_retryable] in Hk.
    change (after_retryable operation cfg (S (S k)) attempt w)
      with (match run (attempt_once operation cfg attempt) w with
            | (w0, Threw e0) =>
                if isRetryableError (as_error e0)
                then after_retryable operation cfg (S k) (S attempt) w0
                else None
            | (_, Returned _) => None
            end).
    destruct (run (attempt_once operation cfg attempt) w) as [w0 [x|e0]];
      [discriminate|].
    destruct (isRetryableError (as_error e0)); [|discriminate].
    apply (IH (S attempt) w0 wk w1 e Hk); [|exact Hr].
    replace (S attempt + k)%nat with (attempt + S k)%nat by lia. exact Hrun.
Qed.

(** C6: when an attempt of [withRetry], the first or one that follows
    attempts that threw retryable errors, throws an error of the fatal
    class (authentication or authorization, validation or bad request,
    local permission or not-found errors), [withRetry] raises that error
    and the world is the one that attempt left: the operation is not
    called again and no timer is slept on. An error of no class is
    retryable: unless the attempt was the last one allowed, the
    operation is called again after the sleep, and what that next
    attempt returns or fatally throws is what [withRetry] returns or
    throws; on the last attempt allowed the error is raised. *)
Theorem C6_withRetry_raises_fatal_at_once_and_retries_unclassified :
  forall (T : Type) (operation : Async T) (config : PartialRetryConfig)
         (k : nat) (w wk w1 : World) (e : Thrown),
    let cfg := merge config in
    (k < maxAttempts cfg)%nat ->
    after_retryable operation cfg k 0 w = Some wk ->
    run (attempt_once operation cfg k) wk = (w1, Threw e) ->
    (classify (as_error e) = Fatal ->
       run (withRetry operation config) w = (w1, Threw (Err (as_error e))))
    /\ (classify (as_error e) = Unclassified ->
          isRetryableError (as_error e) = true
          /\ ((S k < maxAttempts cfg)%nat ->
                forall w2,
                  (forall x,
                      run (attempt_once operation cfg (S k)) w1
                      = (w2, Returned x) ->
                      run (withRetry operation config) w = (w2, Returned x))
                  /\ (forall e',
                        run (attempt_once operation cfg (S k)) w1
                        = (w2, Threw e') ->
                        classify (as_error e') = Fatal ->
                        run (withRetry operation config) w
                        = (w2, Threw (Err (as_error e')))))
          /\ (S k = maxAttempts cfg ->
                run (withRetry operation config) w
                = (w1, Threw (Err (as_error e))))).
Proof.
  intros T operation config k w wk w1 e cfg Hlt Hk Hrun.
  destruct (withRetry_after_retryable operation config k w wk Hlt Hk w1)
    as [_ Hthrow].
  split.
  - intros Hc. apply Hthrow; [exact Hrun|]. left.
    rewrite isRetryableError_classify, Hc. reflexivity.
  - intros Hc.
    assert (Hr : isRetryableError (as_error e) = true)
      by (rewrite isRetryableError_classify, Hc; reflexivity).
    split; [exact Hr|]. split.
    + intros Hnext w2.
      pose proof (after_retryable_next operation cfg k 0 w wk w1 e Hk Hrun Hr)
        as Hk'.
      destruct (withRetry_after_retryable operation config (S k) w w1
                  Hnext Hk' w2) as [Hret Hthrow'].
      split; [exact Hret|].
      intros e' He' Hc'. apply Hthrow'; [exact He'|]. left.
      rewrite isRetryableError_classify, Hc'. reflexivity.
    + intros Hlast. apply Hthrow; [exact Hrun|]. right. exact Hlast.
Qed.

(** A network that drops the first request (an error of no class); the
    tracker then answers, or rejects the API key. *)
Definition hangs_once (second : option string) : World :=
  {| tree := []; issues := []; workflow := [];
     net := fun n => match n with
                     | O => Some "socket hang up"
                     | _ => second
                     end;
     requests := 0; updates := []; slept := []; clock := 0 |}.

(** The world when the request has gone out again, 120000 ms later. *)
Definition sent_again (w : World) : World :=
  count_request
    (wait_until (clock w + 120000)
       (log_sleep (Some 120000) (count_request w))).

Lemma C6_witness :
  run (withRetry RetryExhaustion.ping empty_config)
      (hangs_once (Some "Authentication failed: 401 Unauthorized"))
  = (sent_again (hangs_once (Some "Authentication failed: 401 Unauthorized")),
     Threw (Err "Authentication failed: 401 Unauthorized"))
  /\ run (withRetry RetryExhaustion.ping empty_config) (hangs_once None)
     = (sent_again (hangs_once None), Returned tt).
Proof.
  split.
  - apply (proj1 (@C6_withRetry_raises_fatal_at_once_and_retries_unclassified
                    unit RetryExhaustion.ping empty_config 1
                    (hangs_once (Some "Authentication failed: 401 Unauthorized"))
                    (count_request
                       (hangs_once (Some "Authentication failed: 401 Unauthorized")))
                    (sent_again
                       (hangs_once (Some "Authentication failed: 401 Unauthorized")))
                    (Err "Authentication failed: 401 Unauthorized")
                    ltac:(vm_compute; lia) eq_refl eq_refl)).
    reflexivity.
  - apply (proj1 (proj2 (proj2
             (@C6_withRetry_raises_fatal_at_once_and_retries_unclassified
                unit RetryExhaustion.ping empty_config 0
                (hangs_once None) (hangs_once None)
                (count_request (hangs_once None))
                (Err "socket hang up")
                ltac:(vm_compute; lia) eq_refl eq_refl)
             eq_refl))
           ltac:(vm_compute; lia) (sent_again (hangs_once None))).
    reflexivity.
Defined.

End RetryClassification.

(* ================================================================== *)
(** ** What a computation leaves as it is *)
(* ================================================================== *)

Lemma run_sleep ms w :
  run (sleep ms) w
  = (wait_until (clock w + match ms with Some d => d | None => 0 end)
                (log_sleep ms w),
     Returned tt).
Proof. reflexivity. Qed.

Lemma run_request {A : Type} (answer : World -> World * Outcome A) w :
  run (request answer) w
  = match net w (requests w) with
    | Some msg => (count_request w, Threw (Err msg))
    | None => answer (count_request w)
    end.
Proof.
  unfold request. simpl. destruct (net w (requests w)); [reflexivity|].
  destruct (answer (count_request w)) as [w2 [x|e]]; reflexivity.
Qed.

Module Frames.
Import RetryManager.

(** Case analysis on the tracker's search for an issue. *)
Ltac case_find_issue :=
  cbv zeta;
  match goal with
  | |- context [LinearSyncClient.find_issue ?a ?b] =>
      destruct (LinearSyncClient.find_issue a b)
  | H : context [LinearSyncClient.find_issue ?a ?b] |- _ =>
      destruct (LinearSyncClient.find_issue a b)
  end.

(** A relation between the world before and the world after that holds
    across sleeps and composes. *)
Record Frame (Q : World -> World -> Prop) : Prop := {
  frame_refl : forall w, Q w w;
  frame_trans : forall a b c, Q a b -> Q b c -> Q a c;
  frame_sleep : forall ms w, Q w (log_sleep ms w);
  frame_wait : forall t w, Q w (wait_until t w) }.

Definition respects (Q : World -> World -> Prop) {A : Type} (a : Async A) : Prop :=
  forall w, Q w (fst (run a w)).

Section Respect.
Variable Q : World -> World -> Prop.
Hypothesis F : Frame Q.

Lemma respects_ret {A : Type} (x : A) : respects Q (Ret x).
Proof. intros w. apply (frame_refl Q F). Qed.

Lemma respects_throw {A : Type} (e : Thrown) : respects Q (@Throw A e).
Proof. intros w. apply (frame_refl Q F). Qed.

Lemma respects_lift {A : Type} (o : Outcome A) : respects Q (lift o).
Proof. intros w. rewrite run_lift. apply (frame_refl Q F). Qed.

Lemma respects_gets {A : Type} (f : World -> A) : respects Q (gets f).
Proof. intros w. apply (frame_refl Q F). Qed.

Lemma respects_bind {A B : Type} (a : Async A) (f : A -> Async B) :
  respects Q a -> (forall x, respects Q (f x)) -> respects Q (bind a f).
Proof.
  intros Ha Hf w. rewrite run_bind. specialize (Ha w).
  destruct (run a w) as [w1 [x|e]]; simpl in *; auto.
  eapply (frame_trans Q F); [exact Ha|apply Hf].
Qed.

Lemma respects_try_catch {A : Type} (a : Async A) (h : Thrown -> Async A) :
  respects Q a -> (forall e, respects Q (h e)) -> respects Q (try_catch a h).
Proof.
  intros Ha Hh w. rewrite run_try_catch. specialize (Ha w).
  destruct (run a w) as [w1 [x|e]]; simpl in *; auto.
  eapply (frame_trans Q F); [exact Ha|apply Hh].
Qed.

Lemma respects_sleep ms : respects Q (sleep ms).
Proof.
  intros w. rewrite run_sleep. simpl.
  eapply (frame_trans Q F); [apply (frame_sleep Q F)|apply (frame_wait Q F)].
Qed.

Section Retry.
Context {T : Type}.
Variable operation : Async T.
Variable cfg : RetryConfig.
Hypothesis Hop : respects Q operation.

Lemma respects_attempt_once attempt :
  respects Q (attempt_once operation cfg attempt).
Proof.
  unfold attempt_once. apply respects_bind; [|intros; exact Hop].
  destruct (Nat.ltb 0 attempt); [apply respects_sleep|apply respects_ret].
Qed.

Lemma respects_attempts remaining : forall attempt lastError,
  respects Q (attempts operation cfg remaining attempt lastError).
Proof.
  induction remaining as [|n IH]; intros attempt lastError.
  - apply respects_throw.
  - cbn [attempts]. apply respects_try_catch;
      [apply respects_attempt_once|].
    intros e. destruct (negb _); [apply respects_throw|].
    destruct (Nat.eqb _ _); [apply respects_throw|apply IH].
Qed.

End Retry.

Section RetryInversion.
Context {T : Type}.
Variable operation : Async T.
Variable cfg : RetryConfig.
(** Only the calls that throw need to respect the relation. *)
Hypothesis Hfail : forall w w' e, run operation w = (w', Threw e) -> Q w w'.

(** When the loop returns a value, one call of the operation returned
    it, in a world the loop had reached. *)
Lemma attempts_returned_inv remaining : forall attempt lastError w w' x,
  run (attempts operation cfg remaining attempt lastError) w = (w', Returned x) ->
  exists wi, Q w wi /\ run operation wi = (w', Returned x).
Proof.
  induction remaining as [|n IH]; intros attempt lastError w w' x Hrun.
  - discriminate.
  - cbn [attempts] in Hrun. rewrite run_try_catch in Hrun.
    assert (Hs : Q w (fst (run (if Nat.ltb 0 attempt
                                 then sleep (delay_before cfg attempt)
                                 else Ret tt) w))).
    { destruct (Nat.ltb 0 attempt);
        [apply respects_sleep|apply (frame_refl Q F)]. }
    unfold attempt_once in Hrun. rewrite run_bind in Hrun.
    destruct (run (if Nat.ltb 0 attempt
                   then sleep (delay_before cfg attempt) else Ret tt) w)
      as [w0 [[]|e0]] eqn:E0.
    2:{ destruct (Nat.ltb 0 attempt); [rewrite run_sleep in E0|]; discriminate. }
    simpl in Hs.
    destruct (run operation w0) as [w1 [y|e]] eqn:E.
    + injection Hrun as -> ->. exists w0. split; [exact Hs|exact E].
    + destruct (negb _); [discriminate|].
      destruct (Nat.eqb _ _); [discriminate|].
      destruct (IH _ _ _ _ _ Hrun) as (wi & Hwi & Hop').
      exists wi. split; [|exact Hop'].
      eapply (frame_trans Q F); [exact Hs|].
      eapply (frame_trans Q F); [eapply Hfail; exact E|exact Hwi].
Qed.
End RetryInversion.

Lemma respects_withRetry {T : Type} (operation : Async T) config :
  respects Q operation -> respects Q (withRetry operation config).
Proof. intros Hop. unfold withRetry. apply respects_attempts. exact Hop. Qed.

End Respect.

(** The local tree is left as it is. *)
Definition keeps_tree (w w' : World) : Prop := tree w' = tree w.

(** The tracker is left as it is: its issues, and the calls of
    [updateIssue] it has received. *)
Definition keeps_tracker (w w' : World) : Prop :=
  issues w' = issues w /\ updates w' = updates w /\ workflow w' = workflow w.

(** The calls of [updateIssue] received are still there, with maybe more
    after them. *)
Definition log_grows (w w' : World) : Prop :=
  exists l, updates w' = (updates w ++ l)%list.

(** The clock does not go back. *)
Definition time_goes_on (w w' : World) : Prop := clock w <= clock w'.

Lemma keeps_tree_frame : Frame keeps_tree.
Proof. split; unfold keeps_tree; intros; simpl; congruence. Qed.

Lemma keeps_tracker_frame : Frame keeps_tracker.
Proof.
  split; unfold keeps_tracker; intros; simpl; intuition congruence.
Qed.

Lemma log_grows_frame : Frame log_grows.
Proof.
  split; unfold log_grows; intros; simpl.
  - exists []. rewrite app_nil_r. reflexivity.
  - destruct H as [l1 H1], H0 as [l2 H2]. exists (l1 ++ l2)%list.
    rewrite H2, H1, app_assoc. reflexivity.
  - exists []. rewrite app_nil_r. reflexivity.
  - exists []. rewrite app_nil_r. reflexivity.
Qed.

Lemma time_goes_on_frame : Frame time_goes_on.
Proof. split; unfold time_goes_on; intros; simpl; lia. Qed.

(** [getIssue] reads: it changes neither the tree nor the tracker. *)
Lemma getIssue_keeps_tree issueId :
  respects keeps_tree (LinearSyncClient.getIssue issueId).
Proof.
  apply (respects_withRetry _ keeps_tree_frame). intros w.
  rewrite run_request. destruct (net w (requests w)); [reflexivity|].
  case_find_issue; reflexivity.
Qed.

Lemma getIssue_keeps_tracker issueId :
  respects keeps_tracker (LinearSyncClient.getIssue issueId).
Proof.
  apply (respects_withRetry _ keeps_tracker_frame). intros w.
  rewrite run_request. unfold keeps_tracker.
  destruct (net w (requests w)); [simpl; auto|].
  case_find_issue; simpl; auto.
Qed.

(** [updateIssue] does not touch the tree. *)
Lemma updateIssue_keeps_tree issueId u :
  respects keeps_tree (LinearSyncClient.updateIssue issueId u).
Proof.
  apply (respects_withRetry _ keeps_tree_frame). intros w.
  rewrite run_request. destruct (net w (requests w)); [reflexivity|].
  case_find_issue; reflexivity.
Qed.

(** The request of [updateIssue]. *)
Definition update_request (issueId : string) (u : Linear.IssueUpdate) : Async unit :=
  request (fun w =>
    let w1 := log_update issueId u w in
    match LinearSyncClient.find_issue issueId (issues w1) with
    | Some _ =>
        (set_issues
           (map (fun i => if (String.eqb (Linear.id i) issueId
                              || String.eqb (Linear.identifier i) issueId)%bool
                          then LinearSyncClient.apply_update (workflow w1) u i
                          else i)
                (issues w1)) w1,
         Returned tt)
    | None => (w1, Threw (Err "Entity not found: Issue"))
    end).

Lemma updateIssue_unfold issueId u :
  LinearSyncClient.updateIssue issueId u
  = withRetry (update_request issueId u) empty_config.
Proof. reflexivity. Qed.

Lemma update_request_grows issueId u : respects log_grows (update_request issueId u).
Proof.
  intros w. unfold update_request. rewrite run_request.
  destruct (net w (requests w)).
  - exists []. simpl. rewrite app_nil_r. reflexivity.
  - exists [(issueId, u)].
    case_find_issue; reflexivity.
Qed.

Lemma update_request_returned issueId u w w' :
  run (update_request issueId u) w = (w', Returned tt) ->
  updates w' = (updates w ++ [(issueId, u)])%list.
Proof.
  unfold update_request. rewrite run_request.
  destruct (net w (requests w)); [discriminate|].
  case_find_issue; [|discriminate].
  intros H. injection H as <-. reflexivity.
Qed.

(** The issue is on the tracker. *)
Definition tracked (issueId : string) (w : World) : Prop :=
  LinearSyncClient.find_issue issueId (issues w) <> None.

(** As long as the issue is on the tracker, nothing about the tracker
    has changed. *)
Definition untouched_if_tracked (issueId : string) (w w' : World) : Prop :=
  tracked issueId w -> keeps_tracker w w'.

Lemma untouched_if_tracked_frame issueId : Frame (untouched_if_tracked issueId).
Proof.
  split; unfold untouched_if_tracked, tracked, keeps_tracker; intros; simpl; auto.
  destruct (H H1) as (Hi & Hu & Hw).
  destruct H0 as (Hi' & Hu' & Hw'); [rewrite Hi; exact H1|].
  repeat split; congruence.
Qed.

Lemma update_request_threw issueId u w w' e :
  run (update_request issueId u) w = (w', Threw e) ->
  untouched_if_tracked issueId w w'.
Proof.
  unfold update_request. rewrite run_request. intros Hrun Ht.
  destruct (net w (requests w)).
  - injection Hrun as <- _. unfold keeps_tracker. simpl. auto.
  - cbv zeta in Hrun. unfold tracked in Ht.
    change (issues (log_update issueId u (count_request w))) with (issues w)
      in Hrun.
    destruct (LinearSyncClient.find_issue issueId (issues w));
      [discriminate|congruence].
Qed.

(** A call of [updateIssue] for an issue that is on the tracker, when it
    returns, has reached the tracker exactly once. *)
Lemma updateIssue_returned issueId u w w' :
  tracked issueId w ->
  run (LinearSyncClient.updateIssue issueId u) w = (w', Returned tt) ->
  updates w' = (updates w ++ [(issueId, u)])%list.
Proof.
  rewrite updateIssue_unfold. unfold withRetry. intros Ht Hrun.
  destruct (attempts_returned_inv (untouched_if_tracked issueId)
              (untouched_if_tracked_frame issueId)
              (update_request issueId u) (merge empty_config)
              (update_request_threw issueId u) _ _ _ _ _ _ Hrun)
    as (wi & Hq & Hop).
  apply update_request_returned in Hop.
  destruct (Hq Ht) as (_ & Hu & _). rewrite Hop, Hu. reflexivity.
Qed.

(** The request of [getIssue]. *)
Definition get_request (issueId : string) : Async Linear.Issue :=
  request (fun w =>
    match LinearSyncClient.find_issue issueId (issues w) with
    | Some issue => (w, Returned issue)
    | None => (w, Threw (Err ("Issue " ++ issueId ++ " not found")))
    end).

(** The issue [getIssue] returns is the one the tracker has under that
    id. *)
Lemma getIssue_returned issueId w w' issue :
  run (LinearSyncClient.getIssue issueId) w = (w', Returned issue) ->
  LinearSyncClient.find_issue issueId (issues w) = Some issue.
Proof.
  change (LinearSyncClient.getIssue issueId)
    with (withRetry (get_request issueId) empty_config).
  unfold withRetry. intros Hrun.
  assert (Hfail : forall w w' e,
             run (get_request issueId) w = (w', Threw e) -> keeps_tracker w w').
  { intros v v' e Hv. unfold get_request in Hv. rewrite run_request in Hv.
    unfold keeps_tracker.
    destruct (net v (requests v)); [injection Hv as <- _; simpl; auto|].
    change (issues (count_request v)) with (issues v) in Hv.
    destruct (LinearSyncClient.find_issue issueId (issues v));
      [discriminate|]. injection Hv as <- _. simpl. auto. }
  destruct (attempts_returned_inv keeps_tracker keeps_tracker_frame
              (get_request issueId) (merge empty_config) Hfail
              _ _ _ _ _ _ Hrun)
    as (wi & (Hi & _) & Hop).
  unfold get_request in Hop. rewrite run_request in Hop.
  destruct (net wi (requests wi)); [discriminate|].
  change (issues (count_request wi)) with (issues wi) in Hop.
  rewrite Hi in Hop.
  destruct (LinearSyncClient.find_issue issueId (issues w));
    [|discriminate].
  injection Hop as _ ->. reflexivity.
Qed.

(** An issue the tracker has is found under its own internal id. *)
Lemma found_is_tracked issueId l issue :
  LinearSyncClient.find_issue issueId l = Some issue ->
  LinearSyncClient.find_issue (Linear.id issue) l <> None.
Proof.
  unfold LinearSyncClient.find_issue. intros Hf.
  apply find_some in Hf. destruct Hf as [Hin _].
  intros Hn. apply (find_none _ _ Hn) in Hin.
  rewrite String.eqb_refl in Hin. discriminate.
Qed.

End Frames.

(* ================================================================== *)
(** ** A reference platform and a small workspace *)
(* ================================================================== *)

(** An instance of [Platform] to run the engine on: ISO 8601 timestamps
    in the format [toISOString] prints, read with a [Z] or a [+hh:mm]
    zone; YAML printed the way js-yaml prints plain values, and read back
    by looking the text up among the documents of the workspace;
    gray-matter's split of a document at its [---] delimiters. *)
Module Reference.
Import Types.

(** Reads exactly [n] decimal digits. *)
Fixpoint read_digits (n : nat) (acc : Z) (s : string) : option (Z * string) :=
  match n with
  | O => Some (acc, s)
  | S n' =>
      match s with
      | String c s' =>
          if JsString.is_digit c
          then read_digits n' (10 * acc + Z.of_nat (JsString.code c - 48)) s'
          else None
      | EmptyString => None
      end
  end.

Definition expect (c : ascii) (s : string) : option string :=
  match s with
  | String c' s' => if Ascii.eqb c c' then Some s' else None
  | EmptyString => None
  end.

(** Days from 1970-01-01 to the civil date, and back. *)
Definition days_from_civil (y m d : Z) : Z :=
  let y' := if m <=? 2 then y - 1 else y in
  let era := y' / 400 in
  let yoe := y' - era * 400 in
  let mp := (m + 9) mod 12 in
  let doy := (153 * mp + 2) / 5 + d - 1 in
  let doe := yoe * 365 + yoe / 4 - yoe / 100 + doy in
  era * 146097 + doe - 719468.

Definition civil_from_days (days : Z) : Z * Z * Z :=
  let z := days + 719468 in
  let era := z / 146097 in
  let doe := z - era * 146097 in
  let yoe := (doe - doe / 1460 + doe / 36524 - doe / 146096) / 365 in
  let doy := doe - (365 * yoe + yoe / 4 - yoe / 100) in
  let mp := (5 * doy + 2) / 153 in
  let d := doy - (153 * mp + 2) / 5 + 1 in
  let m := if mp <? 10 then mp + 3 else mp - 9 in
  let y := yoe + era * 400 + (if m <=? 2 then 1 else 0) in
  (y, m, d).

Definition option_bind {A B : Type} (o : option A) (f : A -> option B) : option B :=
  match o with
  | Some x => f x
  | None => None
  end.

Definition zone_offset (s : string) : option Z :=
  match s with
  | "Z" => Some 0
  | String sign rest =>
      if (Ascii.eqb sign "+" || Ascii.eqb sign "-")%bool then
        option_bind (read_digits 2 0 rest) (fun '(hh, r1) =>
        option_bind (expect ":" r1) (fun r2 =>
        option_bind (read_digits 2 0 r2) (fun '(mm, r3) =>
        match r3 with
        | EmptyString =>
            let minutes := hh * 60 + mm in
            Some (if Ascii.eqb sign "+" then minutes else - minutes)
        | _ => None
        end)))
      else None
  | EmptyString => None
  end.

Definition parse_iso (s : string) : option Z :=
  option_bind (read_digits 4 0 s) (fun '(y, r) =>
  option_bind (expect "-" r) (fun r =>
  option_bind (read_digits 2 0 r) (fun '(m, r) =>
  option_bind (expect "-" r) (fun r =>
  option_bind (read_digits 2 0 r) (fun '(d, r) =>
  option_bind (expect "T" r) (fun r =>
  option_bind (read_digits 2 0 r) (fun '(hh, r) =>
  option_bind (expect ":" r) (fun r =>
  option_bind (read_digits 2 0 r) (fun '(mm, r) =>
  option_bind (expect ":" r) (fun r =>
  option_bind (read_digits 2 0 r) (fun '(ss, r) =>
  option_bind (expect "." r) (fun r =>
  option_bind (read_digits 3 0 r) (fun '(ms, r) =>
  option_bind (zone_offset r) (fun offset =>
  if ((1 <=? m) && (m <=? 12) && (1 <=? d) && (d <=? 31)
      && (hh <? 24) && (mm <? 60) && (ss <? 60))%bool
  then Some (((days_from_civil y m d * 24 + hh) * 60 + mm - offset) * 60000
             + ss * 1000 + ms)
  else None)))))))))))))).

Definition show_Z (z : Z) : string := show_nat (Z.to_nat z).

Definition pad (width : nat) (z : Z) : string :=
  let s := show_Z z in
  JsString.drop (String.length s)
    (JsString.take width "0000") ++ s.

Definition print_iso (t : Z) : string :=
  let days := t / 86400000 in
  let rest := t mod 86400000 in
  let '(y, m, d) := civil_from_days days in
  pad 4 y ++ "-" ++ pad 2 m ++ "-" ++ pad 2 d ++ "T"
  ++ pad 2 (rest / 3600000) ++ ":" ++ pad 2 (rest / 60000 mod 60) ++ ":"
  ++ pad 2 (rest / 1000 mod 60) ++ "." ++ pad 3 (rest mod 1000) ++ "Z".

(** js-yaml's print of a frontmatter whose strings need no quotes but the
    timestamps: keys sorted, absent keys left out. *)
Definition yaml_key (key value : string) : string := key ++ ": " ++ value ++ nl.

Definition yaml_quoted (key value : string) : string :=
  key ++ ": '" ++ value ++ "'" ++ nl.

Definition print_frontmatter (m : TicketMetadata) : string :=
  match assignee m with Some a => yaml_key "assignee" a | None => "" end
  ++ yaml_quoted "created_at" (created_at m)
  ++ match due_date m with Some d => yaml_quoted "due_date" d | None => "" end
  ++ match labels m with
     | LabelsAbsent => ""
     | LabelsArray [] => yaml_key "labels" "[]"
     | LabelsArray l =>
         "labels:" ++ nl ++ String.concat "" (map (fun x => "  - " ++ x ++ nl) l)
     | LabelsScalar s => yaml_key "labels" s
     end
  ++ yaml_key "linear_id" (linear_id m)
  ++ yaml_key "priority" (show_Z (priority m))
  ++ yaml_key "status" (status m)
  ++ yaml_key "title" (title m)
  ++ yaml_quoted "updated_at" (updated_at m)
  ++ yaml_key "url" (url m).

(** js-yaml's print of the comments, every string in double quotes. *)
Definition yaml_forced (key value : string) : string :=
  key ++ ": " ++ dquote ++ value ++ dquote ++ nl.

Definition print_comments (l : list Comment) : string :=
  String.concat ""
    (map (fun c =>
            "- " ++ yaml_forced "id" (comment_id c)
            ++ "  " ++ yaml_forced "author" (author c)
            ++ "  " ++ yaml_forced "content" (comment_content c)
            ++ "  " ++ yaml_forced "created_at" (comment_created_at c))
         l).

(** The index of the first occurrence of [pat], if any. *)
Fixpoint index_of (pat s : string) (i : nat) : option nat :=
  if JsString.startsWith s pat then Some i
  else match s with
       | String _ s' => index_of pat s' (S i)
       | EmptyString => None
       end.

Section Documents.
(** The frontmatters and comment lists the YAML reader knows. *)
Variable known : list TicketMetadata.
Variable known_comments : list (list Comment).

Definition load_frontmatter (block : string) : Outcome TicketMetadata :=
  match find (fun m => String.eqb (JsString.trim (print_frontmatter m))
                                  (JsString.trim block)) known with
  | Some m => Returned m
  | None => Threw (Err "bad indentation of a mapping entry")
  end.

Definition load_comments (text : string) : option (list Comment) :=
  find (fun l => String.eqb (JsString.trim (print_comments l)) text)
       known_comments.

(** The data of a document without frontmatter: every key absent. *)
Definition no_data : TicketMetadata :=
  {| linear_id := ""; title := ""; status := ""; assignee := None;
     labels := LabelsAbsent; priority := 0; due_date := None; url := "";
     created_at := ""; updated_at := "" |}.

(** gray-matter: a document that opens with [---] is split at the next
    line that starts with [---]; one line break after it is dropped. *)
Definition gray_matter (text : string) : Outcome (TicketMetadata * string) :=
  if (JsString.startsWith text "---"
      && negb (JsString.startsWith text "----"))%bool
  then
    let str := JsString.drop 3 text in
    match index_of (nl ++ "---") str 0 with
    | Some closeIndex =>
        let below := JsString.drop (closeIndex + 4) str in
        let below := match below with
                     | String c r => if Ascii.eqb c (ascii_of_nat 10) then r else below
                     | EmptyString => below
                     end in
        match load_frontmatter (JsString.take closeIndex str) with
        | Returned m => Returned (m, below)
        | Threw e => Threw e
        end
    | None =>
        match load_frontmatter str with
        | Returned m => Returned (m, "")
        | Threw e => Threw e
        end
    end
  else Returned (no_data, text).

Definition platform : Platform :=
  {| Date_parse := parse_iso;
     Date_toISOString := print_iso;
     yaml_dump_frontmatter := fun m => Returned (print_frontmatter m);
     yaml_dump_comments := fun l => Returned (print_comments l);
     yaml_load_comments := load_comments;
     matter := gray_matter |}.

End Documents.

Example iso_examples :
  parse_iso "2024-06-19T02:00:00.000Z" = Some 1718762400000
  /\ parse_iso "2024-06-19T10:00:00.000+08:00" = Some 1718762400000
  /\ print_iso 1718874900000 = "2024-06-20T09:15:00.000Z"
  /\ parse_iso "yesterday" = None
  /\ TimezoneUtils.utcToSGT (P := platform [] []) "2024-06-19T02:00:00.000Z"
     = Returned "2024-06-19T10:00:00.000+08:00".
Proof. repeat split; reflexivity. Qed.

End Reference.

(** A workspace with three status folders and two tickets, PAP-1 and
    PAP-2, both pulled on 2024-06-19 while they were in the state Todo. *)
Module Workspace.
Import Types.

Definition todo : Linear.WorkflowState :=
  {| Linear.state_id := "state-todo"; Linear.state_name := "Todo" |}.
Definition in_progress : Linear.WorkflowState :=
  {| Linear.state_id := "state-progress"; Linear.state_name := "In Progress" |}.
Definition done : Linear.WorkflowState :=
  {| Linear.state_id := "state-done"; Linear.state_name := "Done" |}.

Definition config : LinearSyncConfig :=
  {| teamId := "team-pap";
     projectId := "project-1";
     statusMapping :=
       [ ("Todo", {| id := "state-todo"; folder := "todo" |});
         ("In Progress", {| id := "state-progress"; folder := "in-progress" |});
         ("Done", {| id := "state-done"; folder := "done" |}) ] |}.

Definition ann : Linear.User :=
  {| Linear.user_name := Some "Ann"; Linear.user_email := Some "ann@example.com" |}.

(** An issue on the tracker, in the state [s]. *)
Definition issue (ident titleText body : string) (s : Linear.WorkflowState)
  : Linear.Issue :=
  {| Linear.id := "uuid-of-" ++ ident;
     Linear.identifier := ident;
     Linear.title := titleText;
     Linear.description := Some body;
     Linear.url := "https://linear.app/pap/issue/" ++ ident;
     Linear.priority := 2;
     Linear.createdAt := "2024-06-19T02:00:00.000Z";
     Linear.updatedAt := "2024-06-19T03:30:00.000Z";
     Linear.dueDate := None;
     Linear.labels := ["bug"];
     Linear.assignee := Some ann;
     Linear.parent := None;
     Linear.state := s;
     Linear.comments := [] |}.

Definition PAP1 (s : Linear.WorkflowState) : Linear.Issue :=
  issue "PAP-1" "Fix login" "Users cannot log in." s.

(** The frontmatter of a ticket as a pull writes it. *)
Definition metadata (ident statusName titleText : string) : TicketMetadata :=
  {| linear_id := ident;
     title := titleText;
     status := statusName;
     assignee := Some "ann@example.com";
     labels := LabelsArray ["bug"];
     priority := 2;
     due_date := None;
     url := "https://linear.app/pap/issue/" ++ ident;
     created_at := "2024-06-19T10:00:00.000+08:00";
     updated_at := "2024-06-19T11:30:00.000+08:00" |}.

Definition remark : Comment :=
  {| comment_id := "comment-1";
     author := "ann@example.com";
     comment_content := "Seen on staging too.";
     comment_created_at := "2024-06-19T11:00:00.000+08:00" |}.

Definition known : list TicketMetadata :=
  [ metadata "PAP-1" "Todo" "Fix login";
    metadata "PAP-1" "In Progress" "Fix login";
    metadata "PAP-1" "Done" "Fix login";
    metadata "PAP-1" "Todo" "";
    metadata "PAP-2" "Todo" "Add logout" ].

#[export] Instance platform : Platform := Reference.platform known [[remark]].

Definition ticket (ident statusName titleText body : string) : TicketFile :=
  {| frontmatter := metadata ident statusName titleText;
     content := body;
     comments := [] |}.

(** The text of a ticket file, as [generateFile] writes it. *)
Definition text_of (t : TicketFile) : string :=
  match TicketFileParser.generateFile t with
  | Returned text => text
  | Threw _ => ""
  end.

Definition file_of (t : TicketFile) (modified : Z) : FileEntry :=
  {| bytes := text_of t; mtime := modified |}.

(** 2024-06-19T03:30:00.000Z, when the tickets were pulled, and the next
    morning. *)
Definition pulled_at : Z := 1718767800000.
Definition next_morning : Z := 1718874900000.

Definition pulled1 : TicketFile := ticket "PAP-1" "Todo" "Fix login" "Users cannot log in.".

Definition name1 : string := "PAP-1-fix-login.md".

(** A world with the given tree and issues; the network is up. *)
Definition world_with (t : list (string * Folder)) (l : list Linear.Issue) : World :=
  {| tree := t;
     issues := l;
     workflow := [todo; in_progress; done];
     net := fun _ => None;
     requests := 0;
     updates := [];
     slept := [];
     clock := next_morning |}.

Example pulled_text :
  text_of pulled1
  = "---" ++ nl
    ++ "assignee: ann@example.com" ++ nl
    ++ "created_at: '2024-06-19T10:00:00.000+08:00'" ++ nl
    ++ "labels:" ++ nl
    ++ "  - bug" ++ nl
    ++ "linear_id: PAP-1" ++ nl
    ++ "priority: 2" ++ nl
    ++ "status: Todo" ++ nl
    ++ "title: Fix login" ++ nl
    ++ "updated_at: '2024-06-19T11:30:00.000+08:00'" ++ nl
    ++ "url: https://linear.app/pap/issue/PAP-1" ++ nl
    ++ "---" ++ nl ++ nl
    ++ "Users cannot log in.".
Proof. reflexivity. Qed.

Example pulled_parses :
  TicketFileParser.parseFile (text_of pulled1) = Returned pulled1
  /\ TicketFileParser.validateFile (text_of pulled1) = [].
Proof. split; reflexivity. Qed.

End Workspace.

(* ================================================================== *)
(** ** The webhook endpoint *)
(* ================================================================== *)

Module WebhookResponse.
Import SyncDaemon.

(** A notification the handler acts on: it names a ticket and its action
    is one of update, create and remove. *)
Definition recognised (body : WebhookBody) : bool :=
  match ticketIdOf body with
  | Some _ =>
      (equals (action body) "update" || equals (action body) "create"
       || equals (action body) "remove")%bool
  | None => false
  end.

Definition status_of (r : Outcome unit) : nat :=
  match r with
  | Returned _ => 200%nat
  | Threw _ => 500%nat
  end.

Lemma run_swallow (a : Async unit) (w : World) :
  exists w', run (try_catch a (fun _ => Ret tt)) w = (w', Returned tt).
Proof.
  rewrite run_try_catch. destruct (run a w) as [w' [[]|e]]; simpl; eauto.
Qed.

Section Handler.
Context {P : Platform}.
Variable config : Types.LinearSyncConfig.
Variable slackService : WebhookBody -> Async unit.

Lemma webhook_status body w :
  run (webhook config slackService body) w
  = (fst (run (dispatch config slackService body) w),
     Returned (status_of (snd (run (dispatch config slackService body) w)))).
Proof.
  unfold webhook. rewrite run_try_catch, run_bind.
  destruct (run (dispatch config slackService body) w) as [w' [[]|e]];
    reflexivity.
Qed.

Lemma dispatch_unrecognised body w :
  recognised body = false ->
  run (dispatch config slackService body) w = (w, Returned tt).
Proof.
  unfold recognised, dispatch. destruct (ticketIdOf body); [|reflexivity].
  intros Hr. apply orb_false_iff in Hr. destruct Hr as [Hr Hrm].
  rewrite Hr, Hrm. reflexivity.
Qed.

(** The operation [handleTicketDeletion] retries never throws: both its
    steps catch what they meet. *)
Lemma deletion_returns ticketId body w :
  exists w',
    run (removeLocalTicketFile config ticketId ;;
         sendDeletionNotification slackService body) w = (w', Returned tt).
Proof.
  rewrite run_bind. unfold removeLocalTicketFile.
  match goal with
  | |- context [run (try_catch ?a _) w] =>
      destruct (run_swallow a w) as [w1 H1]
  end.
  rewrite H1. unfold sendDeletionNotification. apply run_swallow.
Qed.

Lemma dispatch_remove ticketId body w :
  ticketIdOf body = Some ticketId ->
  equals (action body) "remove" = true ->
  exists w', run (dispatch config slackService body) w = (w', Returned tt).
Proof.
  intros Ht Ha. unfold dispatch. rewrite Ht.
  assert (Hu : equals (action body) "update" = false).
  { unfold equals in *. destruct (action body) as [a|]; [|reflexivity].
    apply String.eqb_eq in Ha. subst a. reflexivity. }
  assert (Hc : equals (action body) "create" = false).
  { unfold equals in *. destruct (action body) as [a|]; [|reflexivity].
    apply String.eqb_eq in Ha. subst a. reflexivity. }
  rewrite Hu, Hc, Ha. cbn [orb].
  unfold handleTicketDeletion.
  destruct (deletion_returns ticketId body w) as [w' Hd].
  exists w'. apply RetryFacts.withRetry_returned. exact Hd.
Qed.

End Handler.

(** The processing [syncTicket] retries: the pull, then the Slack
    notification. *)
Definition processing {P : Platform} (config : Types.LinearSyncConfig)
    (slackService : WebhookBody -> Async unit)
    (ticketId : string) (body : WebhookBody) : Async unit :=
  Sync.pullSingleTicket config ticketId ;;
  sendSlackNotification slackService ticketId body.

(** The world when the handler calls [syncTicket]: for a created comment
    it has slept 2000 ms first. *)
Definition at_sync (body : WebhookBody) (w : World) : World :=
  if (equals (action body) "create" && equals (type body) "Comment")%bool
  then wait_until (clock w + 2000) (log_sleep (Some 2000) w)
  else w.

(** C7, as the handler is written: a notification of a shape the handler
    does not recognise is answered 200 and nothing is done; a removal is
    answered 200; the processing of an update or a creation is retried
    inside the handler, which answers when it has ended: after attempts
    that threw retryable errors (none, one or two), 200 when the next
    attempt returns, and 500 when it throws an error that is not
    retryable or when it was the third attempt. *)
Theorem C7_webhook_retries_and_answers_500_when_processing_still_throws :
  forall (P : Platform) (config : Types.LinearSyncConfig)
         (slackService : WebhookBody -> Async unit)
         (body : WebhookBody) (w : World),
    (recognised body = false ->
       run (webhook config slackService body) w = (w, Returned 200%nat))
    /\ (equals (action body) "remove" = true ->
          snd (run (webhook config slackService body) w) = Returned 200%nat)
    /\ (forall (ticketId : string) (k : nat) (wk w1 : World) (r : Outcome unit),
          ticketIdOf body = Some ticketId ->
          (equals (action body) "update" || equals (action body) "create")%bool
          = true ->
          (k < 3)%nat ->
          RetryFacts.after_retryable
            (processing config slackService ticketId body)
            RetryManager.DEFAULT_CONFIG k 0 (at_sync body w) = Some wk ->
          run (RetryManager.attempt_once
                 (processing config slackService ticketId body)
                 RetryManager.DEFAULT_CONFIG k) wk = (w1, r) ->
          match r with
          | Returned _ =>
              run (webhook config slackService body) w = (w1, Returned 200%nat)
          | Threw e =>
              RetryManager.isRetryableError (RetryManager.as_error e) = false
              \/ k = 2%nat ->
              run (webhook config slackService body) w = (w1, Returned 500%nat)
          end).
Proof.
  intros P config slackService body w. split; [|split].
  - intros Hr. rewrite webhook_status, dispatch_unrecognised by assumption.
    reflexivity.
  - intros Ha. rewrite webhook_status. simpl.
    destruct (ticketIdOf body) as [ticketId|] eqn:Ht.
    + destruct (dispatch_remove config slackService ticketId body w Ht Ha)
        as [w' Hd].
      rewrite Hd. reflexivity.
    + rewrite dispatch_unrecognised; [reflexivity|].
      unfold recognised. rewrite Ht. reflexivity.
  - intros ticketId k wk w1 r Ht Ha Hk Hfailed Hrun.
    assert (Hd : run (dispatch config slackService body) w
                 = run (syncTicket config slackService ticketId body)
                       (at_sync body w)).
    { unfold dispatch, at_sync. rewrite Ht, Ha, run_bind.
      destruct (equals (action body) "create" && equals (type body) "Comment")%bool;
        [rewrite run_sleep|]; reflexivity. }
    rewrite webhook_status, Hd.
    destruct (RetryFacts.withRetry_after_retryable
                (processing config slackService ticketId body)
                RetryManager.empty_config k (at_sync body w) wk Hk Hfailed w1)
      as [Hret Hthrow].
    change (RetryManager.withRetry (processing config slackService ticketId body)
              RetryManager.empty_config)
      with (syncTicket config slackService ticketId body) in Hret, Hthrow.
    destruct r as [[]|e].
    + rewrite (Hret tt Hrun). reflexivity.
    + intros Hend. rewrite (Hthrow e Hrun); [reflexivity|].
      destruct Hend as [Hf| ->]; [left; exact Hf|right; reflexivity].
Qed.

(** A notification that PAP-1 was updated, and one of no known shape. *)
Definition updated_PAP1 : WebhookBody :=
  {| action := Some "update"; type := Some "Issue";
     data := Some {| identifier := Some "PAP-1"; issue_identifier := None |} |}.

Definition ping_body : WebhookBody :=
  {| action := Some "ping"; type := None; data := None |}.

Definition no_slack : WebhookBody -> Async unit := fun _ => Ret tt.

(** PAP-1 lies in [todo/] and has been moved to Done on the tracker; the
    first three requests time out, then the network is back. *)
Definition flaky : World :=
  {| tree := [("todo", [(Workspace.name1,
                         Workspace.file_of Workspace.pulled1 Workspace.pulled_at)]);
              ("in-progress", []); ("done", [])];
     issues := [Workspace.PAP1 Workspace.done];
     workflow := [Workspace.todo; Workspace.in_progress; Workspace.done];
     net := fun n => if Nat.ltb n 3 then Some "Network timeout" else None;
     requests := 0; updates := []; slept := [];
     clock := Workspace.next_morning |}.

(** The first attempt of the processing: the pull gives up after three
    requests. *)
Definition first_attempt_failed : World :=
  fst (run (RetryManager.attempt_once
              (processing (P := Workspace.platform) Workspace.config no_slack
                          "PAP-1" updated_PAP1)
              RetryManager.DEFAULT_CONFIG 0) flaky).

Definition second_attempt_done : World :=
  fst (run (RetryManager.attempt_once
              (processing (P := Workspace.platform) Workspace.config no_slack
                          "PAP-1" updated_PAP1)
              RetryManager.DEFAULT_CONFIG 1) first_attempt_failed).

Lemma C7_witness :
  run (webhook (P := Workspace.platform) Workspace.config no_slack updated_PAP1)
      flaky
  = (second_attempt_done, Returned 200%nat)
  /\ requests second_attempt_done = 5%nat
  /\ slept second_attempt_done = [Some 120000; Some 30000; Some 120000]
  /\ Fs.lookup ("todo", Workspace.name1) (tree second_attempt_done) = None
  /\ Fs.lookup ("done", Workspace.name1) (tree second_attempt_done) <> None.
Proof.
  split.
  - apply (proj2 (proj2
             (C7_webhook_retries_and_answers_500_when_processing_still_throws
                Workspace.platform Workspace.config no_slack updated_PAP1 flaky))
             "PAP-1" 1%nat first_attempt_failed second_attempt_done (Returned tt)).
    + reflexivity.
    + reflexivity.
    + lia.
    + vm_compute. reflexivity.
    + vm_compute. reflexivity.
  - vm_compute. repeat split; discriminate.
Defined.

(** C7 as stated fails: the network is down, so every fetch of the
    issue fails with a timeout, a transient error. The handler retries
    (three calls of the pull, each of three requests) and then answers
    500, although no error was fatal. *)
Lemma C7_counterexample_retry_exhaustion_answers_500 :
  let (w', r) := run (webhook (P := Workspace.platform) Workspace.config
                              no_slack updated_PAP1)
                     RetryExhaustion.network_down in
  r = Returned 500%nat
  /\ requests w' = 9%nat
  /\ RetryClassification.classify "Network timeout"
     = RetryClassification.Transient.
Proof. vm_compute. repeat split; reflexivity. Qed.

End WebhookResponse.

(* ================================================================== *)
(** ** Push all: the timestamp gate *)
(* ================================================================== *)

Module TimestampGate.
Import Types Sync.

(** How the loop of [pushAllTickets] counts a call of
    [pushSingleTicket]. *)
Definition verdict_of (r : Outcome unit) : Verdict :=
  match r with
  | Returned _ => Pushed
  | Threw _ => Errored
  end.

Section Gate.
Context {P : Platform}.
Variable config : LinearSyncConfig.

(** One file that reads and parses: [pushSingleTicket] is called when
    the file's modification time is strictly later than the [updated_at]
    of its frontmatter, and only then. *)
Lemma pushIfModified_gate p w f ticket :
  Fs.lookup p (tree w) = Some f ->
  TicketFileParser.parseFile (bytes f) = Returned ticket ->
  run (pushIfModified config p) w
  = if date_gt (Some (mtime f)) (Date_parse (updated_at (frontmatter ticket)))
    then (fst (run (pushSingleTicket config (linear_id (frontmatter ticket))) w),
          Returned (verdict_of
                      (snd (run (pushSingleTicket config
                                   (linear_id (frontmatter ticket))) w))))
    else (w, Returned Skipped).
Proof.
  intros Hf Hp. unfold pushIfModified.
  rewrite run_try_catch, run_bind, (run_readFileSync p w f Hf).
  rewrite run_bind, run_lift, Hp, run_bind, (run_statSync_mtime p w f Hf).
  destruct (date_gt _ _); [|reflexivity].
  rewrite run_bind.
  destruct (run (pushSingleTicket config (linear_id (frontmatter ticket))) w)
    as [w' [[]|e]]; reflexivity.
Qed.

Lemma pushIfModified_skips p w f ticket u :
  Fs.lookup p (tree w) = Some f ->
  TicketFileParser.parseFile (bytes f) = Returned ticket ->
  Date_parse (updated_at (frontmatter ticket)) = Some u ->
  mtime f <= u ->
  run (pushIfModified config p) w = (w, Returned Skipped).
Proof.
  intros Hf Hp Hu Hle. rewrite (pushIfModified_gate p w f ticket Hf Hp), Hu.
  unfold date_gt. destruct (u <? mtime f) eqn:E; [|reflexivity].
  apply Z.ltb_lt in E. lia.
Qed.

Lemma pushIfModified_pushes p w f ticket u :
  Fs.lookup p (tree w) = Some f ->
  TicketFileParser.parseFile (bytes f) = Returned ticket ->
  Date_parse (updated_at (frontmatter ticket)) = Some u ->
  u < mtime f ->
  run (pushIfModified config p) w
  = (fst (run (pushSingleTicket config (linear_id (frontmatter ticket))) w),
     Returned (verdict_of
                 (snd (run (pushSingleTicket config
                              (linear_id (frontmatter ticket))) w)))).
Proof.
  intros Hf Hp Hu Hlt. rewrite (pushIfModified_gate p w f ticket Hf Hp), Hu.
  unfold date_gt. apply Z.ltb_lt in Hlt. rewrite Hlt. reflexivity.
Qed.

End Gate.

Definition tally (a b c : nat) : Tally :=
  {| pushed := a; skipped := b; errors := c |}.

Import Workspace.


End TimestampGate.

(* ================================================================== *)
(** ** Push of one ticket *)
(* ================================================================== *)

Lemma assoc_set_same {A : Type} (k : string) (v : A) (l : list (string * A)) :
  Fs.assoc k (Fs.assoc_set k v l) = Some v.
Proof.
  induction l as [|[k' v'] l IH]; simpl.
  - rewrite String.eqb_refl. reflexivity.
  - destruct (String.eqb k' k) eqn:E; simpl; rewrite E; auto.
Qed.

Lemma assoc_set_other {A : Type} (k k0 : string) (v : A) (l : list (string * A)) :
  k0 <> k -> Fs.assoc k0 (Fs.assoc_set k v l) = Fs.assoc k0 l.
Proof.
  intros Hne. induction l as [|[k' v'] l IH]; simpl.
  - destruct (String.eqb k k0) eqn:E; [|reflexivity].
    apply String.eqb_eq in E. congruence.
  - destruct (String.eqb k' k) eqn:E; simpl.
    + apply String.eqb_eq in E. subst k'.
      destruct (String.eqb k k0) eqn:E0; [|reflexivity].
      apply String.eqb_eq in E0. congruence.
    + destruct (String.eqb k' k0); auto.
Qed.

Module PushDiff.
Import Types Sync Frames.

Section Push.
Context {P : Platform}.
Variable config : LinearSyncConfig.

(** [pushSingleTicket] gets as far as the comparison with the issue: the
    file of the ticket is found, reads, parses and validates, and its
    folder stands for a state. *)
Definition located (w : World) (ticketId : string) (filePath : Fs.Path)
    (f : FileEntry) (ticket : TicketFile) (newStateId : string) : Prop :=
  find_in_tree ticketId (tree w) = Some filePath
  /\ Fs.lookup filePath (tree w) = Some f
  /\ TicketFileParser.parseFile (bytes f) = Returned ticket
  /\ TicketFileParser.validateFile (bytes f) = []
  /\ findStateIdForFolder (fst filePath) config = Some newStateId
  /\ truthy newStateId = true.

Lemma push_located w ticketId filePath f ticket newStateId :
  located w ticketId filePath f ticket newStateId ->
  run (pushSingleTicket config ticketId) w
  = run (pushChanges filePath ticket newStateId) w.
Proof.
  intros (Hfind & Hf & Hp & Hv & Hs & Ht). unfold pushSingleTicket.
  rewrite run_bind. unfold findTicketFile. rewrite run_gets, Hfind.
  rewrite run_bind, (run_readFileSync _ _ _ Hf), run_bind, run_lift, Hp, Hv.
  cbv zeta. rewrite Hs, Ht. reflexivity.
Qed.

(** Otherwise it throws before it has done anything. *)
Lemma push_stops_or_located w ticketId :
  (exists e, run (pushSingleTicket config ticketId) w = (w, Threw e))
  \/ (exists filePath f ticket newStateId,
        located w ticketId filePath f ticket newStateId).
Proof.
  unfold pushSingleTicket, located. rewrite run_bind.
  unfold findTicketFile. rewrite run_gets.
  destruct (find_in_tree ticketId (tree w)) as [filePath|] eqn:Hfind;
    [|left; eexists; reflexivity].
  rewrite run_bind. unfold Fs.readFileSync. cbn [run].
  destruct (Fs.lookup filePath (tree w)) as [f|] eqn:Hf;
    [|left; eexists; reflexivity].
  cbn [run]. rewrite run_bind, run_lift.
  destruct (TicketFileParser.parseFile (bytes f)) as [ticket|e] eqn:Hp;
    [|left; eexists; reflexivity].
  destruct (TicketFileParser.validateFile (bytes f)) eqn:Hv;
    [|left; eexists; reflexivity].
  cbv zeta.
  destruct (findStateIdForFolder (fst filePath) config) as [sid|] eqn:Hs;
    [|left; eexists; reflexivity].
  destruct (truthy sid) eqn:Ht; [|left; eexists; reflexivity].
  right. exists filePath, f, ticket, sid. repeat split; assumption.
Qed.

(** A file that validates has a body. *)
Lemma validated_content text ticket :
  TicketFileParser.parseFile text = Returned ticket ->
  TicketFileParser.validateFile text = [] ->
  truthy (content ticket) = true.
Proof.
  unfold TicketFileParser.validateFile. intros Hp. rewrite Hp. intros Hv.
  apply app_eq_nil in Hv. destruct Hv as [_ Hv].
  apply app_eq_nil in Hv. destruct Hv as [Hv _].
  unfold TicketFileParser.check in Hv.
  destruct (truthy (JsString.trim (content ticket))) eqn:E; [|discriminate].
  unfold truthy in *. destruct (content ticket); [discriminate|reflexivity].
Qed.

Lemma run_writeFileSync p text w files :
  Fs.assoc (fst p) (tree w) = Some files ->
  run (Fs.writeFileSync p text) w
  = (set_tree (Fs.assoc_set (fst p)
                 (Fs.assoc_set (snd p) {| bytes := text; mtime := clock w |} files)
                 (tree w)) w,
     Returned tt).
Proof. intros H. unfold Fs.writeFileSync. cbn [run]. rewrite H. reflexivity. Qed.

Lemma writeFileSync_keeps_tracker p text :
  respects keeps_tracker (Fs.writeFileSync p text).
Proof.
  intros w. unfold Fs.writeFileSync, keeps_tracker. cbn [run].
  destruct (Fs.assoc (fst p) (tree w)); simpl; auto.
Qed.

Lemma refreshLocalFile_keeps_tracker filePath ticket :
  respects keeps_tracker (refreshLocalFile filePath ticket).
Proof.
  unfold refreshLocalFile.
  apply (respects_bind _ keeps_tracker_frame);
    [apply (respects_gets _ keeps_tracker_frame)|intros time].
  apply (respects_bind _ keeps_tracker_frame);
    [apply (respects_lift _ keeps_tracker_frame)|intros now].
  apply (respects_bind _ keeps_tracker_frame);
    [apply (respects_lift _ keeps_tracker_frame)|intros text].
  apply writeFileSync_keeps_tracker.
Qed.

(** The refresh of a file that is there, when the clock prints and the
    ticket generates. *)
Lemma run_refreshLocalFile filePath ticket w f now text :
  Fs.lookup filePath (tree w) = Some f ->
  TimezoneUtils.now (clock w) = Returned now ->
  TicketFileParser.generateFile
    {| frontmatter := set_updated_at now (frontmatter ticket);
       content := content ticket;
       comments := comments ticket |} = Returned text ->
  exists w',
    run (refreshLocalFile filePath ticket) w = (w', Returned tt)
    /\ Fs.lookup filePath (tree w') = Some {| bytes := text; mtime := clock w |}
    /\ updates w' = updates w.
Proof.
  intros Hf Hnow Hgen. unfold refreshLocalFile.
  rewrite run_bind, run_gets, run_bind, run_lift, Hnow, run_bind, run_lift, Hgen.
  unfold Fs.lookup in Hf.
  destruct (Fs.assoc (fst filePath) (tree w)) as [files|] eqn:Hd; [|discriminate].
  rewrite (run_writeFileSync _ _ _ _ Hd). eexists. split; [reflexivity|].
  split; [|reflexivity].
  unfold Fs.lookup. simpl. rewrite assoc_set_same, assoc_set_same. reflexivity.
Qed.

End Push.
End PushDiff.

Module PushClaims.
Import Types Sync Frames PushDiff.

Lemma keys_zero u :
  Linear.keys u = 0%nat
  <-> Linear.upd_stateId u = None /\ Linear.upd_title u = None
      /\ Linear.upd_description u = None.
Proof.
  unfold Linear.keys, Linear.has_key.
  destruct (Linear.upd_stateId u), (Linear.upd_title u),
    (Linear.upd_description u); simpl; intuition (try discriminate; try lia).
Qed.

Section Updates.
Variable filePath : Fs.Path.
Variable ticket : TicketFile.
Variable newStateId : string.
Variable issue : Linear.Issue.
Let u := buildUpdates filePath ticket newStateId issue.

Lemma stateId_unchanged :
  Linear.upd_stateId u = None
  <-> Linear.state_id (Linear.state issue) = newStateId.
Proof.
  subst u. unfold buildUpdates. simpl.
  destruct (String.eqb_spec (Linear.state_id (Linear.state issue)) newStateId);
    simpl; intuition (try discriminate; auto).
Qed.

Lemma stateId_sent x : Linear.upd_stateId u = Some x -> x = newStateId.
Proof.
  subst u. unfold buildUpdates. simpl.
  destruct (String.eqb _ _); simpl; congruence.
Qed.

Lemma title_unchanged :
  Linear.upd_title u = None
  <-> newTitle filePath ticket = None
      \/ newTitle filePath ticket = Some (Linear.title issue).
Proof.
  subst u. unfold buildUpdates. simpl.
  destruct (newTitle filePath ticket) as [t|]; [|intuition].
  destruct (String.eqb_spec (Linear.title issue) t); simpl.
  - subst t. intuition.
  - split; [discriminate|]. intros [H|H]; [discriminate|congruence].
Qed.

Lemma title_sent x : Linear.upd_title u = Some x -> newTitle filePath ticket = Some x.
Proof.
  subst u. unfold buildUpdates. simpl.
  destruct (newTitle filePath ticket) as [t|]; [|discriminate].
  destruct (String.eqb _ _); simpl; congruence.
Qed.

Lemma description_unchanged :
  truthy (content ticket) = true ->
  (Linear.upd_description u = None
   <-> Linear.description issue = Some (content ticket)).
Proof.
  intros Ht. subst u. unfold buildUpdates, differs. simpl. rewrite Ht. simpl.
  destruct (Linear.description issue) as [d|]; [|split; discriminate].
  destruct (String.eqb_spec d (content ticket)); simpl.
  - subst d. intuition.
  - split; [discriminate|congruence].
Qed.

Lemma description_sent x : Linear.upd_description u = Some x -> x = content ticket.
Proof.
  subst u. unfold buildUpdates. simpl.
  destruct (_ && _)%bool; congruence.
Qed.
End Updates.

Section AfterFetch.
Context {P : Platform}.
Variable config : LinearSyncConfig.

(** What [pushSingleTicket] does once the issue is fetched, and what the
    fetch has left as it was. *)
Lemma push_after_fetch w ticketId filePath f ticket newStateId w1 issue :
  located config w ticketId filePath f ticket newStateId ->
  run (LinearSyncClient.getIssue (linear_id (frontmatter ticket))) w
  = (w1, Returned issue) ->
  run (pushSingleTicket config ticketId) w
  = (if Nat.ltb 0 (Linear.keys (buildUpdates filePath ticket newStateId issue))
     then run (LinearSyncClient.updateIssue (Linear.id issue)
                 (buildUpdates filePath ticket newStateId issue) ;;
               refreshLocalFile filePath ticket) w1
     else (w1, Returned tt))
  /\ tree w1 = tree w
  /\ updates w1 = updates w
  /\ tracked (Linear.id issue) w1.
Proof.
  intros Hloc Hget.
  pose proof (getIssue_keeps_tree (linear_id (frontmatter ticket)) w) as Htree.
  pose proof (getIssue_keeps_tracker (linear_id (frontmatter ticket)) w)
    as (Hissues & Hupd & _).
  rewrite Hget in Htree, Hissues, Hupd. simpl in Htree, Hissues, Hupd.
  split; [|split; [exact Htree|split; [exact Hupd|]]].
  - rewrite (push_located config _ _ _ _ _ _ Hloc). unfold pushChanges.
    rewrite run_bind, Hget. cbv zeta.
    destruct (Nat.ltb 0 _); reflexivity.
  - unfold tracked. rewrite Hissues.
    eapply found_is_tracked. eapply getIssue_returned. exact Hget.
Qed.
End AfterFetch.

(** C4, as [pushSingleTicket] compares: the local title is the one of
    the frontmatter or, when that is empty, the one read off the file
    name, and a file that has neither is not compared on its title. The
    update carries exactly the fields that differ, with the local
    values. When none differs the tracker receives no update and the
    tree is left as it is. When one differs and the one call of
    [updateIssue] returns, the tracker has received exactly that update,
    and the file is written again with [updated_at] set to now. *)
Theorem C4_push_sends_the_changed_fields_once_and_refreshes_updated_at :
  forall (P : Platform) (config : LinearSyncConfig) (w : World)
         (ticketId : string) (filePath : Fs.Path) (f : FileEntry)
         (ticket : TicketFile) (newStateId : string)
         (w1 : World) (issue : Linear.Issue),
    located config w ticketId filePath f ticket newStateId ->
    run (LinearSyncClient.getIssue (linear_id (frontmatter ticket))) w
    = (w1, Returned issue) ->
    let u := buildUpdates filePath ticket newStateId issue in
    (Linear.upd_stateId u = None
     <-> Linear.state_id (Linear.state issue) = newStateId)
    /\ (forall x, Linear.upd_stateId u = Some x -> x = newStateId)
    /\ (Linear.upd_title u = None
        <-> newTitle filePath ticket = None
            \/ newTitle filePath ticket = Some (Linear.title issue))
    /\ (forall x, Linear.upd_title u = Some x -> newTitle filePath ticket = Some x)
    /\ (Linear.upd_description u = None
        <-> Linear.description issue = Some (content ticket))
    /\ (forall x, Linear.upd_description u = Some x -> x = content ticket)
    /\ (Linear.keys u = 0%nat ->
        run (pushSingleTicket config ticketId) w = (w1, Returned tt)
        /\ updates w1 = updates w
        /\ tree w1 = tree w)
    /\ ((0 < Linear.keys u)%nat ->
        forall (w2 : World) (now text : string),
          run (LinearSyncClient.updateIssue (Linear.id issue) u) w1
          = (w2, Returned tt) ->
          TimezoneUtils.now (clock w2) = Returned now ->
          TicketFileParser.generateFile
            {| frontmatter := set_updated_at now (frontmatter ticket);
               content := content ticket;
               comments := comments ticket |} = Returned text ->
          exists w3,
            run (pushSingleTicket config ticketId) w = (w3, Returned tt)
            /\ updates w3 = (updates w ++ [(Linear.id issue, u)])%list
            /\ Fs.lookup filePath (tree w3)
               = Some {| bytes := text; mtime := clock w2 |}).
Proof.
  intros P config w ticketId filePath f ticket newStateId w1 issue Hloc Hget u.
  pose proof Hloc as (_ & Hf & Hp & Hv & _ & _).
  pose proof (validated_content _ _ Hp Hv) as Hbody.
  destruct (push_after_fetch config _ _ _ _ _ _ _ _ Hloc Hget)
    as (Hrun & Htree & Hupd & Htracked).
  fold u in Hrun.
  split; [apply stateId_unchanged|].
  split; [apply stateId_sent|].
  split; [apply title_unchanged|].
  split; [apply title_sent|].
  split; [apply description_unchanged; exact Hbody|].
  split; [apply description_sent|].
  split.
  - intros Hk. rewrite Hrun, Hk. auto.
  - intros Hk w2 now text Hu Hnow Hgen.
    apply Nat.ltb_lt in Hk. rewrite Hrun, Hk, run_bind, Hu.
    pose proof (updateIssue_keeps_tree (Linear.id issue) u w1) as Ht2.
    rewrite Hu in Ht2. unfold keeps_tree in Ht2. simpl in Ht2.
    assert (Hf2 : Fs.lookup filePath (tree w2) = Some f) by congruence.
    destruct (run_refreshLocalFile filePath ticket w2 f now text Hf2 Hnow Hgen)
      as (w3 & Hr & Hl & Hu3).
    exists w3. split; [exact Hr|]. split; [|exact Hl].
    rewrite Hu3, (updateIssue_returned (Linear.id issue) u w1 w2 Htracked Hu).
    rewrite Hupd. reflexivity.
Qed.

(** C10: when no field differs, [pushSingleTicket] returns with the tree
    as it found it, the file of the ticket included; and whatever a push
    does, it leaves the tree as it is unless the tracker has received an
    update. *)
Theorem C10_push_without_update_leaves_the_file_unwritten :
  forall (P : Platform) (config : LinearSyncConfig) (w : World)
         (ticketId : string),
    (forall (filePath : Fs.Path) (f : FileEntry) (ticket : TicketFile)
            (newStateId : string) (w1 : World) (issue : Linear.Issue),
        located config w ticketId filePath f ticket newStateId ->
        run (LinearSyncClient.getIssue (linear_id (frontmatter ticket))) w
        = (w1, Returned issue) ->
        Linear.keys (buildUpdates filePath ticket newStateId issue) = 0%nat ->
        run (pushSingleTicket config ticketId) w = (w1, Returned tt)
        /\ tree w1 = tree w
        /\ Fs.lookup filePath (tree w1) = Some f)
    /\ (updates (fst (run (pushSingleTicket config ticketId) w)) = updates w ->
        tree (fst (run (pushSingleTicket config ticketId) w)) = tree w).
Proof.
  intros P config w ticketId. split.
  - intros filePath f ticket newStateId w1 issue Hloc Hget Hk.
    destruct (push_after_fetch config _ _ _ _ _ _ _ _ Hloc Hget)
      as (Hrun & Htree & _ & _).
    rewrite Hk in Hrun. destruct Hloc as (_ & Hf & _).
    rewrite Htree. auto.
  - destruct (push_stops_or_located config w ticketId)
      as [[e He]|(filePath & f & ticket & sid & Hloc)].
    + rewrite He. reflexivity.
    + pose proof (getIssue_keeps_tree (linear_id (frontmatter ticket)) w) as Ht1.
      destruct (run (LinearSyncClient.getIssue (linear_id (frontmatter ticket))) w)
        as [w1 [issue|e]] eqn:Hget; simpl in Ht1.
      2:{ rewrite (push_located config _ _ _ _ _ _ Hloc). unfold pushChanges.
          rewrite run_bind, Hget. intros _. exact Ht1. }
      destruct (push_after_fetch config _ _ _ _ _ _ _ _ Hloc Hget)
        as (Hrun & Htree & Hupd & Htracked).
      rewrite Hrun.
      destruct (Nat.ltb 0 (Linear.keys (buildUpdates filePath ticket sid issue)));
        [|intros _; exact Htree].
      rewrite run_bind.
      pose proof (updateIssue_keeps_tree (Linear.id issue)
                    (buildUpdates filePath ticket sid issue) w1) as Ht2.
      destruct (run (LinearSyncClient.updateIssue (Linear.id issue)
                       (buildUpdates filePath ticket sid issue)) w1)
        as [w2 [[]|e]] eqn:Hu; simpl in Ht2; unfold keeps_tree in Ht2.
      2:{ intros _. simpl. congruence. }
      pose proof (refreshLocalFile_keeps_tracker filePath ticket w2)
        as (_ & Hu3 & _).
      intros Hsame. exfalso.
      rewrite Hu3, (updateIssue_returned _ _ w1 w2 Htracked Hu), Hupd in Hsame.
      apply (f_equal (@List.length _)) in Hsame.
      rewrite length_app in Hsame. simpl in Hsame. lia.
Qed.

Import Workspace.

(** PAP-1 as pulled, moved by hand to [in-progress/]; on the tracker it
    is still in the state Todo. *)
Definition moved_file : FileEntry := file_of pulled1 pulled_at.

Definition moved : World :=
  world_with
    [("todo", []); ("in-progress", [(name1, moved_file)]); ("done", [])]
    [PAP1 todo].

Definition state_change : Linear.IssueUpdate :=
  {| Linear.upd_stateId := Some "state-progress";
     Linear.upd_title := None;
     Linear.upd_description := None |}.

Lemma C4_witness :
  exists w3,
    run (pushSingleTicket config "PAP-1") moved = (w3, Returned tt)
    /\ updates w3 = [("uuid-of-PAP-1", state_change)]
    /\ Fs.lookup ("in-progress", name1) (tree w3)
       = Some {| bytes :=
                   text_of
                     {| frontmatter :=
                          set_updated_at "2024-06-20T17:15:00.000+08:00"
                                         (frontmatter pulled1);
                        content := content pulled1;
                        comments := [] |};
                 mtime := next_morning |}.
Proof.
  assert (Hloc : located config moved "PAP-1" ("in-progress", name1)
                   moved_file pulled1 "state-progress")
    by (repeat split; reflexivity).
  destruct (C4_push_sends_the_changed_fields_once_and_refreshes_updated_at
              platform config moved "PAP-1" ("in-progress", name1)
              moved_file pulled1 "state-progress"
              (count_request moved) (PAP1 todo) Hloc eq_refl)
    as (_ & _ & _ & _ & _ & _ & _ & Hsome).
  apply (Hsome ltac:(vm_compute; lia)
               (fst (run (LinearSyncClient.updateIssue "uuid-of-PAP-1" state_change)
                         (count_request moved)))
               "2024-06-20T17:15:00.000+08:00");
    reflexivity.
Defined.

(** PAP-1 in its folder, as pulled: nothing differs. *)
Definition in_sync : World :=
  world_with
    [("todo", [(name1, moved_file)]); ("in-progress", []); ("done", [])]
    [PAP1 todo].

Lemma C10_witness :
  run (pushSingleTicket config "PAP-1") in_sync
  = (count_request in_sync, Returned tt)
  /\ tree (count_request in_sync) = tree in_sync
  /\ Fs.lookup ("todo", name1) (tree (count_request in_sync)) = Some moved_file.
Proof.
  apply (proj1 (C10_push_without_update_leaves_the_file_unwritten
                  platform config in_sync "PAP-1")
               ("todo", name1) moved_file pulled1 "state-todo"
               (count_request in_sync) (PAP1 todo)).
  - repeat split; reflexivity.
  - reflexivity.
  - reflexivity.
Defined.

(** PAP-1 as a child of PAP-9 names its file [PAP-9.1-...]; the title
    line of the frontmatter has been emptied. *)
Definition untitled : TicketFile := ticket "PAP-1" "Todo" "" "Users cannot log in.".

Definition untitled_child : World :=
  world_with
    [("todo", [("PAP-9.1-fix-login.md", file_of untitled pulled_at)]);
     ("in-progress", []); ("done", [])]
    [PAP1 todo].

(** C4 as stated fails: the local title (empty) differs from the title
    on the tracker, yet the push sends no update and rewrites nothing. *)
Lemma C4_counterexample_untitled_file_is_not_pushed :
  TicketFileParser.parseFile (bytes (file_of untitled pulled_at))
  = Returned untitled
  /\ title (frontmatter untitled) <> Linear.title (PAP1 todo)
  /\ newTitle ("todo", "PAP-9.1-fix-login.md") untitled = None
  /\ run (pushSingleTicket config "PAP-1") untitled_child
     = (count_request untitled_child, Returned tt)
  /\ updates (count_request untitled_child) = []
  /\ tree (count_request untitled_child) = tree untitled_child.
Proof.
  split; [reflexivity|]. split; [discriminate|].
  repeat split; reflexivity.
Qed.

(** A file without frontmatter: the message of the push lists every
    error [validateFile] has found. *)
Definition bare : World :=
  world_with
    [("todo", [(name1, {| bytes := "Users cannot log in."; mtime := pulled_at |})]);
     ("in-progress", []); ("done", [])]
    [PAP1 todo].

Example invalid_file_message :
  run (pushSingleTicket config "PAP-1") bare
  = (bare,
     Threw (Err ("Invalid ticket file: Missing linear_id, Missing status, "
                 ++ "Missing url, Missing created_at, Missing updated_at"))).
Proof. reflexivity. Qed.

End PushClaims.

(* ================================================================== *)
(** ** The tree: folders, files and the files of a ticket *)
(* ================================================================== *)

Module TreeFacts.
Import Sync.

(** No two entries of a directory have the same name. *)
Definition distinct_names {A : Type} (l : list (string * A)) : Prop :=
  NoDup (map fst l).

(** A tree as a file system holds it. *)
Definition well_formed (t : list (string * Folder)) : Prop :=
  distinct_names t /\ Forall (fun d => distinct_names (snd d)) t.

(** Every path of the tree, in the order [findTicketFile] looks at
    them. *)
Definition all_paths (t : list (string * Folder)) : list Fs.Path :=
  flat_map (fun d : string * Folder => map (fun f => (fst d, fst f)) (snd d)) t.

(** The files whose name carries the ticket's id. *)
Definition files_for (ticketId : string) (t : list (string * Folder)) : list Fs.Path :=
  filter (fun p => names_ticket ticketId (snd p)) (all_paths t).

Lemma assoc_in {A : Type} k (v : A) l : Fs.assoc k l = Some v -> In (k, v) l.
Proof.
  induction l as [|[k' v'] l IH]; simpl; [discriminate|].
  destruct (String.eqb_spec k' k).
  - intros H. injection H as ->. subst. auto.
  - auto.
Qed.

Lemma in_assoc {A : Type} k (v : A) l :
  distinct_names l -> In (k, v) l -> Fs.assoc k l = Some v.
Proof.
  unfold distinct_names. induction l as [|[k' v'] l IH]; simpl; [tauto|].
  intros Hnd Hin. inversion Hnd as [|? ? Hnotin Hnd']; subst.
  destruct Hin as [Heq|Hin].
  - injection Heq as -> ->. rewrite String.eqb_refl. reflexivity.
  - destruct (String.eqb_spec k' k); [|auto]. subst k'.
    exfalso. apply Hnotin. apply (in_map fst) in Hin. exact Hin.
Qed.

Lemma assoc_none_not_in {A : Type} k (l : list (string * A)) :
  Fs.assoc k l = None <-> ~ In k (map fst l).
Proof.
  induction l as [|[k' v'] l IH]; simpl; [tauto|].
  destruct (String.eqb_spec k' k); [subst; split; [discriminate|tauto]|].
  rewrite IH. tauto.
Qed.

Lemma assoc_app {A : Type} k (l1 l2 : list (string * A)) :
  Fs.assoc k (l1 ++ l2)
  = match Fs.assoc k l1 with Some v => Some v | None => Fs.assoc k l2 end.
Proof.
  induction l1 as [|[k' v'] l1 IH]; simpl; [reflexivity|].
  destruct (String.eqb k' k); auto.
Qed.

Lemma assoc_remove_same {A : Type} k (l : list (string * A)) :
  distinct_names l -> Fs.assoc k (Fs.assoc_remove k l) = None.
Proof.
  unfold distinct_names. induction l as [|[k' v'] l IH]; simpl; [reflexivity|].
  intros Hnd. inversion Hnd as [|? ? Hnotin Hnd']; subst.
  destruct (String.eqb_spec k' k).
  - subst. apply assoc_none_not_in. exact Hnotin.
  - simpl. destruct (String.eqb_spec k' k); [contradiction|auto].
Qed.

Lemma assoc_remove_other {A : Type} k k0 (l : list (string * A)) :
  k0 <> k -> Fs.assoc k0 (Fs.assoc_remove k l) = Fs.assoc k0 l.
Proof.
  intros Hne. induction l as [|[k' v'] l IH]; simpl; [reflexivity|].
  destruct (String.eqb_spec k' k).
  - subst. destruct (String.eqb_spec k k0); [congruence|reflexivity].
  - simpl. destruct (String.eqb k' k0); auto.
Qed.

Lemma map_fst_assoc_set_in {A : Type} k (v : A) l :
  In k (map fst l) -> map fst (Fs.assoc_set k v l) = map fst l.
Proof.
  induction l as [|[k' v'] l IH]; simpl; [tauto|].
  destruct (String.eqb_spec k' k); [reflexivity|].
  intros [H|H]; [contradiction|]. simpl. rewrite IH; auto.
Qed.

Lemma map_fst_assoc_set_new {A : Type} k (v : A) l :
  ~ In k (map fst l) -> map fst (Fs.assoc_set k v l) = (map fst l ++ [k])%list.
Proof.
  induction l as [|[k' v'] l IH]; simpl; [reflexivity|].
  intros Hn. destruct (String.eqb_spec k' k); [subst; tauto|].
  simpl. rewrite IH; tauto.
Qed.

Lemma distinct_assoc_set {A : Type} k (v : A) l :
  distinct_names l -> distinct_names (Fs.assoc_set k v l).
Proof.
  unfold distinct_names. intros Hnd.
  destruct (in_dec string_dec k (map fst l)) as [Hin|Hn].
  - rewrite map_fst_assoc_set_in; auto.
  - rewrite map_fst_assoc_set_new by exact Hn.
    apply NoDup_app; [exact Hnd|constructor; [tauto|constructor]|].
    intros x Hx [<-|[]]. contradiction.
Qed.

Lemma in_assoc_remove {A : Type} k k0 (l : list (string * A)) :
  In k0 (map fst (Fs.assoc_remove k l)) -> In k0 (map fst l).
Proof.
  induction l as [|[k' v'] l IH]; simpl; [tauto|].
  destruct (String.eqb k' k); simpl; intuition.
Qed.

Lemma distinct_assoc_remove {A : Type} k (l : list (string * A)) :
  distinct_names l -> distinct_names (Fs.assoc_remove k l).
Proof.
  unfold distinct_names. induction l as [|[k' v'] l IH]; simpl; [auto|].
  intros Hnd. inversion Hnd as [|? ? Hnotin Hnd']; subst.
  destruct (String.eqb k' k); [exact Hnd'|].
  simpl. constructor; [|auto].
  intros Hin. apply Hnotin. eapply in_assoc_remove. exact Hin.
Qed.

Lemma in_all_paths p t :
  In p (all_paths t)
  <-> exists files, In (fst p, files) t /\ In (snd p) (map fst files).
Proof.
  unfold all_paths. rewrite in_flat_map. split.
  - intros ([d files] & Hd & Hin). simpl in Hin.
    apply in_map_iff in Hin. destruct Hin as ([n f] & <- & Hf).
    exists files. split; [exact Hd|]. apply (in_map fst) in Hf. exact Hf.
  - intros (files & Hd & Hn). exists (fst p, files). split; [exact Hd|].
    simpl. apply in_map_iff in Hn. destruct Hn as ([n f] & Hn & Hf).
    apply in_map_iff. exists (n, f). simpl in *. subst n.
    split; [destruct p; reflexivity|exact Hf].
Qed.

Lemma lookup_in_all_paths p t f :
  Fs.lookup p t = Some f -> In p (all_paths t).
Proof.
  unfold Fs.lookup. destruct (Fs.assoc (fst p) t) as [files|] eqn:Hd; [|discriminate].
  intros Hf. apply in_all_paths. exists files.
  split; [apply assoc_in; exact Hd|].
  apply assoc_in in Hf. apply (in_map fst) in Hf. exact Hf.
Qed.

Lemma in_all_paths_lookup p t :
  well_formed t -> In p (all_paths t) -> exists f, Fs.lookup p t = Some f.
Proof.
  intros [Hd _] Hin. apply in_all_paths in Hin.
  destruct Hin as (files & Hfolder & Hn).
  unfold Fs.lookup. rewrite (in_assoc _ _ _ Hd Hfolder).
  destruct (Fs.assoc (snd p) files) as [f|] eqn:E; [eauto|].
  apply assoc_none_not_in in E. contradiction.
Qed.

Lemma all_paths_distinct t : well_formed t -> NoDup (all_paths t).
Proof.
  intros [Hd Hf]. unfold distinct_names in Hd.
  induction t as [|[d files] t IH]; simpl; [constructor|].
  inversion Hd as [|? ? Hnotin Hd']; subst.
  inversion Hf as [|? ? Hfiles Hf']; subst. simpl in Hfiles.
  apply NoDup_app.
  - unfold distinct_names in Hfiles. clear - Hfiles.
    induction files as [|[n f] files IH]; simpl; [constructor|].
    inversion Hfiles as [|? ? Hn Hfiles']; subst. constructor; [|auto].
    intros Hin. apply in_map_iff in Hin. destruct Hin as ([n' f'] & Heq & Hin').
    simpl in Heq. injection Heq as <-. apply Hn.
    apply (in_map fst) in Hin'. exact Hin'.
  - apply IH; assumption.
  - intros p Hp Hp'. apply in_map_iff in Hp. destruct Hp as ([n f] & <- & _).
    apply in_all_paths in Hp'. destruct Hp' as (files' & Hin & _).
    simpl in Hin. apply Hnotin. apply (in_map fst) in Hin. exact Hin.
Qed.

Lemma well_formed_set_folder d files t :
  well_formed t -> distinct_names files ->
  well_formed (Fs.assoc_set d files t).
Proof.
  intros [Hd Hf] Hfiles. split; [apply distinct_assoc_set; exact Hd|].
  clear Hd. induction t as [|[d' files'] t IH]; simpl.
  - constructor; [exact Hfiles|constructor].
  - inversion Hf; subst. destruct (String.eqb d' d); constructor; auto.
Qed.

Lemma well_formed_mkdir d t : well_formed t -> well_formed (Fs.mkdir d t).
Proof.
  intros [Hd Hf]. unfold Fs.mkdir, Fs.existsDir.
  destruct (Fs.assoc d t) eqn:E; [split; assumption|].
  apply assoc_none_not_in in E. split.
  - unfold distinct_names in *. rewrite map_app. simpl.
    apply NoDup_app; [exact Hd|constructor; [tauto|constructor]|].
    intros x Hx [<-|[]]. contradiction.
  - apply Forall_app. split; [exact Hf|].
    constructor; [constructor|constructor].
Qed.

Lemma well_formed_folder d files t :
  well_formed t -> Fs.assoc d t = Some files -> distinct_names files.
Proof.
  intros [_ Hf] Hd. apply assoc_in in Hd.
  rewrite Forall_forall in Hf. apply (Hf _ Hd).
Qed.

(** [findTicketFile] returns the first of the ticket's files. *)
Lemma find_in_tree_first ticketId t :
  find_in_tree ticketId t = hd_error (files_for ticketId t).
Proof.
  unfold files_for, all_paths.
  induction t as [|[d files] t IH]; simpl; [reflexivity|].
  rewrite filter_app. unfold find_in_folder.
  induction files as [|[n f] files IHf]; simpl; [exact IH|].
  destruct (names_ticket ticketId n); [reflexivity|exact IHf].
Qed.

(** The look-ups of a tree whose folder [d] is set to [files]. *)
Lemma lookup_set_folder p d files t :
  Fs.lookup p (Fs.assoc_set d files t)
  = if String.eqb (fst p) d then Fs.assoc (snd p) files else Fs.lookup p t.
Proof.
  unfold Fs.lookup. destruct (String.eqb_spec (fst p) d) as [->|Hne].
  - rewrite assoc_set_same. reflexivity.
  - rewrite assoc_set_other by exact Hne. reflexivity.
Qed.

Lemma lookup_mkdir p d t :
  Fs.lookup p (Fs.mkdir d t) = Fs.lookup p t.
Proof.
  unfold Fs.mkdir, Fs.existsDir, Fs.lookup.
  destruct (Fs.assoc d t) eqn:E; [reflexivity|].
  rewrite assoc_app. destruct (Fs.assoc (fst p) t) eqn:E1; [reflexivity|].
  simpl. destruct (String.eqb_spec d (fst p)); reflexivity.
Qed.

Lemma mkdir_exists d t : exists files, Fs.assoc d (Fs.mkdir d t) = Some files.
Proof.
  unfold Fs.mkdir, Fs.existsDir.
  destruct (Fs.assoc d t) as [files|] eqn:E; [eauto|].
  rewrite assoc_app, E. simpl. rewrite String.eqb_refl. eauto.
Qed.

End TreeFacts.

(* ================================================================== *)
(** ** Pull of one ticket: the move on a change of state *)
(* ================================================================== *)

Module PullMove.
Import Types Sync TreeFacts.

Lemma path_dec (a b : Fs.Path) : {a = b} + {a <> b}.
Proof. decide equality; apply string_dec. Qed.

Lemma path_eqb_false a b : fst a <> fst b -> Fs.path_eqb a b = false.
Proof.
  intros H. unfold Fs.path_eqb.
  destruct (String.eqb_spec (fst a) (fst b)); [contradiction|reflexivity].
Qed.

Lemma run_modify f w : run (modify f) w = (f w, Returned tt).
Proof. reflexivity. Qed.

Lemma run_unlinkSync p w files f :
  Fs.assoc (fst p) (tree w) = Some files ->
  Fs.assoc (snd p) files = Some f ->
  run (Fs.unlinkSync p) w
  = (set_tree (Fs.assoc_set (fst p) (Fs.assoc_remove (snd p) files) (tree w)) w,
     Returned tt).
Proof.
  intros Hd Hf. unfold Fs.unlinkSync. cbn [run]. rewrite Hd, Hf. reflexivity.
Qed.

Lemma at_most_one {A : Type} (l : list A) (a : A) :
  NoDup l -> (forall x, In x l -> x = a) -> (List.length l <= 1)%nat.
Proof.
  intros Hnd Hall. destruct l as [|x [|y l]]; simpl; try lia.
  exfalso. inversion Hnd as [|? ? Hn _]; subst. apply Hn.
  rewrite (Hall x), (Hall y); simpl; auto.
Qed.

(** The tree without the file [existing]. *)
Definition without_file (existing : Fs.Path) (t : list (string * Folder))
  : list (string * Folder) :=
  match Fs.assoc (fst existing) t with
  | Some files =>
      Fs.assoc_set (fst existing) (Fs.assoc_remove (snd existing) files) t
  | None => t
  end.

(** The tree a pull leaves when it moves a file: the old file removed,
    the folder of the state made if need be, the new file written. *)
Definition moved_tree (existing newFilePath : Fs.Path) (entry : FileEntry)
    (t : list (string * Folder)) : list (string * Folder) :=
  let t2 := Fs.mkdir (fst newFilePath) (without_file existing t) in
  match Fs.assoc (fst newFilePath) t2 with
  | Some files =>
      Fs.assoc_set (fst newFilePath) (Fs.assoc_set (snd newFilePath) entry files) t2
  | None => t2
  end.

Section MovedTree.
Variables existing newFilePath : Fs.Path.
Variable entry : FileEntry.
Variable t : list (string * Folder).
Hypothesis Hwf : well_formed t.
Hypothesis Hfolder : fst existing <> fst newFilePath.

Lemma without_file_lookup p :
  Fs.lookup p (without_file existing t)
  = if path_dec p existing then None else Fs.lookup p t.
Proof.
  unfold without_file.
  destruct (Fs.assoc (fst existing) t) as [files|] eqn:Hd.
  - rewrite lookup_set_folder.
    destruct (path_dec p existing) as [->|Hne].
    + rewrite String.eqb_refl. apply assoc_remove_same.
      eapply well_formed_folder; eauto.
    + destruct (String.eqb_spec (fst p) (fst existing)) as [He|]; [|reflexivity].
      unfold Fs.lookup. rewrite He, Hd. apply assoc_remove_other.
      intros Hs. apply Hne. destruct p, existing. simpl in *. congruence.
  - destruct (path_dec p existing) as [->|Hne]; [|reflexivity].
    unfold Fs.lookup. rewrite Hd. reflexivity.
Qed.

Lemma without_file_well_formed : well_formed (without_file existing t).
Proof.
  unfold without_file.
  destruct (Fs.assoc (fst existing) t) as [files|] eqn:Hd; [|exact Hwf].
  apply well_formed_set_folder; [exact Hwf|].
  apply distinct_assoc_remove. eapply well_formed_folder; eauto.
Qed.

Lemma moved_tree_lookup p :
  Fs.lookup p (moved_tree existing newFilePath entry t)
  = if path_dec p newFilePath then Some entry
    else if path_dec p existing then None
         else Fs.lookup p t.
Proof.
  unfold moved_tree. cbv zeta.
  destruct (mkdir_exists (fst newFilePath) (without_file existing t))
    as [files' Hfiles'].
  rewrite Hfiles', lookup_set_folder.
  destruct (path_dec p newFilePath) as [->|Hpn].
  - rewrite String.eqb_refl. apply assoc_set_same.
  - rewrite <- without_file_lookup,
      <- (lookup_mkdir p (fst newFilePath) (without_file existing t)).
    destruct (String.eqb_spec (fst p) (fst newFilePath)) as [He|]; [|reflexivity].
    rewrite assoc_set_other.
    + unfold Fs.lookup. rewrite He, Hfiles'. reflexivity.
    + intros Hs. apply Hpn. destruct p, newFilePath. simpl in *. congruence.
Qed.

Lemma moved_tree_old :
  Fs.lookup existing (moved_tree existing newFilePath entry t) = None.
Proof.
  rewrite moved_tree_lookup.
  destruct (path_dec existing newFilePath) as [He|]; [congruence|].
  destruct (path_dec existing existing); congruence.
Qed.

Lemma moved_tree_new :
  Fs.lookup newFilePath (moved_tree existing newFilePath entry t) = Some entry.
Proof.
  rewrite moved_tree_lookup.
  destruct (path_dec newFilePath newFilePath); congruence.
Qed.

Lemma moved_tree_others p :
  p <> existing -> p <> newFilePath ->
  Fs.lookup p (moved_tree existing newFilePath entry t) = Fs.lookup p t.
Proof.
  intros Hpe Hpn. rewrite moved_tree_lookup.
  destruct (path_dec p newFilePath); [contradiction|].
  destruct (path_dec p existing); [contradiction|reflexivity].
Qed.

Lemma moved_tree_well_formed :
  well_formed (moved_tree existing newFilePath entry t).
Proof.
  unfold moved_tree. cbv zeta.
  pose proof (well_formed_mkdir (fst newFilePath) _ without_file_well_formed)
    as H2.
  destruct (Fs.assoc (fst newFilePath)
              (Fs.mkdir (fst newFilePath) (without_file existing t)))
    as [files'|] eqn:Hd; [|exact H2].
  apply well_formed_set_folder; [exact H2|].
  apply distinct_assoc_set. eapply well_formed_folder; eauto.
Qed.

(** Of a ticket whose only file was the old one, at most the new file is
    left. *)
Lemma moved_tree_files ticketId :
  files_for ticketId t = [existing] ->
  let t3 := moved_tree existing newFilePath entry t in
  (forall p, In p (files_for ticketId t3) -> p = newFilePath)
  /\ (List.length (files_for ticketId t3) <= 1)%nat.
Proof.
  intros Hone t3.
  assert (Hall : forall p, In p (files_for ticketId t3) -> p = newFilePath).
  { intros p Hin. unfold files_for in Hin. apply filter_In in Hin.
    destruct Hin as [Hin Hname].
    destruct (path_dec p newFilePath) as [|Hpn]; [assumption|exfalso].
    destruct (in_all_paths_lookup p t3 moved_tree_well_formed Hin) as [f Hf].
    destruct (path_dec p existing) as [->|Hpe].
    - subst t3. rewrite moved_tree_old in Hf. discriminate.
    - subst t3. rewrite (moved_tree_others p Hpe Hpn) in Hf.
      apply lookup_in_all_paths in Hf.
      assert (Hin' : In p (files_for ticketId t))
        by (unfold files_for; apply filter_In; auto).
      rewrite Hone in Hin'. destruct Hin' as [<-|[]]. congruence. }
  split; [exact Hall|].
  apply (at_most_one _ newFilePath); [|exact Hall].
  unfold files_for. apply NoDup_filter. apply all_paths_distinct.
  exact moved_tree_well_formed.
Qed.
End MovedTree.

(** X24: a pull of an issue that has one local file, a file whose name
    [findTicketFile] reads as the issue's identifier, in another folder
    than the one its state maps to returns with the old file removed and
    the new file written at the new place, every other path as it was;
    no other file name reads as the identifier afterwards. *)
Theorem pull_moves_the_file_it_finds_and_leaves_one :
  forall (P : Platform) (config : LinearSyncConfig) (w : World)
         (ticketId : string) (w1 : World) (issue : Linear.Issue)
         (existing : Fs.Path) (statusFolder : string)
         (ticket : TicketFile) (text : string),
    run (LinearSyncClient.getIssue ticketId) w = (w1, Returned issue) ->
    well_formed (tree w1) ->
    files_for (Linear.identifier issue) (tree w1) = [existing] ->
    findStatusFolder (Linear.state_name (Linear.state issue)) config
    = Some statusFolder ->
    truthy statusFolder = true ->
    fst existing <> statusFolder ->
    convertLinearIssueToTicket issue = Returned ticket ->
    TicketFileParser.generateFile ticket = Returned text ->
    let newFilePath : Fs.Path :=
      (statusFolder,
       TicketFileParser.generateFilename
         (Linear.identifier issue) (Linear.title issue) (Linear.parent issue)) in
    let entry := {| bytes := text; mtime := clock w1 |} in
    exists w2,
      run (pullSingleTicket config ticketId) w = (w2, Returned tt)
      /\ tree w1 = tree w
      /\ Fs.lookup existing (tree w2) = None
      /\ Fs.lookup newFilePath (tree w2) = Some entry
      /\ (forall p, p <> existing -> p <> newFilePath ->
                    Fs.lookup p (tree w2) = Fs.lookup p (tree w1))
      /\ (forall p, In p (files_for (Linear.identifier issue) (tree w2)) ->
                    p = newFilePath)
      /\ (List.length (files_for (Linear.identifier issue) (tree w2)) <= 1)%nat.
Proof.
  intros P config w ticketId w1 issue existing statusFolder ticket text
         Hget Hwf Hone Hfolder Htruthy Hdiff Hconv Hgen newFilePath entry.
  assert (Hfind : find_in_tree (Linear.identifier issue) (tree w1) = Some existing)
    by (rewrite find_in_tree_first, Hone; reflexivity).
  assert (Hin : In existing (all_paths (tree w1))).
  { assert (H : In existing (files_for (Linear.identifier issue) (tree w1)))
      by (rewrite Hone; simpl; auto).
    unfold files_for in H. apply filter_In in H. tauto. }
  destruct (in_all_paths_lookup existing (tree w1) Hwf Hin) as [f Hf].
  unfold Fs.lookup in Hf.
  destruct (Fs.assoc (fst existing) (tree w1)) as [files|] eqn:Hd; [|discriminate].
  assert (Hne : fst existing <> fst newFilePath) by exact Hdiff.
  exists (set_tree (moved_tree existing newFilePath entry (tree w1)) w1).
  split; [|split].
  - unfold pullSingleTicket. rewrite run_bind, Hget.
    unfold writeTicket, findTicketFile.
    rewrite run_bind, run_gets, Hfind, Hfolder, Htruthy. cbv zeta. cbn [negb].
    rewrite run_bind, run_lift, Hconv, run_bind, run_lift, Hgen, run_bind.
    fold newFilePath.
    rewrite (path_eqb_false existing newFilePath Hne). cbn [negb].
    rewrite (run_unlinkSync existing w1 files f Hd Hf).
    rewrite run_bind, run_modify.
    unfold moved_tree, without_file. cbv zeta. rewrite Hd. cbn [tree set_tree].
    destruct (mkdir_exists statusFolder
                (Fs.assoc_set (fst existing)
                   (Fs.assoc_remove (snd existing) files) (tree w1)))
      as [files' Hfiles'].
    erewrite PushDiff.run_writeFileSync by (cbn [tree set_tree fst]; exact Hfiles').
    cbn [fst snd newFilePath]. rewrite Hfiles'. reflexivity.
  - pose proof (Frames.getIssue_keeps_tree ticketId w) as Ht.
    rewrite Hget in Ht. exact Ht.
  - cbn [tree set_tree].
    split; [apply moved_tree_old; assumption|].
    split; [apply moved_tree_new; assumption|].
    split; [intros p Hpe Hpn; apply moved_tree_others; assumption|].
    apply moved_tree_files; assumption.
Qed.

Import Workspace.

(** PAP-1 lies in [todo/]; on the tracker it has been moved to Done. *)
Definition stale : World :=
  world_with
    [("todo", [(name1, file_of pulled1 pulled_at)]); ("in-progress", []); ("done", [])]
    [PAP1 done].

Lemma pull_moves_the_file_witness :
  exists w2,
    run (pullSingleTicket config "PAP-1") stale = (w2, Returned tt)
    /\ tree (count_request stale) = tree stale
    /\ Fs.lookup ("todo", name1) (tree w2) = None
    /\ Fs.lookup ("done", name1) (tree w2)
       = Some {| bytes := text_of (ticket "PAP-1" "Done" "Fix login"
                                          "Users cannot log in.");
                 mtime := next_morning |}
    /\ (forall p, p <> ("todo", name1) -> p <> ("done", name1) ->
                  Fs.lookup p (tree w2) = Fs.lookup p (tree (count_request stale)))
    /\ (forall p, In p (files_for "PAP-1" (tree w2)) -> p = ("done", name1))
    /\ (List.length (files_for "PAP-1" (tree w2)) <= 1)%nat.
Proof.
  apply (pull_moves_the_file_it_finds_and_leaves_one
           platform config stale "PAP-1" (count_request stale) (PAP1 done)
           ("todo", name1) "done"
           (ticket "PAP-1" "Done" "Fix login" "Users cannot log in.")
           (text_of (ticket "PAP-1" "Done" "Fix login" "Users cannot log in."))).
  - reflexivity.
  - split; [|repeat constructor]; unfold distinct_names; simpl;
      repeat constructor; simpl; intuition discriminate.
  - reflexivity.
  - reflexivity.
  - reflexivity.
  - discriminate.
  - reflexivity.
  - reflexivity.
Defined.

(** PAP-1 as a sub-issue of ENG-9, an issue of another team. *)
Definition sub_issue (s : Linear.WorkflowState) : Linear.Issue :=
  {| Linear.id := Linear.id (PAP1 s);
     Linear.identifier := Linear.identifier (PAP1 s);
     Linear.title := Linear.title (PAP1 s);
     Linear.description := Linear.description (PAP1 s);
     Linear.url := Linear.url (PAP1 s);
     Linear.priority := Linear.priority (PAP1 s);
     Linear.createdAt := Linear.createdAt (PAP1 s);
     Linear.updatedAt := Linear.updatedAt (PAP1 s);
     Linear.dueDate := Linear.dueDate (PAP1 s);
     Linear.labels := Linear.labels (PAP1 s);
     Linear.assignee := Linear.assignee (PAP1 s);
     Linear.parent := Some "ENG-9";
     Linear.state := s;
     Linear.comments := Linear.comments (PAP1 s) |}.

Definition sub_issue_name : string := "ENG-9.1-fix-login.md".

(** No file yet; the sub-issue is in the state Todo. *)
Definition not_pulled_yet : World :=
  world_with [("todo", []); ("in-progress", []); ("done", [])] [sub_issue todo].

(** C2 (what the code does for a sub-issue of another team's issue): the
    first pull of PAP-1, a sub-issue of ENG-9, writes
    [todo/ENG-9.1-fix-login.md]; [extractLinearIdFromFilename] reads that
    name as ENG-1, so [findTicketFile] does not find the file of PAP-1
    again. When the issue has gone to Done the next pull writes
    [done/ENG-9.1-fix-login.md] and removes nothing: two files of PAP-1
    are left. *)
Theorem C2_pull_of_a_sub_issue_of_another_team_leaves_a_duplicate :
  let (w1, r1) := run (pullSingleTicket config "PAP-1") not_pulled_yet in
  let (w2, r2) :=
    run (pullSingleTicket config "PAP-1") (set_issues [sub_issue done] w1) in
  r1 = Returned tt
  /\ all_paths (tree w1) = [("todo", sub_issue_name)]
  /\ TicketFileParser.generateFilename "PAP-1" "Fix login" (Some "ENG-9")
     = sub_issue_name
  /\ TicketFileParser.extractLinearIdFromFilename sub_issue_name = Some "ENG-1"
  /\ find_in_tree "PAP-1" (tree w1) = None
  /\ r2 = Returned tt
  /\ all_paths (tree w2) = [("todo", sub_issue_name); ("done", sub_issue_name)]
  /\ Fs.lookup ("todo", sub_issue_name) (tree w2)
     = Some (file_of pulled1 next_morning)
  /\ Fs.lookup ("done", sub_issue_name) (tree w2)
     = Some (file_of (ticket "PAP-1" "Done" "Fix login" "Users cannot log in.")
                     next_morning)
  /\ linear_id (frontmatter pulled1) = "PAP-1".
Proof. vm_compute. repeat split; reflexivity. Qed.

End PullMove.

(* ================================================================== *)
(** ** The debounce of file events *)
(* ================================================================== *)

Module Debounce.
Import Types Sync SyncDaemon TreeFacts.

(** A computation that writes nothing before its first suspension. *)
Inductive reads_only {A : Type} : Async A -> Prop :=
| ro_ret x : reads_only (Ret x)
| ro_throw e : reads_only (Throw e)
| ro_get k : (forall w, reads_only (k w)) -> reads_only (Get k)
| ro_await t k : reads_only (Await t k).

Lemma segment_reads_only {A : Type} (a : Async A) :
  reads_only a -> forall w, fst (segment a w) = w.
Proof. induction 1; intros w; simpl; auto. Qed.

Lemma reads_only_bind {A B : Type} (a : Async A) (f : A -> Async B) :
  reads_only a -> (forall x, reads_only (f x)) -> reads_only (bind a f).
Proof.
  intros Ha Hf. induction Ha; simpl; auto; constructor; auto.
Qed.

Lemma reads_only_try_catch {A : Type} (a : Async A) (h : Thrown -> Async A) :
  reads_only a -> (forall e, reads_only (h e)) -> reads_only (try_catch a h).
Proof.
  intros Ha Hh. induction Ha; simpl; auto; constructor; auto.
Qed.

Lemma reads_only_lift {A : Type} (o : Outcome A) : reads_only (lift o).
Proof. destruct o; constructor. Qed.

Lemma getIssue_suspends issueId :
  exists k, LinearSyncClient.getIssue issueId = Await None k.
Proof. eexists. reflexivity. Qed.

Section Callback.
Context {P : Platform}.
Variable config : LinearSyncConfig.

Lemma pushChanges_reads_only filePath ticket newStateId :
  reads_only (pushChanges filePath ticket newStateId).
Proof.
  unfold pushChanges.
  destruct (getIssue_suspends (linear_id (frontmatter ticket))) as [k ->].
  simpl. constructor.
Qed.

Lemma pushSingleTicket_reads_only ticketId :
  reads_only (pushSingleTicket config ticketId).
Proof.
  unfold pushSingleTicket. apply reads_only_bind.
  - constructor. intros w. constructor.
  - intros [filePath|]; [|constructor].
    apply reads_only_bind.
    + constructor. intros w.
      destruct (Fs.lookup filePath (tree w)); constructor.
    + intros text. apply reads_only_bind; [apply reads_only_lift|].
      intros ticket. destruct (TicketFileParser.validateFile text); [|constructor].
      cbv zeta. destruct (findStateIdForFolder (fst filePath) config);
        [|constructor].
      destruct (negb _); [constructor|apply pushChanges_reads_only].
Qed.

(** The callback of a settled event leaves the world as it is up to its
    first suspension. *)
Lemma settled_keeps_world key action w :
  fst (segment (settled config key action) w) = w.
Proof.
  apply segment_reads_only. destruct action; [|constructor].
  unfold settled.
  apply reads_only_try_catch; [apply pushSingleTicket_reads_only|].
  intros e. constructor.
Qed.

End Callback.
(** The pushes the daemon has started for the key. *)
Definition is_push_of (k : string) (task : Task) : bool :=
  match op task with
  | Push => String.eqb (ticket task) k
  | _ => false
  end.

Definition pushes (k : string) (d : Daemon) : list Task :=
  filter (is_push_of k) (tasks d).

Lemma earliest_in l k t : earliest l = Some (k, t) -> In (k, t) l.
Proof.
  revert k t. induction l as [|[k0 t0] l IH]; simpl; [discriminate|].
  intros k t. destruct (earliest l) as [[k' t']|].
  - destruct (deadline t' <? deadline t0); intros H; injection H as <- <-; auto.
  - intros H. injection H as <- <-. auto.
Qed.

Lemma earliest_min l k t :
  earliest l = Some (k, t) ->
  forall k' t', In (k', t') l -> deadline t <= deadline t'.
Proof.
  revert k t. induction l as [|[k0 t0] l IH]; simpl; [discriminate|].
  intros k t He k' t' Hin.
  destruct (earliest l) as [[k1 t1]|] eqn:E.
  - specialize (IH k1 t1 eq_refl).
    destruct (deadline t1 <? deadline t0) eqn:Hlt.
    + injection He as <- <-. apply Z.ltb_lt in Hlt.
      destruct Hin as [Heq|Hin]; [injection Heq as <- <-; lia|eauto].
    + injection He as <- <-. apply Z.ltb_ge in Hlt.
      destruct Hin as [Heq|Hin]; [injection Heq as <- <-; lia|].
      specialize (IH _ _ Hin). lia.
  - injection He as <- <-. destruct l; [|destruct p; simpl in E;
      destruct (earliest l) as [[? ?]|]; [destruct (_ <? _)|]; discriminate].
    destruct Hin as [Heq|[]]. injection Heq as <- <-. lia.
Qed.

Lemma earliest_none l : earliest l = None -> l = [].
Proof.
  destruct l as [|[k t] l]; [reflexivity|]. simpl.
  destruct (earliest l) as [[? ?]|]; [destruct (_ <? _)|]; discriminate.
Qed.

Lemma length_assoc_remove {A : Type} k (v : A) l :
  In (k, v) l -> S (List.length (Fs.assoc_remove k l)) = List.length l.
Proof.
  induction l as [|[k' v'] l IH]; simpl; [tauto|].
  destruct (String.eqb_spec k' k); [reflexivity|].
  intros [H|H]; [congruence|]. simpl. rewrite IH; auto.
Qed.

(** Running what is left of a computation after its first segment, from
    where the segment ended, is running the computation. *)
Lemma run_segment {A : Type} (a : Async A) :
  forall w, run (snd (segment a w)) (fst (segment a w)) = run a w.
Proof.
  induction a as [x|e|k0 IH|w0 k0 IH|t k0 IH]; intros w; simpl; auto.
Qed.

Lemma wait_until_wait_until a b w :
  a <= b -> wait_until b (wait_until a w) = wait_until b w.
Proof.
  intros Hab. unfold wait_until. cbn [tree issues workflow net requests updates
                                       slept clock].
  f_equal. lia.
Qed.

(** The task the timer's callback becomes when the timer of [k] fires
    for an [added] event in the world [w]: the callback, run up to its
    first suspension. *)
Definition push_task {P : Platform} (config : LinearSyncConfig) (k : string)
    (w : World) : Task :=
  {| op := Push; ticket := k; started_at := clock w;
     code := snd (segment (settled config k added) w) |}.

Section Timers.
Context {P : Platform}.
Variable config : LinearSyncConfig.
Variable k : string.

Lemma tasks_start o ticketId body d :
  tasks (start o ticketId body d)
  = (tasks d ++ [{| op := o; ticket := ticketId;
                    started_at := clock (world d);
                    code := snd (segment body (world d)) |}])%list
  /\ world (start o ticketId body d) = fst (segment body (world d))
  /\ moveDebounceMap (start o ticketId body d) = moveDebounceMap d.
Proof.
  unfold start. destruct (segment body (world d)) as [w rest]. auto.
Qed.

(** What the firing of one timer does, as far as the key [k] sees. *)
Lemma fire_spec key timer d :
  let d' := fire config key timer d in
  moveDebounceMap d' = Fs.assoc_remove key (moveDebounceMap d)
  /\ world d' = wait_until (deadline timer) (world d)
  /\ (key <> k -> pushes k d' = pushes k d)
  /\ (key = k -> captured timer = removed -> pushes k d' = pushes k d)
  /\ (key = k -> captured timer = added ->
      pushes k d'
      = (pushes k d
         ++ [push_task config k (wait_until (deadline timer) (world d))])%list).
Proof.
  unfold fire. cbv zeta.
  destruct (captured timer) eqn:Hc.
  - match goal with
    | |- context [start Push key ?body ?d1] =>
        destruct (tasks_start Push key body d1) as (Ht & Hw & Hm)
    end.
    unfold pushes. rewrite Ht, Hm, Hw, settled_keeps_world, filter_app.
    cbn [world moveDebounceMap tasks filter].
    match goal with
    | |- context [is_push_of k ?task] =>
        change (is_push_of k task) with (String.eqb key k)
    end.
    split; [reflexivity|]. split; [reflexivity|].
    split; [|split].
    + intros Hne. destruct (String.eqb_spec key k); [contradiction|].
      apply app_nil_r.
    + discriminate.
    + intros -> _. rewrite String.eqb_refl. reflexivity.
  - simpl. repeat split; auto. discriminate.
Qed.

(** The timers due at [t] fire: a pending timer of [k] fires when it is
    due, once, and not otherwise. *)
Lemma fire_due_spec t : forall fuel d,
  (List.length (moveDebounceMap d) <= fuel)%nat ->
  distinct_names (moveDebounceMap d) ->
  let d' := fire_due config fuel t d in
  distinct_names (moveDebounceMap d')
  /\ clock (world d) <= clock (world d') <= Z.max (clock (world d)) t
  /\ match Fs.assoc k (moveDebounceMap d) with
     | Some timer =>
         if deadline timer <=? t
         then Fs.assoc k (moveDebounceMap d') = None
              /\ match captured timer with
                 | added =>
                     pushes k d'
                     = (pushes k d
                        ++ [push_task config k
                              (wait_until (deadline timer) (world d))])%list
                 | removed => pushes k d' = pushes k d
                 end
         else Fs.assoc k (moveDebounceMap d') = Some timer
              /\ pushes k d' = pushes k d
     | None =>
         Fs.assoc k (moveDebounceMap d') = None /\ pushes k d' = pushes k d
     end.
Proof.
  induction fuel as [|fuel IH]; intros d Hlen Hnd.
  - destruct (moveDebounceMap d) eqn:Hm; [|simpl in Hlen; lia].
    simpl. rewrite Hm. simpl. repeat split; auto; lia.
  - cbn [fire_due].
    destruct (earliest (moveDebounceMap d)) as [[key timer]|] eqn:He.
    2:{ apply earliest_none in He. rewrite He. simpl.
        repeat split; auto; try lia. constructor. }
    pose proof (earliest_in _ _ _ He) as Hin.
    pose proof (earliest_min _ _ _ He) as Hmin.
    destruct (deadline timer <=? t) eqn:Hdue.
    + apply Z.leb_le in Hdue.
      destruct (fire_spec key timer d) as (Hmap & Hworld & Hother & Hrem & Hadd).
      assert (Hclock : clock (world (fire config key timer d))
                       = Z.max (clock (world d)) (deadline timer))
        by (rewrite Hworld; reflexivity).
      assert (Hlen' : (List.length (moveDebounceMap (fire config key timer d))
                       <= fuel)%nat).
      { rewrite Hmap. pose proof (length_assoc_remove _ _ _ Hin). lia. }
      assert (Hnd' : distinct_names (moveDebounceMap (fire config key timer d)))
        by (rewrite Hmap; apply distinct_assoc_remove; exact Hnd).
      specialize (IH (fire config key timer d) Hlen' Hnd').
      cbv zeta in IH. destruct IH as (Hd & Hc & Hk).
      split; [exact Hd|]. split; [lia|].
      rewrite Hmap in Hk.
      destruct (string_dec key k) as [->|Hne].
      * rewrite (in_assoc _ _ _ Hnd Hin).
        rewrite assoc_remove_same in Hk by exact Hnd.
        destruct Hk as (Hnone & Hsame).
        assert (Hle : (deadline timer <=? t) = true) by (apply Z.leb_le; lia).
        rewrite Hle. split; [exact Hnone|].
        rewrite Hsame. destruct (captured timer) eqn:Hcap.
        -- apply Hadd; reflexivity.
        -- apply Hrem; reflexivity.
      * rewrite assoc_remove_other in Hk by congruence.
        rewrite (Hother Hne) in Hk.
        destruct (Fs.assoc k (moveDebounceMap d)) as [timer_k|] eqn:Hak;
          [|exact Hk].
        destruct (deadline timer_k <=? t) eqn:Hdk; [|exact Hk].
        destruct Hk as (Hnone & Hpush). split; [exact Hnone|].
        pose proof (Hmin _ _ (assoc_in _ _ _ Hak)) as Hfirst.
        rewrite Hworld, (wait_until_wait_until _ _ _ Hfirst) in Hpush.
        exact Hpush.
    + apply Z.leb_gt in Hdue. split; [exact Hnd|]. split; [lia|].
      destruct (Fs.assoc k (moveDebounceMap d)) as [timer_k|] eqn:Hak; [|auto].
      pose proof (Hmin _ _ (assoc_in _ _ _ Hak)).
      destruct (deadline timer_k <=? t) eqn:Hdk; [|auto].
      apply Z.leb_le in Hdk. lia.
Qed.

End Timers.

(** A burst of [added] events: each at its time, the clock having
    reached it. *)
Fixpoint burst (events : list (Z * string)) : list Event :=
  match events with
  | [] => []
  | (t, filePath) :: rest =>
      TimePassed t :: FileChanged filePath added :: burst rest
  end.

(** Each event comes less than 2000 ms after the one before. *)
Fixpoint spaced (previous : Z) (events : list (Z * string)) : Prop :=
  match events with
  | [] => True
  | (t, _) :: rest => previous <= t < previous + 2000 /\ spaced t rest
  end.

Section Burst.
Context {P : Platform}.
Variable config : LinearSyncConfig.
Variable slackService : WebhookBody -> Async unit.
Variable k : string.


(** Time passes: the timer of [k] fires if it is due, and the clock
    reaches [t]. *)
Lemma time_passed t d :
  distinct_names (moveDebounceMap d) ->
  clock (world d) <= t ->
  let d' := step config slackService d (TimePassed t) in
  distinct_names (moveDebounceMap d')
  /\ clock (world d') = t
  /\ match Fs.assoc k (moveDebounceMap d) with
     | Some timer =>
         if deadline timer <=? t
         then Fs.assoc k (moveDebounceMap d') = None
              /\ match captured timer with
                 | added =>
                     pushes k d'
                     = (pushes k d
                        ++ [push_task config k
                              (wait_until (deadline timer) (world d))])%list
                 | removed => pushes k d' = pushes k d
                 end
         else Fs.assoc k (moveDebounceMap d') = Some timer
              /\ pushes k d' = pushes k d
     | None =>
         Fs.assoc k (moveDebounceMap d') = None /\ pushes k d' = pushes k d
     end.
Proof.
  intros Hnd Hclock. cbn [SyncDaemon.step]. cbv zeta.
  destruct (fire_due_spec config k t (List.length (moveDebounceMap d)) d
              (Nat.le_refl _) Hnd) as (Hd & Hc & Hk).
  cbn [moveDebounceMap world tasks clock wait_until].
  split; [exact Hd|]. split; [lia|].
  exact Hk.
Qed.

(** A file event for [k]: the timer of [k] is set anew, 2000 ms from
    now, whatever it was; nothing else changes. *)
Lemma file_changed filePath action d :
  debounceKey filePath = Some k ->
  distinct_names (moveDebounceMap d) ->
  let d' := step config slackService d (FileChanged filePath action) in
  distinct_names (moveDebounceMap d')
  /\ world d' = world d
  /\ tasks d' = tasks d
  /\ Fs.assoc k (moveDebounceMap d')
     = Some {| deadline := clock (world d) + 2000; captured := action |}.
Proof.
  intros Hkey Hnd. cbn [SyncDaemon.step]. unfold handleFileMove. rewrite Hkey.
  cbn [moveDebounceMap world tasks].
  split; [apply distinct_assoc_set; exact Hnd|].
  split; [reflexivity|]. split; [reflexivity|].
  apply assoc_set_same.
Qed.

(** During a burst the timer of [k] is the one the last event has set,
    and no push starts. *)
Lemma burst_pending : forall events d t0,
  distinct_names (moveDebounceMap d) ->
  clock (world d) = t0 ->
  Fs.assoc k (moveDebounceMap d)
  = Some {| deadline := t0 + 2000; captured := added |} ->
  Forall (fun e => debounceKey (snd e) = Some k) events ->
  spaced t0 events ->
  let d' := exec config slackService d (burst events) in
  let t_last := last (map fst events) t0 in
  distinct_names (moveDebounceMap d')
  /\ clock (world d') = t_last
  /\ Fs.assoc k (moveDebounceMap d')
     = Some {| deadline := t_last + 2000; captured := added |}
  /\ pushes k d' = pushes k d.
Proof.
  induction events as [|[t filePath] events IH];
    intros d t0 Hnd Hclock Htimer Hkeys Hspaced.
  - simpl. auto.
  - apply Forall_cons_iff in Hkeys. destruct Hkeys as [Hkey Hkeys'].
    simpl in Hkey.
    destruct Hspaced as [Ht Hspaced].
    cbn [burst]. unfold SyncDaemon.exec. cbn [fold_left].
    destruct (time_passed t d Hnd ltac:(lia)) as (Hnd1 & Hc1 & Hk1).
    rewrite Htimer in Hk1. cbn [deadline] in Hk1.
    destruct (t0 + 2000 <=? t) eqn:Hdue; [apply Z.leb_le in Hdue; lia|].
    destruct Hk1 as (Ht1 & Hp1).
    destruct (file_changed filePath added _ Hkey Hnd1) as (Hnd2 & Hw2 & Hts2 & Hk2).
    rewrite Hc1 in Hk2.
    specialize (IH _ t Hnd2 ltac:(rewrite Hw2; exact Hc1) Hk2 Hkeys' Hspaced).
    cbv zeta in IH. destruct IH as (Hnd3 & Hc3 & Hk3 & Hp3).
    unfold SyncDaemon.exec in *.
    assert (Hlast : last (map fst ((t, filePath) :: events)) t0
                    = last (map fst events) t).
    { clear. simpl. destruct events as [|e events]; [reflexivity|].
      simpl. generalize (fst e). induction events as [|e' events IH];
        intros z; [reflexivity|]. simpl. apply IH. }
    rewrite Hlast.
    split; [exact Hnd3|]. split; [exact Hc3|]. split; [exact Hk3|].
    rewrite Hp3. unfold pushes. rewrite Hts2. exact Hp1.
Qed.

End Burst.

(** C8: a burst of [added] events for one key, each less than 2000 ms
    after the one before, leaves one pending timer for the key, due
    2000 ms after the last event (each event has set it anew), and starts
    no push; once 2000 ms have passed since the last event, exactly one
    task has been started for the key, at the moment the window elapsed,
    and the timer is gone. The task is the timer's callback run up to
    its first suspension: what it goes on to do is [pushSingleTicket] of
    the key, with what it throws caught. *)
Theorem C8_burst_of_added_events_starts_one_push_after_the_window :
  forall (P : Platform) (config : LinearSyncConfig)
         (slackService : WebhookBody -> Async unit)
         (d : Daemon) (k : string)
         (t1 : Z) (filePath1 : string) (rest : list (Z * string)) (T : Z),
    distinct_names (moveDebounceMap d) ->
    Fs.assoc k (moveDebounceMap d) = None ->
    clock (world d) <= t1 ->
    debounceKey filePath1 = Some k ->
    Forall (fun e => debounceKey (snd e) = Some k) rest ->
    spaced t1 rest ->
    let t_last := last (map fst rest) t1 in
    t_last + 2000 <= T ->
    let during := exec config slackService d (burst ((t1, filePath1) :: rest)) in
    let after := step config slackService during (TimePassed T) in
    let fired := wait_until (t_last + 2000) (world during) in
    Fs.assoc k (moveDebounceMap during)
    = Some {| deadline := t_last + 2000; captured := added |}
    /\ pushes k during = pushes k d
    /\ (exists task,
          pushes k after = (pushes k d ++ [task])%list
          /\ op task = Push
          /\ ticket task = k
          /\ started_at task = t_last + 2000
          /\ code task = snd (segment (settled config k added) fired)
          /\ run (code task) fired
             = run (try_catch (pushSingleTicket config k) (fun _ => Ret tt))
                   fired)
    /\ Fs.assoc k (moveDebounceMap after) = None.
Proof.
  intros P config slackService d k t1 filePath1 rest T
         Hnd Hnone Hclock Hkey Hkeys Hspaced t_last HT during after fired.
  destruct (time_passed config slackService k t1 d Hnd Hclock)
    as (Hnd1 & Hc1 & Hk1).
  rewrite Hnone in Hk1. destruct Hk1 as (_ & Hp1).
  destruct (file_changed config slackService k filePath1 added _ Hkey Hnd1)
    as (Hnd2 & Hw2 & Hts2 & Hk2).
  rewrite Hc1 in Hk2.
  destruct (burst_pending config slackService k rest _ t1 Hnd2
              ltac:(rewrite Hw2; exact Hc1) Hk2 Hkeys Hspaced)
    as (Hnd3 & Hc3 & Hk3 & Hp3).
  fold t_last in Hc3, Hk3.
  assert (Hduring : pushes k during = pushes k d).
  { subst during. cbn [burst]. unfold exec. cbn [fold_left].
    unfold exec in Hp3. rewrite Hp3. unfold pushes. rewrite Hts2. exact Hp1. }
  assert (Htimer : Fs.assoc k (moveDebounceMap during)
                   = Some {| deadline := t_last + 2000; captured := added |})
    by exact Hk3.
  split; [exact Htimer|]. split; [exact Hduring|].
  assert (Hcd : clock (world during) = t_last) by exact Hc3.
  destruct (time_passed config slackService k T during Hnd3 ltac:(lia))
    as (_ & _ & Hk4).
  rewrite Htimer in Hk4. cbn [deadline captured] in Hk4.
  destruct (t_last + 2000 <=? T) eqn:Hdue; [|apply Z.leb_gt in Hdue; lia].
  destruct Hk4 as (Hgone & Hpush).
  split; [|exact Hgone].
  exists (push_task config k fired).
  split; [subst after; rewrite Hpush, Hduring; reflexivity|].
  split; [reflexivity|]. split; [reflexivity|].
  split; [subst fired; cbn [push_task started_at clock wait_until]; lia|].
  split; [reflexivity|].
  cbn [push_task code].
  pose proof (run_segment (settled config k added) fired) as Hrun.
  rewrite settled_keeps_world in Hrun. exact Hrun.
Qed.

Import Workspace.

(** The daemon at rest, PAP-1 lying in [in-progress/], and five events on
    its file within a second. *)
Definition at_rest : Daemon :=
  {| world := PushClaims.moved; moveDebounceMap := []; tasks := [] |}.

Definition moved_path : string := "/repo/linear-tickets/in-progress/PAP-1-fix-login.md".

Definition five_events : list (Z * string) :=
  [ (next_morning + 100, moved_path);
    (next_morning + 300, moved_path);
    (next_morning + 500, moved_path);
    (next_morning + 700, moved_path);
    (next_morning + 900, moved_path) ].

(** The world when the timer of PAP-1 fires. *)
Definition window_elapsed : World :=
  wait_until (next_morning + 2900)
    (world (exec config WebhookResponse.no_slack at_rest (burst five_events))).

Lemma C8_witness :
  (Fs.assoc "PAP-1"
     (moveDebounceMap (exec config WebhookResponse.no_slack at_rest (burst five_events)))
   = Some {| deadline := next_morning + 2900; captured := added |}
   /\ pushes "PAP-1" (exec config WebhookResponse.no_slack at_rest (burst five_events))
      = []
   /\ (exists task,
         pushes "PAP-1"
           (step config WebhookResponse.no_slack
              (exec config WebhookResponse.no_slack at_rest (burst five_events))
              (TimePassed (next_morning + 2900)))
         = [task]
         /\ op task = Push
         /\ SyncDaemon.ticket task = "PAP-1"
         /\ started_at task = next_morning + 2900
         /\ code task
            = snd (segment (settled config "PAP-1" added) window_elapsed)
         /\ run (code task) window_elapsed
            = run (try_catch (pushSingleTicket config "PAP-1") (fun _ => Ret tt))
                  window_elapsed)
   /\ Fs.assoc "PAP-1"
        (moveDebounceMap
           (step config WebhookResponse.no_slack
              (exec config WebhookResponse.no_slack at_rest (burst five_events))
              (TimePassed (next_morning + 2900))))
      = None)
  /\ updates (fst (run (try_catch (pushSingleTicket config "PAP-1")
                                  (fun _ => Ret tt)) window_elapsed))
     = [("uuid-of-PAP-1", PushClaims.state_change)].
Proof.
  split.
  - apply (C8_burst_of_added_events_starts_one_push_after_the_window
             platform config WebhookResponse.no_slack at_rest "PAP-1"
             (next_morning + 100) moved_path (tl five_events)
             (next_morning + 2900)).
    + constructor.
    + reflexivity.
    + vm_compute. discriminate.
    + reflexivity.
    + repeat constructor.
    + vm_compute. intuition discriminate.
    + vm_compute. discriminate.
  - vm_compute. reflexivity.
Defined.

End Debounce.

(* ================================================================== *)
(** ** The codec: generateFile and parseFile *)
(* ================================================================== *)

Module Codec.
Import Types TicketFileParser.

Definition starts_clean (s : string) : Prop :=
  match s with
  | String c _ => JsString.is_space c = false
  | EmptyString => True
  end.

Lemma trimStart_clean s : starts_clean (JsString.trimStart s).
Proof.
  induction s as [|c s IH]; simpl; [exact I|].
  destruct (JsString.is_space c) eqn:E; [exact IH|exact E].
Qed.

Lemma trimEnd_clean s : starts_clean s -> starts_clean (JsString.trimEnd s).
Proof.
  destruct s as [|c s]; simpl; [auto|]. intros Hc.
  destruct (JsString.trimEnd s); [rewrite Hc|]; exact Hc.
Qed.

Lemma trim_clean s : starts_clean (JsString.trim s).
Proof. apply trimEnd_clean, trimStart_clean. Qed.

Lemma trimStart_of_clean s : starts_clean s -> JsString.trimStart s = s.
Proof.
  destruct s as [|c s]; simpl; [reflexivity|]. intros ->. reflexivity.
Qed.

Lemma trimEnd_idempotent s :
  JsString.trimEnd (JsString.trimEnd s) = JsString.trimEnd s.
Proof.
  induction s as [|c s IH]; simpl; [reflexivity|].
  destruct (JsString.trimEnd s) as [|c' r] eqn:E.
  - destruct (JsString.is_space c) eqn:Hc; simpl; [reflexivity|].
    rewrite Hc. reflexivity.
  - change (JsString.trimEnd (String c (String c' r)))
      with (match JsString.trimEnd (String c' r) with
            | EmptyString =>
                if JsString.is_space c then EmptyString
                else String c EmptyString
            | String a b => String c (String a b)
            end).
    rewrite IH. reflexivity.
Qed.

Lemma trim_idempotent s : JsString.trim (JsString.trim s) = JsString.trim s.
Proof.
  unfold JsString.trim.
  rewrite (trimStart_of_clean _ (trimEnd_clean _ (trimStart_clean s))).
  apply trimEnd_idempotent.
Qed.

(** Whatever the platform: the content [parseFile] returns is trimmed,
    so a ticket whose content is not is not reproduced. *)
Lemma parsed_content_trimmed {P : Platform} text t :
  parseFile text = Returned t -> JsString.trim (content t) = content t.
Proof.
  unfold parseFile. destruct (matter text) as [[data below]|e]; [|discriminate].
  intros H. injection H as <-. simpl. apply trim_idempotent.
Qed.






Lemma append_assoc (a b c : string) : ((a ++ b) ++ c = a ++ (b ++ c))%string.
Proof. induction a as [|x a IH]; simpl; [reflexivity|]. rewrite IH. reflexivity. Qed.
















Import Workspace.






End Codec.

(* ================================================================== *)
(** ** Operations on one ticket at the same time *)
(* ================================================================== *)

Module Overlap.
Import Types Sync SyncDaemon TreeFacts.

(** A computation that runs to its end without a suspension. *)
Inductive never_suspends {A : Type} : Async A -> Prop :=
| ns_ret x : never_suspends (Ret x)
| ns_throw e : never_suspends (Throw e)
| ns_get k : (forall w, never_suspends (k w)) -> never_suspends (Get k)
| ns_put w k : never_suspends k -> never_suspends (Put w k).

(** What is left of a computation is nothing: it has returned or
    thrown. *)
Definition finished {A : Type} (a : Async A) : bool :=
  match a with
  | Ret _ | Throw _ => true
  | _ => false
  end.

Lemma segment_never_suspends {A : Type} (a : Async A) :
  never_suspends a -> forall w, finished (snd (segment a w)) = true.
Proof. induction 1; intros w0; simpl; auto. Qed.

Lemma never_suspends_bind {A B : Type} (a : Async A) (f : A -> Async B) :
  never_suspends a -> (forall x, never_suspends (f x)) ->
  never_suspends (bind a f).
Proof.
  intros Ha Hf. induction Ha; simpl; auto; constructor; auto.
Qed.

Lemma never_suspends_lift {A : Type} (o : Outcome A) : never_suspends (lift o).
Proof. destruct o; constructor. Qed.

Lemma never_suspends_gets {A : Type} (f : World -> A) : never_suspends (gets f).
Proof. constructor. intros w. constructor. Qed.

Lemma never_suspends_modify f : never_suspends (modify f).
Proof. constructor. intros w. repeat constructor. Qed.

Lemma never_suspends_writeFileSync p text :
  never_suspends (Fs.writeFileSync p text).
Proof.
  constructor. intros w. destruct (Fs.assoc (fst p) (tree w));
    repeat constructor.
Qed.

Lemma never_suspends_unlinkSync p : never_suspends (Fs.unlinkSync p).
Proof.
  constructor. intros w. destruct (Fs.assoc (fst p) (tree w)) as [files|];
    [destruct (Fs.assoc (snd p) files)|]; repeat constructor.
Qed.

Section Operations.
Context {P : Platform}.
Variable config : LinearSyncConfig.
Variable slackService : WebhookBody -> Async unit.

(** A pull, once it has the issue, removes the file that lies elsewhere
    and writes the new one without a suspension in between. *)
Lemma writeTicket_never_suspends issue :
  never_suspends (writeTicket config issue).
Proof.
  unfold writeTicket.
  apply never_suspends_bind; [apply never_suspends_gets|].
  intros existingFilePath.
  destruct (findStatusFolder _ config) as [statusFolder|]; [|constructor].
  destruct (negb (truthy statusFolder)); [constructor|]. cbv zeta.
  apply never_suspends_bind; [apply never_suspends_lift|]. intros ticket.
  apply never_suspends_bind; [apply never_suspends_lift|]. intros text.
  apply never_suspends_bind.
  - destruct existingFilePath as [existing|]; [|constructor].
    destruct (negb _); [apply never_suspends_unlinkSync|constructor].
  - intros _. apply never_suspends_bind; [apply never_suspends_modify|].
    intros _. apply never_suspends_writeFileSync.
Qed.

(** The write of a push, after its update, has no suspension either. *)
Lemma refreshLocalFile_never_suspends filePath ticket :
  never_suspends (refreshLocalFile filePath ticket).
Proof.
  unfold refreshLocalFile.
  apply never_suspends_bind; [apply never_suspends_gets|]. intros time.
  apply never_suspends_bind; [apply never_suspends_lift|]. intros now.
  apply never_suspends_bind; [apply never_suspends_lift|]. intros text.
  apply never_suspends_writeFileSync.
Qed.

Lemma equals_true x s : equals x s = true -> x = Some s.
Proof.
  destruct x as [v|]; simpl; [|discriminate].
  intros H. apply String.eqb_eq in H. congruence.
Qed.

(** The handler of a webhook for an updated or created ticket runs up to
    a suspension, the grace period of a new comment or the fetch of the
    issue, and has written no file by then. *)
Lemma webhook_suspends body ticketId w :
  ticketIdOf body = Some ticketId ->
  (equals (action body) "update" || equals (action body) "create")%bool = true ->
  exists until k w',
    segment (webhook config slackService body ;; Ret tt) w
    = (w', Await until k)
    /\ tree w' = tree w /\ issues w' = issues w /\ clock w' = clock w.
Proof.
  intros Hid Hact. unfold webhook, dispatch. rewrite Hid, Hact.
  destruct (equals (action body) "create" && equals (type body) "Comment")%bool.
  - do 3 eexists. split; [reflexivity|]. repeat split.
  - do 3 eexists. split; [reflexivity|]. repeat split.
Qed.

End Operations.

(** C1, as the code has it: the daemon keeps no queue per ticket. The
    handler of a webhook for an updated or created ticket starts at once,
    whatever tasks are in flight, for this ticket or another: it becomes
    one more task in flight, the others are left as they are, and no file
    has been touched by then. What does not interleave is narrower: once
    a pull has the issue, its removal of the old file and its write run
    without a suspension, and so does the write of a push. *)
Theorem C1_webhook_starts_at_once_and_file_operations_are_one_step :
  forall (P : Platform) (config : LinearSyncConfig)
         (slackService : WebhookBody -> Async unit)
         (d : Daemon) (body : WebhookBody) (ticketId : string),
    ticketIdOf body = Some ticketId ->
    (equals (action body) "update" || equals (action body) "create")%bool = true ->
    let d' := step config slackService d (WebhookPosted body) in
    (exists task,
       tasks d' = (tasks d ++ [task])%list
       /\ op task = Pull
       /\ ticket task = ticketId
       /\ started_at task = clock (world d)
       /\ in_flight task = true)
    /\ tree (world d') = tree (world d)
    /\ (forall issue w,
          finished (snd (segment (writeTicket config issue) w)) = true)
    /\ (forall filePath t w,
          finished (snd (segment (refreshLocalFile filePath t) w)) = true).
Proof.
  intros P config slackService d body ticketId Hid Hact d'.
  assert (Hop : equals (action body) "remove" = false).
  { apply orb_true_iff in Hact.
    destruct Hact as [H|H]; apply equals_true in H; rewrite H; reflexivity. }
  destruct (webhook_suspends config slackService body ticketId (world d) Hid Hact)
    as (until & k & w' & Hseg & Htree & _ & _).
  subst d'. unfold step, start. rewrite Hseg, Hop, Hid.
  cbn [tasks world]. repeat split.
  - eexists. repeat split.
  - exact Htree.
  - intros issue w. apply segment_never_suspends, writeTicket_never_suspends.
  - intros filePath t w.
    apply segment_never_suspends, refreshLocalFile_never_suspends.
Qed.

Import Workspace.

(** The file of PAP-1 has been moved to [in-progress/] by hand, and
    on the tracker the issue has been set to Done. *)
Definition both_changed : World :=
  world_with
    [("todo", []); ("in-progress", [(name1, file_of pulled1 pulled_at)]); ("done", [])]
    [PAP1 done].

Definition idle : Daemon :=
  {| world := both_changed; moveDebounceMap := []; tasks := [] |}.

Definition moved_to : string := "/repo/linear-tickets/in-progress/PAP-1-fix-login.md".

(** The watcher reports the moved file, the debounce window passes and
    the push starts; then the webhook of the update arrives. *)
Definition push_then_webhook : list Event :=
  [ FileChanged moved_to added;
    TimePassed (next_morning + 2000);
    WebhookPosted WebhookResponse.updated_PAP1 ].

(** The push gets the issue and sends its update; the pull gets the
    issue and writes. *)
Definition pull_overtakes : list Event :=
  (push_then_webhook ++ [Resumed 0; Resumed 1])%list.

(** The update of the push is answered, and it writes; the pull ends. *)
Definition both_end : list Event :=
  (pull_overtakes ++ [Resumed 0; Resumed 1])%list.

Definition after (events : list Event) : Daemon :=
  exec config WebhookResponse.no_slack idle events.

Definition progress (d : Daemon) : list (Op * string * bool) :=
  map (fun t => (op t, SyncDaemon.ticket t, in_flight t)) (tasks d).

(** The push of PAP-1 has started and waits for the issue. *)
Definition push_in_flight : Daemon :=
  after [FileChanged moved_to added; TimePassed (next_morning + 2000)].

Definition webhook_arrived : Daemon :=
  step config WebhookResponse.no_slack push_in_flight
       (WebhookPosted WebhookResponse.updated_PAP1).

Lemma C1_witness :
  progress push_in_flight = [(Push, "PAP-1", true)]
  /\ (exists task,
        tasks webhook_arrived = (tasks push_in_flight ++ [task])%list
        /\ op task = Pull
        /\ SyncDaemon.ticket task = "PAP-1"
        /\ started_at task = clock (world push_in_flight)
        /\ in_flight task = true)
  /\ tree (world webhook_arrived) = tree (world push_in_flight).
Proof.
  destruct (C1_webhook_starts_at_once_and_file_operations_are_one_step
              platform config WebhookResponse.no_slack push_in_flight
              WebhookResponse.updated_PAP1 "PAP-1" eq_refl eq_refl)
    as (Htask & Htree & _).
  split; [reflexivity|]. split; [exact Htask|exact Htree].
Defined.

(** C1 as stated fails. The push of PAP-1 is in flight, waiting for the
    issue, when the webhook arrives: the pull does not queue behind it,
    both are in flight. The pull then gets the issue, removes
    [in-progress/PAP-1-fix-login.md] and writes
    [done/PAP-1-fix-login.md] while the push, which has read the file and
    sent its update, still waits; when the update is answered the push
    writes the file it had read back to [in-progress/]. The ticket ends
    with two files, and the tracker with the state the push has set. *)
Lemma C1_counterexample_pull_writes_while_push_is_in_flight :
  progress (after push_then_webhook)
  = [(Push, "PAP-1", true); (Pull, "PAP-1", true)]
  /\ progress (after pull_overtakes)
     = [(Push, "PAP-1", true); (Pull, "PAP-1", true)]
  /\ files_for "PAP-1" (tree (world (after pull_overtakes)))
     = [("done", name1)]
  /\ progress (after both_end)
     = [(Push, "PAP-1", false); (Pull, "PAP-1", false)]
  /\ files_for "PAP-1" (tree (world (after both_end)))
     = [("in-progress", name1); ("done", name1)]
  /\ map (fun i => Linear.state_name (Linear.state i))
         (issues (world (after both_end)))
     = ["In Progress"].
Proof. repeat split; vm_compute; reflexivity. Qed.

End Overlap.

(* ================================================================== *)
(** ** Strings *)
(* ================================================================== *)

Module StringFacts.

(** Every character of the string satisfies [p]. *)
Fixpoint all (p : ascii -> bool) (s : string) : bool :=
  match s with
  | EmptyString => true
  | String c s' => (p c && all p s')%bool
  end.

Lemma all_app p a b : all p (a ++ b) = (all p a && all p b)%bool.
Proof.
  induction a as [|c a IH]; simpl; [reflexivity|].
  rewrite IH, andb_assoc. reflexivity.
Qed.

Lemma all_impl (p q : ascii -> bool) s :
  (forall c, p c = true -> q c = true) -> all p s = true -> all q s = true.
Proof.
  intros Hpq. induction s as [|c s IH]; simpl; [reflexivity|].
  intros H. apply andb_true_iff in H. destruct H as [Hc Hs].
  rewrite (Hpq _ Hc), (IH Hs). reflexivity.
Qed.

Lemma append_nil_r s : s ++ "" = s.
Proof. induction s as [|c s IH]; simpl; congruence. Qed.

Lemma length_app a b :
  String.length (a ++ b) = (String.length a + String.length b)%nat.
Proof. induction a as [|c a IH]; simpl; [reflexivity|]. rewrite IH. reflexivity. Qed.

Lemma drop_app a b : JsString.drop (String.length a) (a ++ b) = b.
Proof. induction a as [|c a IH]; simpl; [destruct b; reflexivity|exact IH]. Qed.

Lemma startsWith_app a b : JsString.startsWith (a ++ b) a = true.
Proof.
  unfold JsString.startsWith.
  induction a as [|c a IH]; simpl; [destruct b; reflexivity|].
  destruct (ascii_dec c c) as [_|n]; [exact IH|congruence].
Qed.

Lemma endsWith_app a b : JsString.endsWith (a ++ b) b = true.
Proof.
  unfold JsString.endsWith. rewrite length_app.
  replace (String.length a + String.length b - String.length b)%nat
    with (String.length a) by lia.
  rewrite drop_app, String.eqb_refl.
  replace (String.length b <=? String.length a + String.length b)%nat with true
    by (symmetry; apply Nat.leb_le; lia).
  reflexivity.
Qed.

(** Two splits of one string at the same distance from its end are the
    same split. *)
Lemma app_inj_suffix a b a' b' :
  a ++ b = a' ++ b' -> String.length b = String.length b' ->
  a = a' /\ b = b'.
Proof.
  revert a'. induction a as [|c a IH]; intros a' H Hlen.
  - destruct a' as [|c' a']; [auto|].
    simpl in H. apply (f_equal String.length) in H.
    simpl in H. rewrite length_app in H. lia.
  - destruct a' as [|c' a'].
    + simpl in H. apply (f_equal String.length) in H.
      simpl in H. rewrite length_app in H. lia.
    + simpl in H. injection H as -> H.
      destruct (IH a' H Hlen) as [-> ->]. auto.
Qed.

Lemma take_drop n s : JsString.take n s ++ JsString.drop n s = s.
Proof.
  revert s. induction n as [|n IH]; intros [|c s]; simpl; try reflexivity.
  rewrite IH. reflexivity.
Qed.

Lemma endsWith_split s p :
  JsString.endsWith s p = true -> exists a, s = a ++ p.
Proof.
  unfold JsString.endsWith. intros H. apply andb_true_iff in H.
  destruct H as [_ Heq]. apply String.eqb_eq in Heq.
  exists (JsString.take (String.length s - String.length p) s).
  rewrite <- Heq at 2. symmetry. apply take_drop.
Qed.

Lemma endsWith_app_r a b p :
  JsString.endsWith b p = true -> JsString.endsWith (a ++ b) p = true.
Proof.
  intros H. apply endsWith_split in H. destruct H as [x ->].
  rewrite <- Codec.append_assoc. apply endsWith_app.
Qed.

(** [span] on a run of [p]-characters followed by a character that is
    not one, or by nothing. *)
Definition stops (p : ascii -> bool) (s : string) : bool :=
  match s with
  | String c _ => negb (p c)
  | EmptyString => true
  end.

Lemma span_app p a b :
  all p a = true -> stops p b = true ->
  TicketFileParser.span p (a ++ b) = (a, b).
Proof.
  intros Ha Hb. induction a as [|c a IH]; simpl.
  - destruct b as [|c b]; [reflexivity|]. simpl in Hb.
    simpl. destruct (p c); [discriminate|reflexivity].
  - simpl in Ha. apply andb_true_iff in Ha. destruct Ha as [Hc Ha].
    rewrite Hc, (IH Ha). reflexivity.
Qed.

End StringFacts.

(* ================================================================== *)
(** ** File names *)
(* ================================================================== *)

Module FileNames.
Import Types TicketFileParser Sync SyncDaemon StringFacts.

Definition is_hyphen (c : ascii) : bool := Ascii.eqb c "-".

(** The characters a sanitized title is made of: [a-z0-9-]. *)
Definition is_slug (c : ascii) : bool :=
  (JsString.is_lower c || JsString.is_digit c || is_hyphen c)%bool.

Definition starts_hyphen (s : string) : bool :=
  match s with
  | String c _ => is_hyphen c
  | EmptyString => false
  end.

(** No two hyphens in a row. *)
Fixpoint no_double (s : string) : bool :=
  match s with
  | String c s' => (negb (is_hyphen c && starts_hyphen s') && no_double s')%bool
  | EmptyString => true
  end.

Lemma all_take p n s : all p s = true -> all p (JsString.take n s) = true.
Proof.
  revert s. induction n as [|n IH]; intros [|c s]; simpl; auto.
  intros H. apply andb_true_iff in H. destruct H as [-> H]. simpl. auto.
Qed.

Lemma length_take n s : (String.length (JsString.take n s) <= n)%nat.
Proof.
  revert s. induction n as [|n IH]; intros [|c s]; simpl; try lia.
  specialize (IH s). lia.
Qed.

Lemma starts_hyphen_take n s :
  starts_hyphen s = false -> starts_hyphen (JsString.take n s) = false.
Proof. destruct n, s; simpl; auto. Qed.

Lemma remove_special_class s :
  all (fun c => (is_slug c || JsString.is_space c)%bool)
      (remove_special s) = true.
Proof.
  induction s as [|c s IH]; simpl; [reflexivity|].
  destruct (JsString.is_lower c || JsString.is_digit c || JsString.is_space c
            || (c =? "-")%char)%bool eqn:E; [|exact IH].
  simpl. rewrite IH, andb_true_r. unfold is_slug, is_hyphen.
  destruct (JsString.is_lower c), (JsString.is_digit c),
    (JsString.is_space c), (c =? "-")%char; simpl in *; congruence.
Qed.

(** Replacing the runs of [p] by hyphens leaves the other characters and
    hyphens. *)
Lemma runs_to_hyphen_class p q in_run s :
  all q s = true ->
  all (fun c => (negb (p c) && q c || is_hyphen c)%bool)
      (runs_to_hyphen p in_run s) = true.
Proof.
  revert in_run. induction s as [|c s IH]; intros in_run H; simpl; [reflexivity|].
  simpl in H. apply andb_true_iff in H. destruct H as [Hc Hs].
  destruct (p c) eqn:Hp.
  - destruct in_run; simpl; [auto|].
    rewrite orb_true_r. simpl. auto.
  - simpl. rewrite Hp, Hc. simpl. auto.
Qed.

Lemma collapse_no_double s : forall in_run,
  no_double (runs_to_hyphen is_hyphen in_run s) = true
  /\ (in_run = true ->
      starts_hyphen (runs_to_hyphen is_hyphen in_run s) = false).
Proof.
  induction s as [|c s IH]; intros in_run; simpl; [auto|].
  destruct (is_hyphen c) eqn:Hc.
  - destruct (IH true) as [Hn Hs]. destruct in_run.
    + auto.
    + simpl. rewrite (Hs eq_refl), Hn. split; [reflexivity|discriminate].
  - destruct (IH false) as [Hn _]. simpl. rewrite Hc, Hn. auto.
Qed.

Lemma strip_hyphens_class p s : all p s = true -> all p (strip_hyphens s) = true.
Proof.
  intros H. unfold strip_hyphens.
  assert (H1 : all p match s with
                     | String "-"%char r => r
                     | _ => s
                     end = true).
  { destruct s as [|c r]; [reflexivity|].
    simpl in H. apply andb_true_iff in H. destruct H as [Hc Hr].
    destruct (ascii_dec c "-") as [->|n]; [exact Hr|].
    replace (match c with "-"%char => r | _ => String c r end)
      with (String c r); [simpl; rewrite Hc; exact Hr|].
    destruct c as [[] [] [] [] [] [] [] []]; try reflexivity. congruence. }
  destruct (JsString.endsWith _ "-"); [apply all_take|]; exact H1.
Qed.

Lemma strip_hyphens_start s :
  no_double s = true -> starts_hyphen (strip_hyphens s) = false.
Proof.
  intros H. unfold strip_hyphens.
  assert (H1 : starts_hyphen match s with
                             | String "-"%char r => r
                             | _ => s
                             end = false).
  { destruct s as [|c r]; [reflexivity|].
    simpl in H. apply andb_true_iff in H. destruct H as [Hc _].
    destruct (ascii_dec c "-") as [->|n].
    - simpl in Hc. destruct (starts_hyphen r); [discriminate|reflexivity].
    - replace (match c with "-"%char => r | _ => String c r end)
        with (String c r);
        [|destruct c as [[] [] [] [] [] [] [] []]; try reflexivity; congruence].
      simpl. unfold is_hyphen. apply Ascii.eqb_neq. exact n. }
  destruct (JsString.endsWith _ "-"); [apply starts_hyphen_take|]; exact H1.
Qed.

Lemma sanitizeTitle_class title : all is_slug (sanitizeTitle title) = true.
Proof.
  unfold sanitizeTitle. apply all_take, strip_hyphens_class.
  eapply all_impl;
    [|apply (runs_to_hyphen_class (fun c => (c =? "-")%char) is_slug)].
  - intros c H. unfold is_slug in *.
    destruct (is_hyphen c); [apply orb_true_r|].
    rewrite orb_false_r in H. apply andb_true_iff in H. tauto.
  - eapply all_impl;
      [|apply (runs_to_hyphen_class JsString.is_space
                 (fun c => (is_slug c || JsString.is_space c)%bool)),
         remove_special_class].
    intros c H. simpl in H. unfold is_slug in *.
    destruct (is_hyphen c); [apply orb_true_r|].
    destruct (JsString.is_space c); simpl in H;
      [discriminate|]. rewrite !orb_false_r in H. rewrite orb_false_r. exact H.
Qed.

Lemma starts_hyphen_strip_take title :
  starts_hyphen (sanitizeTitle title) = false.
Proof.
  unfold sanitizeTitle. apply starts_hyphen_take, strip_hyphens_start.
  apply (collapse_no_double _ false).
Qed.

(** X1: The part of a file name that comes from the title is at most 50
    characters of [a-z0-9-] and does not start with a hyphen. *)
Theorem generated_name_carries_a_slug_of_the_title :
  forall (linearId title : string),
  exists slug,
    generateFilename linearId title None = linearId ++ "-" ++ slug ++ ".md"
    /\ (String.length slug <= 50)%nat
    /\ all is_slug slug = true
    /\ starts_hyphen slug = false.
Proof.
  intros linearId title. exists (sanitizeTitle title).
  split; [reflexivity|]. split; [apply length_take|].
  split; [apply sanitizeTitle_class|apply starts_hyphen_strip_take].
Qed.

(** A ticket identifier as the tracker gives it: a team key of capital
    letters, a hyphen and a number. *)
Definition is_key (key : string) : bool :=
  (all JsString.is_upper key && truthy key)%bool.

Definition is_number (number : string) : bool :=
  (all JsString.is_digit number && truthy number)%bool.

Lemma match_identifier_app key number rest :
  is_key key = true -> is_number number = true ->
  stops JsString.is_digit rest = true ->
  match_identifier (key ++ "-" ++ number ++ rest) = Some (key, number, rest).
Proof.
  intros Hk Hn Hr. apply andb_true_iff in Hk, Hn.
  destruct Hk as [Hk Hk'], Hn as [Hn Hn']. unfold match_identifier.
  rewrite (span_app JsString.is_upper key ("-" ++ number ++ rest) Hk eq_refl).
  rewrite Hk'. change ("-" ++ number ++ rest) with (String "-" (number ++ rest)).
  cbv iota. rewrite (span_app JsString.is_digit number rest Hn Hr), Hn'.
  reflexivity.
Qed.

Definition not_slash (c : ascii) : bool := negb (Ascii.eqb c "/").

Lemma basename_go_plain cur s :
  all not_slash s = true -> basename_go cur s = cur ++ s.
Proof.
  revert cur. induction s as [|c s IH]; intros cur H; simpl.
  - symmetry. apply append_nil_r.
  - simpl in H. apply andb_true_iff in H. destruct H as [Hc Hs].
    unfold not_slash in Hc. apply negb_true_iff in Hc. rewrite Hc.
    rewrite (IH _ Hs), Codec.append_assoc. reflexivity.
Qed.

Lemma basename_go_dir cur dir s :
  basename_go cur (dir ++ "/" ++ s) = basename_go "" s.
Proof.
  revert cur. induction dir as [|c dir IH]; intros cur; simpl; [reflexivity|].
  destruct (c =? "/")%char; apply IH.
Qed.

Lemma basename_of_path dir file :
  all not_slash file = true -> basename (dir ++ "/" ++ file) = file.
Proof.
  intros H. unfold basename. rewrite basename_go_dir.
  apply (basename_go_plain "" file H).
Qed.

Ltac by_cases_on c :=
  destruct c as [[] [] [] [] [] [] [] []]; try reflexivity; discriminate.

Lemma upper_not_slash c : JsString.is_upper c = true -> not_slash c = true.
Proof. by_cases_on c. Qed.

Lemma digit_not_slash c : JsString.is_digit c = true -> not_slash c = true.
Proof. by_cases_on c. Qed.

Lemma slug_not_slash c : is_slug c = true -> not_slash c = true.
Proof. by_cases_on c. Qed.

Lemma slug_not_E c : is_slug c = true -> c <> "E"%char.
Proof. intros H ->. discriminate. Qed.

(** A string of slug characters behind a hyphen ends in a slug
    character. *)
Lemma last_of_slug s :
  all is_slug s = true ->
  exists pre c, "-" ++ s = pre ++ String c "" /\ is_slug c = true.
Proof.
  assert (G : forall s c0, is_slug c0 = true -> all is_slug s = true ->
              exists pre c, String c0 s = pre ++ String c "" /\ is_slug c = true).
  { clear. induction s as [|c s IH]; intros c0 H0 H.
    - exists "", c0. auto.
    - simpl in H. apply andb_true_iff in H. destruct H as [Hc Hs].
      destruct (IH c Hc Hs) as (pre & c1 & E & H1).
      exists (String c0 pre), c1. simpl. rewrite E. auto. }
  intros H. apply (G s "-"%char eq_refl H).
Qed.

(** A generated name does not end in [README.md]. *)
Lemma not_a_readme front slug :
  all is_slug slug = true ->
  JsString.endsWith (front ++ "-" ++ slug ++ ".md") "README.md" = false.
Proof.
  intros H. destruct (JsString.endsWith _ "README.md") eqn:E; [|reflexivity].
  exfalso. apply endsWith_split in E. destruct E as [a E].
  destruct (last_of_slug slug H) as (pre & c & Hpre & Hc).
  assert (E' : (front ++ pre) ++ String c ".md" = (a ++ "READM") ++ "E.md").
  { transitivity (front ++ "-" ++ slug ++ ".md").
    - rewrite Codec.append_assoc. f_equal.
      change (String c ".md") with (String c "" ++ ".md").
      rewrite <- Codec.append_assoc, <- Hpre. reflexivity.
    - rewrite E, Codec.append_assoc. reflexivity. }
  apply app_inj_suffix in E'; [|reflexivity].
  destruct E' as [_ E']. injection E' as ->. discriminate.
Qed.

Definition not_hyphen (c : ascii) : bool := negb (is_hyphen c).

Lemma split_go_plain cur s :
  all not_hyphen s = true -> JsString.split_go "-" 0 cur s = [cur ++ s].
Proof.
  revert cur. induction s as [|c s IH]; intros cur H.
  - simpl. rewrite append_nil_r. reflexivity.
  - simpl in H. apply andb_true_iff in H. destruct H as [Hc Hs].
    unfold not_hyphen, is_hyphen in Hc. apply negb_true_iff, Ascii.eqb_neq in Hc.
    cbn [JsString.split_go JsString.startsWith prefix].
    destruct (ascii_dec "-" c) as [E|_]; [congruence|].
    rewrite (IH _ Hs), Codec.append_assoc. reflexivity.
Qed.

Lemma split_go_hyphen cur a b :
  all not_hyphen a = true ->
  JsString.split_go "-" 0 cur (a ++ String "-" b)
  = (cur ++ a) :: JsString.split_go "-" 0 "" b.
Proof.
  revert cur. induction a as [|c a IH]; intros cur H.
  - cbn [append JsString.split_go JsString.startsWith prefix].
    replace (prefix "" b) with true by (destruct b; reflexivity).
    rewrite append_nil_r. reflexivity.
  - simpl in H. apply andb_true_iff in H. destruct H as [Hc Hs].
    unfold not_hyphen, is_hyphen in Hc. apply negb_true_iff, Ascii.eqb_neq in Hc.
    cbn [append JsString.split_go JsString.startsWith prefix].
    destruct (ascii_dec "-" c) as [E|_]; [congruence|].
    rewrite (IH _ Hs), Codec.append_assoc. reflexivity.
Qed.

Lemma upper_not_hyphen c : JsString.is_upper c = true -> not_hyphen c = true.
Proof. by_cases_on c. Qed.

Lemma digit_not_hyphen c : JsString.is_digit c = true -> not_hyphen c = true.
Proof. by_cases_on c. Qed.

(** [linearId.split('-')[1]] is the number of the identifier. *)
Lemma childNumber_of_identifier key number :
  is_key key = true -> is_number number = true ->
  nth 1 (JsString.split (key ++ "-" ++ number) "-") "undefined" = number.
Proof.
  intros Hk Hn. apply andb_true_iff in Hk, Hn.
  destruct Hk as [Hk _], Hn as [Hn _]. unfold JsString.split.
  change (key ++ "-" ++ number) with (key ++ String "-" number).
  rewrite split_go_hyphen by (eapply all_impl; [apply upper_not_hyphen|exact Hk]).
  rewrite split_go_plain by (eapply all_impl; [apply digit_not_hyphen|exact Hn]).
  reflexivity.
Qed.

Lemma truthy_app a b : truthy a = true -> truthy (a ++ b) = true.
Proof. destruct a; [discriminate|reflexivity]. Qed.

Section Names.
Variables key number title : string.
Hypothesis Hkey : is_key key = true.
Hypothesis Hnumber : is_number number = true.

Lemma regular_shape :
  generateFilename (key ++ "-" ++ number) title None
  = key ++ "-" ++ number ++ "-" ++ sanitizeTitle title ++ ".md".
Proof.
  unfold generateFilename. cbv zeta. rewrite Codec.append_assoc. reflexivity.
Qed.

Lemma child_shape pkey pnumber :
  is_key pkey = true ->
  generateFilename (key ++ "-" ++ number) title (Some (pkey ++ "-" ++ pnumber))
  = pkey ++ "-" ++ pnumber ++ "." ++ number ++ "-" ++ sanitizeTitle title ++ ".md".
Proof.
  intros Hp. unfold generateFilename. cbv zeta.
  apply andb_true_iff in Hp. destruct Hp as [_ Hp].
  rewrite (truthy_app pkey _ Hp), (childNumber_of_identifier _ _ Hkey Hnumber).
  rewrite Codec.append_assoc. reflexivity.
Qed.

Lemma identifier_not_slash : all not_slash (key ++ "-" ++ number) = true.
Proof.
  apply andb_true_iff in Hkey, Hnumber.
  destruct Hkey as [Hk _], Hnumber as [Hn _].
  rewrite all_app. apply andb_true_iff. split.
  - eapply all_impl; [apply upper_not_slash|exact Hk].
  - simpl. eapply all_impl; [apply digit_not_slash|exact Hn].
Qed.

Lemma number_not_slash : all not_slash number = true.
Proof.
  apply andb_true_iff in Hnumber. destruct Hnumber as [Hn _].
  eapply all_impl; [apply digit_not_slash|exact Hn].
Qed.

Lemma tail_not_slash : all not_slash ("-" ++ sanitizeTitle title ++ ".md") = true.
Proof.
  simpl. rewrite all_app. apply andb_true_iff. split; [|reflexivity].
  eapply all_impl; [apply slug_not_slash|apply sanitizeTitle_class].
Qed.

End Names.

Lemma extract_regular key number title :
  is_key key = true -> is_number number = true ->
  extractLinearIdFromFilename
    (generateFilename (key ++ "-" ++ number) title None)
  = Some (key ++ "-" ++ number).
Proof.
  intros Hk Hn. rewrite regular_shape. unfold extractLinearIdFromFilename.
  rewrite (match_identifier_app key number ("-" ++ sanitizeTitle title ++ ".md") Hk Hn eq_refl).
  reflexivity.
Qed.

Lemma names_ticket_regular key number title ticketId :
  is_key key = true -> is_number number = true ->
  names_ticket ticketId (generateFilename (key ++ "-" ++ number) title None)
  = String.eqb (JsString.toLowerCase (key ++ "-" ++ number))
               (JsString.toLowerCase ticketId).
Proof.
  intros Hk Hn. unfold names_ticket. rewrite (extract_regular _ _ _ Hk Hn).
  replace (JsString.endsWith _ ".md") with true; [reflexivity|].
  symmetry. rewrite regular_shape. repeat apply endsWith_app_r. reflexivity.
Qed.

(** X2: The name [generateFilename] gives the file of a ticket without
    parent reads back as the ticket's identifier, and [findTicketFile]
    takes the file for the ticket's, whatever the case of the id asked
    for. *)
Theorem regular_name_reads_back_the_identifier :
  forall (key number title ticketId : string),
    is_key key = true -> is_number number = true ->
    let linearId := key ++ "-" ++ number in
    let file := generateFilename linearId title None in
    extractLinearIdFromFilename file = Some linearId
    /\ names_ticket ticketId file
       = String.eqb (JsString.toLowerCase linearId)
                    (JsString.toLowerCase ticketId).
Proof.
  intros key number title ticketId Hk Hn linearId file. split.
  - apply extract_regular; assumption.
  - apply names_ticket_regular; assumption.
Qed.

Lemma regular_name_witness :
  extractLinearIdFromFilename (generateFilename "PAP-447" "Implement feature" None)
  = Some "PAP-447"
  /\ names_ticket "pap-447" (generateFilename "PAP-447" "Implement feature" None)
     = true.
Proof.
  exact (regular_name_reads_back_the_identifier
           "PAP" "447" "Implement feature" "pap-447" eq_refl eq_refl).
Defined.

(** X3: The daemon reads the same identifier off such a name: when it
    looks for the file of a removed ticket and when it takes the key of a
    file event. *)
Theorem regular_name_gives_the_daemon_the_identifier :
  forall (key number title dir : string),
    is_key key = true -> is_number number = true ->
    let linearId := key ++ "-" ++ number in
    let file := generateFilename linearId title None in
    extractTicketIdFromFilename file = linearId
    /\ debounceKey (dir ++ "/" ++ file) = Some linearId.
Proof.
  intros key number title dir Hk Hn linearId file.
  subst file linearId. rewrite regular_shape. split.
  - unfold extractTicketIdFromFilename.
    rewrite (match_identifier_app key number ("-" ++ sanitizeTitle title ++ ".md") Hk Hn eq_refl). reflexivity.
  - unfold debounceKey.
    replace (JsString.endsWith _ ".md") with true
      by (symmetry; repeat apply endsWith_app_r; reflexivity).
    replace (JsString.endsWith _ "README.md") with false.
    + cbn [negb orb]. rewrite basename_of_path.
      * rewrite (match_identifier_app key number ("-" ++ sanitizeTitle title ++ ".md") Hk Hn eq_refl). reflexivity.
      * replace (key ++ "-" ++ number ++ "-" ++ sanitizeTitle title ++ ".md")
          with ((key ++ "-" ++ number) ++ "-" ++ sanitizeTitle title ++ ".md")
          by (rewrite Codec.append_assoc; reflexivity).
        rewrite all_app, (identifier_not_slash key number Hk Hn).
        apply (tail_not_slash title).
    + symmetry.
      replace (dir ++ "/" ++ key ++ "-" ++ number ++ "-" ++ sanitizeTitle title ++ ".md")
        with ((dir ++ "/" ++ key ++ "-" ++ number) ++ "-" ++ sanitizeTitle title ++ ".md")
        by (repeat (rewrite ?Codec.append_assoc; cbn [append]); reflexivity).
      apply not_a_readme, sanitizeTitle_class.
Qed.

Lemma regular_name_daemon_witness :
  extractTicketIdFromFilename (generateFilename "PAP-447" "Implement feature" None)
  = "PAP-447"
  /\ debounceKey ("/repo/linear-tickets/todo" ++ "/"
                  ++ generateFilename "PAP-447" "Implement feature" None)
     = Some "PAP-447".
Proof.
  exact (regular_name_gives_the_daemon_the_identifier
           "PAP" "447" "Implement feature" "/repo/linear-tickets/todo"
           eq_refl eq_refl).
Defined.

(** X4: The file of a child ticket is named after the parent and the
    child's number, and the three readers of names disagree on it:
    [extractLinearIdFromFilename] gives the parent's team key with the
    child's number (the child's identifier when both are of one team),
    the daemon's [extractTicketIdFromFilename] gives parent and number
    joined by a dot, and the key of a file event is the parent's
    identifier. *)
Theorem child_name_reads_back_three_ways :
  forall (key number pkey pnumber title dir : string),
    is_key key = true -> is_number number = true ->
    is_key pkey = true -> is_number pnumber = true ->
    let linearId := key ++ "-" ++ number in
    let parentId := pkey ++ "-" ++ pnumber in
    let file := generateFilename linearId title (Some parentId) in
    extractLinearIdFromFilename file = Some (pkey ++ "-" ++ number)
    /\ extractTicketIdFromFilename file = parentId ++ "." ++ number
    /\ debounceKey (dir ++ "/" ++ file) = Some parentId.
Proof.
  intros key number pkey pnumber title dir Hk Hn Hpk Hpn linearId parentId file.
  assert (Hnum : TicketFileParser.span JsString.is_digit
                   (number ++ "-" ++ sanitizeTitle title ++ ".md")
                 = (number, "-" ++ sanitizeTitle title ++ ".md")).
  { apply andb_true_iff in Hn. apply span_app; [tauto|reflexivity]. }
  assert (Htruthy : truthy number = true)
    by (apply andb_true_iff in Hn; tauto).
  subst file linearId parentId. rewrite (child_shape _ _ _ Hk Hn _ _ Hpk).
  split; [|split].
  - unfold extractLinearIdFromFilename.
    rewrite (match_identifier_app pkey pnumber ("." ++ number ++ "-" ++ sanitizeTitle title ++ ".md") Hpk Hpn eq_refl).
    change ("." ++ number ++ "-" ++ sanitizeTitle title ++ ".md")
      with (String "." (number ++ "-" ++ sanitizeTitle title ++ ".md")).
    cbv beta iota. rewrite Hnum, Htruthy. reflexivity.
  - unfold extractTicketIdFromFilename.
    rewrite (match_identifier_app pkey pnumber ("." ++ number ++ "-" ++ sanitizeTitle title ++ ".md") Hpk Hpn eq_refl).
    change ("." ++ number ++ "-" ++ sanitizeTitle title ++ ".md")
      with (String "." (number ++ "-" ++ sanitizeTitle title ++ ".md")).
    cbv beta iota. rewrite Hnum, Htruthy.
    rewrite !Codec.append_assoc. reflexivity.
  - unfold debounceKey.
    replace (JsString.endsWith _ ".md") with true
      by (symmetry; repeat apply endsWith_app_r; reflexivity).
    replace (JsString.endsWith _ "README.md") with false.
    + cbn [negb orb]. rewrite basename_of_path.
      * rewrite (match_identifier_app pkey pnumber ("." ++ number ++ "-" ++ sanitizeTitle title ++ ".md") Hpk Hpn eq_refl).
        reflexivity.
      * replace (pkey ++ "-" ++ pnumber ++ "." ++ number ++ "-"
                 ++ sanitizeTitle title ++ ".md")
          with ((pkey ++ "-" ++ pnumber)
                ++ "." ++ number ++ "-" ++ sanitizeTitle title ++ ".md")
          by (rewrite Codec.append_assoc; reflexivity).
        rewrite all_app, (identifier_not_slash pkey pnumber Hpk Hpn).
        change ("." ++ number ++ "-" ++ sanitizeTitle title ++ ".md")
          with (String "." (number ++ "-" ++ sanitizeTitle title ++ ".md")).
        cbn [all andb]. rewrite all_app, (number_not_slash number Hn).
        apply (tail_not_slash title).
    + symmetry.
      replace (dir ++ "/" ++ pkey ++ "-" ++ pnumber ++ "." ++ number ++ "-"
               ++ sanitizeTitle title ++ ".md")
        with ((dir ++ "/" ++ pkey ++ "-" ++ pnumber ++ "." ++ number)
              ++ "-" ++ sanitizeTitle title ++ ".md")
        by (repeat (rewrite ?Codec.append_assoc; cbn [append]); reflexivity).
      apply not_a_readme, sanitizeTitle_class.
Qed.

Lemma child_name_witness :
  extractLinearIdFromFilename
    (generateFilename "PAP-447" "Child task" (Some "ENG-434"))
  = Some "ENG-447"
  /\ extractTicketIdFromFilename
       (generateFilename "PAP-447" "Child task" (Some "ENG-434"))
     = "ENG-434.447"
  /\ debounceKey ("/repo/linear-tickets/todo" ++ "/"
                  ++ generateFilename "PAP-447" "Child task" (Some "ENG-434"))
     = Some "ENG-434".
Proof.
  exact (child_name_reads_back_three_ways
           "PAP" "447" "ENG" "434" "Child task" "/repo/linear-tickets/todo"
           eq_refl eq_refl eq_refl eq_refl).
Defined.

End FileNames.

(* ================================================================== *)
(** ** Pull: every case of the local file *)
(* ================================================================== *)

Module PullCases.
Import Types Sync TreeFacts PullMove.

Lemma path_eqb_eq a b : Fs.path_eqb a b = true -> a = b.
Proof.
  unfold Fs.path_eqb. intros H. apply andb_true_iff in H.
  destruct H as [H1 H2]. apply String.eqb_eq in H1, H2.
  destruct a, b. simpl in *. congruence.
Qed.

Lemma path_eqb_neq a b : Fs.path_eqb a b = false -> a <> b.
Proof.
  intros H ->. unfold Fs.path_eqb in H. rewrite !String.eqb_refl in H.
  discriminate.
Qed.

Lemma lookup_without_file existing t p :
  well_formed t ->
  Fs.lookup p (without_file existing t)
  = if path_dec p existing then None else Fs.lookup p t.
Proof.
  intros Hwf. unfold without_file.
  destruct (Fs.assoc (fst existing) t) as [files|] eqn:Hd.
  - rewrite lookup_set_folder. destruct (path_dec p existing) as [->|Hne].
    + rewrite String.eqb_refl. apply assoc_remove_same.
      eapply well_formed_folder; eauto.
    + destruct (String.eqb_spec (fst p) (fst existing)) as [E|E]; [|reflexivity].
      rewrite assoc_remove_other.
      * unfold Fs.lookup. rewrite E, Hd. reflexivity.
      * intros E'. apply Hne. destruct p, existing. simpl in *. congruence.
  - destruct (path_dec p existing) as [->|Hne]; [|reflexivity].
    unfold Fs.lookup. rewrite Hd. reflexivity.
Qed.

(** The tree once [pullSingleTicket] has removed the file it found, if
    that is not the file it is about to write. *)
Definition cleared (existing : option Fs.Path) (newFilePath : Fs.Path)
    (t : list (string * Folder)) : list (string * Folder) :=
  match existing with
  | Some e => if Fs.path_eqb e newFilePath then t else without_file e t
  | None => t
  end.

(** The tree with the folder made if need be and the file written. *)
Definition written (newFilePath : Fs.Path) (entry : FileEntry)
    (t : list (string * Folder)) : list (string * Folder) :=
  let t2 := Fs.mkdir (fst newFilePath) t in
  match Fs.assoc (fst newFilePath) t2 with
  | Some files =>
      Fs.assoc_set (fst newFilePath) (Fs.assoc_set (snd newFilePath) entry files) t2
  | None => t2
  end.

Lemma lookup_cleared existing newFilePath t p :
  well_formed t -> p <> newFilePath ->
  Fs.lookup p (cleared existing newFilePath t)
  = match existing with
    | Some e => if path_dec p e then None else Fs.lookup p t
    | None => Fs.lookup p t
    end.
Proof.
  intros Hwf Hp. unfold cleared. destruct existing as [e|]; [|reflexivity].
  destruct (Fs.path_eqb e newFilePath) eqn:E.
  - apply path_eqb_eq in E. subst e.
    destruct (path_dec p newFilePath); [contradiction|reflexivity].
  - apply lookup_without_file, Hwf.
Qed.

Lemma lookup_written newFilePath entry t p :
  Fs.lookup p (written newFilePath entry t)
  = if path_dec p newFilePath then Some entry else Fs.lookup p t.
Proof.
  unfold written. cbv zeta.
  destruct (mkdir_exists (fst newFilePath) t) as [files Hf]. rewrite Hf.
  rewrite lookup_set_folder. destruct (path_dec p newFilePath) as [->|Hne].
  - rewrite String.eqb_refl. apply assoc_set_same.
  - destruct (String.eqb_spec (fst p) (fst newFilePath)) as [E|E].
    + rewrite assoc_set_other.
      * rewrite <- (lookup_mkdir p (fst newFilePath) t).
        unfold Fs.lookup. rewrite E, Hf. reflexivity.
      * intros E'. apply Hne. destruct p, newFilePath. simpl in *. congruence.
    + apply lookup_mkdir.
Qed.

Lemma found_exists ticketId t e :
  well_formed t -> find_in_tree ticketId t = Some e ->
  exists files f,
    Fs.assoc (fst e) t = Some files /\ Fs.assoc (snd e) files = Some f.
Proof.
  intros Hwf Hfind. rewrite find_in_tree_first in Hfind.
  assert (Hin : In e (all_paths t)).
  { destruct (files_for ticketId t) as [|x l] eqn:E; [discriminate|].
    injection Hfind as ->.
    assert (H : In e (files_for ticketId t)) by (rewrite E; simpl; auto).
    unfold files_for in H. apply filter_In in H. tauto. }
  destruct (in_all_paths_lookup e t Hwf Hin) as [f Hf].
  unfold Fs.lookup in Hf.
  destruct (Fs.assoc (fst e) t) as [files|]; [|discriminate].
  exists files, f. auto.
Qed.

Section Write.
Context {P : Platform}.
Variable config : LinearSyncConfig.

(** What [pullSingleTicket] does once it has the issue, when the state
    is mapped and the ticket converts. *)
Lemma run_writeTicket issue w1 statusFolder ticket text :
  well_formed (tree w1) ->
  findStatusFolder (Linear.state_name (Linear.state issue)) config
  = Some statusFolder ->
  truthy statusFolder = true ->
  convertLinearIssueToTicket issue = Returned ticket ->
  TicketFileParser.generateFile ticket = Returned text ->
  let newFilePath : Fs.Path :=
    (statusFolder,
     TicketFileParser.generateFilename
       (Linear.identifier issue) (Linear.title issue) (Linear.parent issue)) in
  run (writeTicket config issue) w1
  = (set_tree
       (written newFilePath {| bytes := text; mtime := clock w1 |}
          (cleared (find_in_tree (Linear.identifier issue) (tree w1))
                   newFilePath (tree w1))) w1,
     Returned tt).
Proof.
  intros Hwf Hfolder Htruthy Hconv Hgen newFilePath.
  unfold writeTicket, findTicketFile.
  rewrite run_bind, run_gets, Hfolder, Htruthy. cbv zeta. cbn [negb].
  rewrite run_bind, run_lift, Hconv, run_bind, run_lift, Hgen, run_bind.
  fold newFilePath.
  assert (Hclear :
    run match find_in_tree (Linear.identifier issue) (tree w1) with
        | Some existing =>
            if negb (Fs.path_eqb existing newFilePath)
            then Fs.unlinkSync existing
            else Ret tt
        | None => Ret tt
        end w1
    = (set_tree (cleared (find_in_tree (Linear.identifier issue) (tree w1))
                         newFilePath (tree w1)) w1, Returned tt)).
  { unfold cleared.
    destruct (find_in_tree (Linear.identifier issue) (tree w1)) as [e|] eqn:Hfind;
      [|destruct w1; reflexivity].
    destruct (Fs.path_eqb e newFilePath); cbn [negb];
      [destruct w1; reflexivity|].
    destruct (found_exists _ _ _ Hwf Hfind) as (files & f & Hd & Hf).
    rewrite (run_unlinkSync e w1 files f Hd Hf).
    unfold without_file. rewrite Hd. reflexivity. }
  rewrite Hclear, run_bind, run_modify.
  set (t1 := cleared _ newFilePath (tree w1)).
  unfold written. cbv zeta. cbn [tree set_tree].
  destruct (mkdir_exists statusFolder t1) as [files' Hfiles'].
  erewrite PushDiff.run_writeFileSync by (cbn [tree set_tree fst]; exact Hfiles').
  cbn [fst snd newFilePath]. rewrite Hfiles'. reflexivity.
Qed.

(** What [pullSingleTicket] works out between the fetch and its first
    file operation: the folder of the state, the name of the file and
    the text to write. It throws for a state the configuration gives no
    folder, and when the issue does not convert or its file does not
    generate. *)
Definition prepared (issue : Linear.Issue) : Outcome (Fs.Path * string) :=
  match findStatusFolder (Linear.state_name (Linear.state issue)) config with
  | None =>
      Threw (Err ("Unknown Linear state " ++ dquote
                  ++ Linear.state_name (Linear.state issue) ++ dquote
                  ++ " not in config"))
  | Some statusFolder =>
      if negb (truthy statusFolder)
      then Threw (Err ("Unknown Linear state " ++ dquote
                       ++ Linear.state_name (Linear.state issue) ++ dquote
                       ++ " not in config"))
      else
        match convertLinearIssueToTicket issue with
        | Threw e => Threw e
        | Returned ticket =>
            match TicketFileParser.generateFile ticket with
            | Threw e => Threw e
            | Returned text =>
                Returned
                  ((statusFolder,
                    TicketFileParser.generateFilename
                      (Linear.identifier issue) (Linear.title issue)
                      (Linear.parent issue)),
                   text)
            end
        end
  end.

(** When that throws, the pull throws the same before it has touched a
    file. *)
Lemma writeTicket_not_prepared issue w1 e :
  prepared issue = Threw e ->
  run (writeTicket config issue) w1 = (w1, Threw e).
Proof.
  unfold prepared, writeTicket, findTicketFile. rewrite run_bind, run_gets.
  destruct (findStatusFolder _ config) as [statusFolder|];
    [|intros H; injection H as <-; reflexivity].
  destruct (negb (truthy statusFolder));
    [intros H; injection H as <-; reflexivity|]. cbv zeta.
  rewrite run_bind, run_lift.
  destruct (convertLinearIssueToTicket issue) as [ticket|e1];
    [|intros H; injection H as <-; reflexivity].
  rewrite run_bind, run_lift.
  destruct (TicketFileParser.generateFile ticket) as [text|e1];
    [discriminate|intros H; injection H as <-; reflexivity].
Qed.

End Write.

(** X5: Whatever file the ticket has, a pull that goes through writes the
    ticket's file at the place its state and title give it, removes the
    file it found for the ticket if that lies elsewhere, and leaves every
    other path as it was; it writes nothing to the tracker. *)
Theorem pull_writes_one_path_and_removes_at_most_one :
  forall (P : Platform) (config : LinearSyncConfig) (w : World)
         (ticketId : string) (w1 : World) (issue : Linear.Issue)
         (statusFolder : string) (ticket : TicketFile) (text : string),
    run (LinearSyncClient.getIssue ticketId) w = (w1, Returned issue) ->
    well_formed (tree w) ->
    findStatusFolder (Linear.state_name (Linear.state issue)) config
    = Some statusFolder ->
    truthy statusFolder = true ->
    convertLinearIssueToTicket issue = Returned ticket ->
    TicketFileParser.generateFile ticket = Returned text ->
    let existing := find_in_tree (Linear.identifier issue) (tree w) in
    let newFilePath : Fs.Path :=
      (statusFolder,
       TicketFileParser.generateFilename
         (Linear.identifier issue) (Linear.title issue) (Linear.parent issue)) in
    exists w2,
      run (pullSingleTicket config ticketId) w = (w2, Returned tt)
      /\ Fs.lookup newFilePath (tree w2)
         = Some {| bytes := text; mtime := clock w1 |}
      /\ (forall p, p <> newFilePath -> existing = Some p ->
                    Fs.lookup p (tree w2) = None)
      /\ (forall p, p <> newFilePath -> existing <> Some p ->
                    Fs.lookup p (tree w2) = Fs.lookup p (tree w))
      /\ issues w2 = issues w
      /\ updates w2 = updates w.
Proof.
  intros P config w ticketId w1 issue statusFolder ticket text
         Hget Hwf Hfolder Htruthy Hconv Hgen existing newFilePath.
  pose proof (Frames.getIssue_keeps_tree ticketId w) as Ht.
  pose proof (Frames.getIssue_keeps_tracker ticketId w) as (Hi & Hu & _).
  rewrite Hget in Ht, Hi, Hu. cbn [fst] in Ht, Hi, Hu.
  unfold Frames.keeps_tree in Ht.
  assert (Hwf1 : well_formed (tree w1)) by (rewrite Ht; exact Hwf).
  eexists. split.
  - unfold pullSingleTicket. rewrite run_bind, Hget.
    apply (run_writeTicket config issue w1 statusFolder ticket text
             Hwf1 Hfolder Htruthy Hconv Hgen).
  - cbn [tree set_tree issues updates]. rewrite Ht. fold existing newFilePath.
    split; [|split; [|split; [|split]]]; try assumption.
    + rewrite lookup_written.
      destruct (path_dec newFilePath newFilePath); [reflexivity|contradiction].
    + intros p Hp He. rewrite lookup_written.
      destruct (path_dec p newFilePath); [contradiction|].
      rewrite (lookup_cleared existing newFilePath (tree w) p Hwf Hp), He.
      destruct (path_dec p p); [reflexivity|contradiction].
    + intros p Hp He. rewrite lookup_written.
      destruct (path_dec p newFilePath); [contradiction|].
      rewrite (lookup_cleared existing newFilePath (tree w) p Hwf Hp).
      destruct existing as [e|]; [|reflexivity].
      destruct (path_dec p e); [congruence|reflexivity].
Qed.

(** X6: A pull that fails at the fetch, on a state that has no folder, or
    because the issue does not convert or its file does not generate,
    throws before its first file operation: the error is the one met,
    no file has changed and nothing was written to the tracker. *)
Theorem pull_that_stops_before_its_file_operations_changes_nothing :
  forall (P : Platform) (config : LinearSyncConfig) (w : World)
         (ticketId : string),
    let fetched := run (LinearSyncClient.getIssue ticketId) w in
    tree (fst fetched) = tree w
    /\ issues (fst fetched) = issues w
    /\ updates (fst fetched) = updates w
    /\ match snd fetched with
       | Threw e =>
           run (pullSingleTicket config ticketId) w = (fst fetched, Threw e)
       | Returned issue =>
           forall e, prepared config issue = Threw e ->
                     run (pullSingleTicket config ticketId) w
                     = (fst fetched, Threw e)
       end.
Proof.
  intros P config w ticketId fetched.
  pose proof (Frames.getIssue_keeps_tree ticketId w) as Ht.
  pose proof (Frames.getIssue_keeps_tracker ticketId w) as (Hi & Hu & _).
  unfold Frames.keeps_tree in Ht. fold fetched in Ht, Hi, Hu.
  split; [exact Ht|]. split; [exact Hi|]. split; [exact Hu|].
  unfold pullSingleTicket. rewrite run_bind. fold fetched.
  destruct fetched as [w1 [issue|e1]]; cbn [fst snd]; [|reflexivity].
  intros e He. apply writeTicket_not_prepared. exact He.
Qed.

Lemma written_well_formed newFilePath entry t :
  well_formed t -> well_formed (written newFilePath entry t).
Proof.
  intros Hwf. unfold written. cbv zeta.
  pose proof (well_formed_mkdir (fst newFilePath) t Hwf) as Hwf2.
  destruct (Fs.assoc (fst newFilePath) (Fs.mkdir (fst newFilePath) t))
    as [files|] eqn:Hf; [|exact Hwf2].
  apply well_formed_set_folder; [exact Hwf2|].
  apply distinct_assoc_set. eapply well_formed_folder; eauto.
Qed.

Lemma cleared_well_formed existing newFilePath t :
  well_formed t -> well_formed (cleared existing newFilePath t).
Proof.
  intros Hwf. unfold cleared. destruct existing as [e|]; [|exact Hwf].
  destruct (Fs.path_eqb e newFilePath); [exact Hwf|].
  apply without_file_well_formed, Hwf.
Qed.

Lemma in_files_for ticketId t p :
  well_formed t ->
  (In p (files_for ticketId t)
   <-> names_ticket ticketId (snd p) = true /\ Fs.lookup p t <> None).
Proof.
  intros Hwf. unfold files_for. rewrite filter_In. split.
  - intros [Hin Hn]. split; [exact Hn|].
    destruct (in_all_paths_lookup p t Hwf Hin) as [f ->]. discriminate.
  - intros [Hn Hl]. split; [|exact Hn].
    destruct (Fs.lookup p t) as [f|] eqn:E; [|congruence].
    eapply lookup_in_all_paths; eauto.
Qed.

Lemma singleton {A : Type} (l : list A) (a : A) :
  NoDup l -> In a l -> (forall x, In x l -> x = a) -> l = [a].
Proof.
  intros Hnd Hin Hall. destruct l as [|x [|y l]].
  - destruct Hin.
  - rewrite (Hall x); simpl; auto.
  - exfalso. inversion Hnd as [|? ? Hn _]; subst. apply Hn.
    rewrite (Hall x), (Hall y); simpl; auto.
Qed.

Lemma files_for_distinct ticketId t :
  well_formed t -> NoDup (files_for ticketId t).
Proof. intros Hwf. apply NoDup_filter, all_paths_distinct, Hwf. Qed.

Lemma all_paths_set_folder d files files' t :
  Fs.assoc d t = Some files -> map fst files' = map fst files ->
  all_paths (Fs.assoc_set d files' t) = all_paths t.
Proof.
  intros Hd Hm. unfold all_paths. induction t as [|[d0 fs0] t IH];
    simpl in *; [discriminate|].
  destruct (String.eqb_spec d0 d) as [->|Hne].
  - injection Hd as ->. simpl. f_equal.
    rewrite <- !(map_map fst (fun n => (d, n))). rewrite Hm. reflexivity.
  - simpl. f_equal. apply IH, Hd.
Qed.

Lemma mkdir_same d t files : Fs.assoc d t = Some files -> Fs.mkdir d t = t.
Proof. intros H. unfold Fs.mkdir, Fs.existsDir. rewrite H. reflexivity. Qed.

(** Writing a file that is there adds no path. *)
Lemma written_existing_paths newFilePath entry t f :
  Fs.lookup newFilePath t = Some f ->
  all_paths (written newFilePath entry t) = all_paths t.
Proof.
  intros Hl. unfold Fs.lookup in Hl.
  destruct (Fs.assoc (fst newFilePath) t) as [files|] eqn:Hd; [|discriminate].
  unfold written. cbv zeta. rewrite (mkdir_same _ _ _ Hd), Hd.
  apply (all_paths_set_folder _ files); [exact Hd|].
  apply map_fst_assoc_set_in. apply assoc_in in Hl.
  change (snd newFilePath) with (fst (snd newFilePath, f)). apply in_map, Hl.
Qed.

(** X7: Pulling a ticket again, with nothing changed on the tracker, finds
    the file the first pull wrote and writes the same bytes over it: no
    path is added or removed and the ticket keeps its single file. It
    takes a ticket without parent, a regular identifier and at most one
    file of the ticket before the first pull. *)
Theorem second_pull_rewrites_the_file_of_the_first :
  forall (P : Platform) (config : LinearSyncConfig) (w : World)
         (ticketId : string) (w1 : World) (issue : Linear.Issue)
         (statusFolder : string) (ticket : TicketFile) (text : string)
         (key number : string) (w3 : World) (issue' : Linear.Issue),
    run (LinearSyncClient.getIssue ticketId) w = (w1, Returned issue) ->
    well_formed (tree w) ->
    (List.length (files_for (Linear.identifier issue) (tree w)) <= 1)%nat ->
    Linear.identifier issue = key ++ "-" ++ number ->
    FileNames.is_key key = true ->
    FileNames.is_number number = true ->
    Linear.parent issue = None ->
    findStatusFolder (Linear.state_name (Linear.state issue)) config
    = Some statusFolder ->
    truthy statusFolder = true ->
    convertLinearIssueToTicket issue = Returned ticket ->
    TicketFileParser.generateFile ticket = Returned text ->
    let w2 := fst (run (pullSingleTicket config ticketId) w) in
    run (LinearSyncClient.getIssue ticketId) w2 = (w3, Returned issue') ->
    let newFilePath : Fs.Path :=
      (statusFolder,
       TicketFileParser.generateFilename
         (Linear.identifier issue) (Linear.title issue) None) in
    exists w4,
      run (pullSingleTicket config ticketId) w2 = (w4, Returned tt)
      /\ files_for (Linear.identifier issue) (tree w2) = [newFilePath]
      /\ all_paths (tree w4) = all_paths (tree w2)
      /\ (forall p, option_map bytes (Fs.lookup p (tree w4))
                    = option_map bytes (Fs.lookup p (tree w2))).
Proof.
  intros P config w ticketId w1 issue statusFolder ticket text key number
         w3 issue' Hget Hwf Hone Hid Hkey Hnumber Hparent Hfolder Htruthy
         Hconv Hgen w2 Hget2 newFilePath.
  pose proof (Frames.getIssue_keeps_tree ticketId w) as Ht.
  pose proof (Frames.getIssue_keeps_tracker ticketId w) as (Hi & _).
  rewrite Hget in Ht, Hi. cbn [fst] in Ht, Hi. unfold Frames.keeps_tree in Ht.
  assert (Hwf1 : well_formed (tree w1)) by (rewrite Ht; exact Hwf).
  pose proof (run_writeTicket config issue w1 statusFolder ticket text
                Hwf1 Hfolder Htruthy Hconv Hgen) as Hrun.
  cbv zeta in Hrun. rewrite Hparent in Hrun. fold newFilePath in Hrun.
  set (existing := find_in_tree (Linear.identifier issue) (tree w1)) in Hrun.
  set (entry := {| bytes := text; mtime := clock w1 |}) in Hrun.
  assert (Hw2 : w2 = set_tree (written newFilePath entry
                                 (cleared existing newFilePath (tree w1))) w1).
  { subst w2. unfold pullSingleTicket. rewrite run_bind, Hget, Hrun.
    reflexivity. }
  assert (Hwf2 : well_formed (tree w2)).
  { rewrite Hw2. cbn [tree set_tree].
    apply written_well_formed, cleared_well_formed, Hwf1. }
  assert (Hnew : Fs.lookup newFilePath (tree w2) = Some entry).
  { rewrite Hw2. cbn [tree set_tree]. rewrite lookup_written.
    destruct (path_dec newFilePath newFilePath); [reflexivity|contradiction]. }
  assert (Hnames : names_ticket (Linear.identifier issue) (snd newFilePath) = true).
  { cbn [snd newFilePath]. rewrite Hid.
    rewrite (FileNames.names_ticket_regular key number _ _ Hkey Hnumber).
    apply String.eqb_refl. }
  assert (Hfiles : files_for (Linear.identifier issue) (tree w2) = [newFilePath]).
  { apply singleton.
    - apply files_for_distinct, Hwf2.
    - apply (in_files_for _ _ _ Hwf2). split; [exact Hnames|].
      rewrite Hnew. discriminate.
    - intros p Hp. apply (in_files_for _ _ _ Hwf2) in Hp.
      destruct Hp as [Hn Hl].
      destruct (path_dec p newFilePath) as [|Hne]; [assumption|]. exfalso.
      rewrite Hw2 in Hl. cbn [tree set_tree] in Hl.
      rewrite lookup_written in Hl.
      destruct (path_dec p newFilePath); [contradiction|].
      rewrite (lookup_cleared existing newFilePath (tree w1) p Hwf1 Hne) in Hl.
      assert (Hin : existing <> Some p -> Fs.lookup p (tree w1) <> None -> False).
      { intros He Hl1.
        assert (Hp1 : In p (files_for (Linear.identifier issue) (tree w1)))
          by (apply (in_files_for _ _ _ Hwf1); auto).
        subst existing. rewrite find_in_tree_first in He.
        rewrite Ht in Hp1, He.
        destruct (files_for (Linear.identifier issue) (tree w)) as [|x [|y l]].
        - destruct Hp1.
        - destruct Hp1 as [->|[]]. apply He. reflexivity.
        - simpl in Hone. lia. }
      destruct existing as [e|] eqn:Hex.
      + destruct (path_dec p e) as [->|Hpe]; [congruence|].
        apply Hin; [congruence|exact Hl].
      + apply Hin; [discriminate|exact Hl]. }
  (* the second pull *)
  pose proof (Frames.getIssue_keeps_tree ticketId w2) as Ht3.
  rewrite Hget2 in Ht3. cbn [fst] in Ht3. unfold Frames.keeps_tree in Ht3.
  assert (Hsame : issue' = issue).
  { apply Frames.getIssue_returned in Hget, Hget2.
    rewrite Hw2 in Hget2. cbn [issues set_issues set_tree] in Hget2.
    rewrite Hi in Hget2. congruence. }
  subst issue'.
  assert (Hwf3 : well_formed (tree w3)) by (rewrite Ht3; exact Hwf2).
  pose proof (run_writeTicket config issue w3 statusFolder ticket text
                Hwf3 Hfolder Htruthy Hconv Hgen) as Hrun3.
  cbv zeta in Hrun3. rewrite Hparent in Hrun3. fold newFilePath in Hrun3.
  rewrite Ht3, find_in_tree_first, Hfiles in Hrun3. cbn [hd_error] in Hrun3.
  unfold cleared in Hrun3.
  replace (Fs.path_eqb newFilePath newFilePath) with true in Hrun3
    by (unfold Fs.path_eqb; rewrite !String.eqb_refl; reflexivity).
  eexists. split; [|split; [exact Hfiles|split]].
  - unfold pullSingleTicket. rewrite run_bind, Hget2. exact Hrun3.
  - cbn [tree set_tree]. eapply written_existing_paths. exact Hnew.
  - intros p. cbn [tree set_tree]. rewrite lookup_written.
    destruct (path_dec p newFilePath) as [->|]; [|reflexivity].
    rewrite Hnew. reflexivity.
Qed.

Import Workspace.

(** PAP-1 is in progress on the tracker and has no file; the folder of
    the state is not there yet. *)
Definition unpulled : World := world_with [("todo", [])] [PAP1 in_progress].

Definition pulled_in_progress : TicketFile :=
  ticket "PAP-1" "In Progress" "Fix login" "Users cannot log in.".

Lemma unpulled_well_formed : well_formed (tree unpulled).
Proof.
  split; [|repeat constructor]; unfold distinct_names; simpl;
    repeat constructor; simpl; intuition discriminate.
Qed.

Lemma pull_writes_one_path_witness :
  exists w2,
    run (pullSingleTicket config "PAP-1") unpulled = (w2, Returned tt)
    /\ Fs.lookup ("in-progress", name1) (tree w2)
       = Some {| bytes := text_of pulled_in_progress; mtime := next_morning |}
    /\ (forall p, p <> ("in-progress", name1) -> None = Some p ->
                  Fs.lookup p (tree w2) = None)
    /\ (forall p, p <> ("in-progress", name1) -> None <> Some p ->
                  Fs.lookup p (tree w2) = Fs.lookup p (tree unpulled))
    /\ issues w2 = issues unpulled
    /\ updates w2 = updates unpulled.
Proof.
  exact (pull_writes_one_path_and_removes_at_most_one
           platform config unpulled "PAP-1" (count_request unpulled)
           (PAP1 in_progress) "in-progress" pulled_in_progress
           (text_of pulled_in_progress)
           eq_refl unpulled_well_formed eq_refl eq_refl eq_refl eq_refl).
Defined.

(** PAP-1 is in a state the configuration does not map. *)
Definition blocked : Linear.WorkflowState :=
  {| Linear.state_id := "state-blocked"; Linear.state_name := "Blocked" |}.

Definition unmapped : World :=
  world_with [("todo", [(name1, file_of pulled1 pulled_at)])] [PAP1 blocked].

Lemma pull_that_stops_witness :
  run (pullSingleTicket config "PAP-1") unmapped
  = (count_request unmapped,
     Threw (Err ("Unknown Linear state " ++ dquote ++ "Blocked" ++ dquote
                 ++ " not in config")))
  /\ tree (count_request unmapped) = tree unmapped
  /\ issues (count_request unmapped) = issues unmapped
  /\ updates (count_request unmapped) = updates unmapped.
Proof.
  destruct (pull_that_stops_before_its_file_operations_changes_nothing
              platform config unmapped "PAP-1") as (Ht & Hi & Hu & Hpull).
  split; [|split; [exact Ht|split; [exact Hi|exact Hu]]].
  exact (Hpull (Err ("Unknown Linear state " ++ dquote ++ "Blocked" ++ dquote
                     ++ " not in config")) eq_refl).
Defined.

Definition pulled_once : World :=
  fst (run (pullSingleTicket config "PAP-1") unpulled).

Lemma second_pull_witness :
  exists w4,
    run (pullSingleTicket config "PAP-1") pulled_once = (w4, Returned tt)
    /\ files_for "PAP-1" (tree pulled_once) = [("in-progress", name1)]
    /\ all_paths (tree w4) = all_paths (tree pulled_once)
    /\ (forall p, option_map bytes (Fs.lookup p (tree w4))
                  = option_map bytes (Fs.lookup p (tree pulled_once))).
Proof.
  refine (second_pull_rewrites_the_file_of_the_first
            platform config unpulled "PAP-1" (count_request unpulled)
            (PAP1 in_progress) "in-progress" pulled_in_progress
            (text_of pulled_in_progress) "PAP" "1"
            (count_request pulled_once) (PAP1 in_progress)
            eq_refl unpulled_well_formed _ eq_refl eq_refl eq_refl eq_refl
            eq_refl eq_refl eq_refl eq_refl eq_refl).
  vm_compute. lia.
Defined.

End PullCases.

(* ================================================================== *)
(** ** The file watcher: bursts of added and removed events *)
(* ================================================================== *)

Module Watcher.
Import Types Sync SyncDaemon TreeFacts Debounce.

(** File events of either kind, each at its time. *)
Fixpoint changes (events : list (Z * string * FileAction)) : list Event :=
  match events with
  | [] => []
  | (t, filePath, action) :: rest =>
      TimePassed t :: FileChanged filePath action :: changes rest
  end.

(** Each event comes less than 2000 ms after the one before. *)
Fixpoint close_together (previous : Z) (events : list (Z * string * FileAction))
  : Prop :=
  match events with
  | [] => True
  | (t, _, _) :: rest => previous <= t < previous + 2000 /\ close_together t rest
  end.

Definition time_of (e : Z * string * FileAction) : Z := fst (fst e).
Definition path_of (e : Z * string * FileAction) : string := snd (fst e).
Definition action_of (e : Z * string * FileAction) : FileAction := snd e.

Lemma last_cons {A B : Type} (f : A -> B) (e : A) (l : list A) (b0 : B) :
  last (map f (e :: l)) b0 = last (map f l) (f e).
Proof.
  simpl. destruct l as [|e' l]; [reflexivity|].
  simpl. generalize (f e'). induction l as [|e'' l IH];
    intros z; [reflexivity|]. simpl. apply IH.
Qed.

Section Burst.
Context {P : Platform}.
Variable config : LinearSyncConfig.
Variable slackService : WebhookBody -> Async unit.
Variable k : string.

(** During a burst the key has one pending timer, set by the last
    event, and no push of the key starts. *)
Lemma changes_pending : forall events d t0 a0,
  distinct_names (moveDebounceMap d) ->
  clock (world d) = t0 ->
  Fs.assoc k (moveDebounceMap d)
  = Some {| deadline := t0 + 2000; captured := a0 |} ->
  Forall (fun e => debounceKey (path_of e) = Some k) events ->
  close_together t0 events ->
  let d' := exec config slackService d (changes events) in
  let t_last := last (map time_of events) t0 in
  distinct_names (moveDebounceMap d')
  /\ clock (world d') = t_last
  /\ Fs.assoc k (moveDebounceMap d')
     = Some {| deadline := t_last + 2000;
               captured := last (map action_of events) a0 |}
  /\ pushes k d' = pushes k d.
Proof.
  induction events as [|[[t filePath] action] events IH];
    intros d t0 a0 Hnd Hclock Htimer Hkeys Hspaced.
  - simpl. auto.
  - apply Forall_cons_iff in Hkeys. destruct Hkeys as [Hkey Hkeys'].
    unfold path_of in Hkey. cbn [fst snd] in Hkey.
    destruct Hspaced as [Ht Hspaced].
    cbn [changes]. unfold SyncDaemon.exec. cbn [fold_left].
    destruct (time_passed config slackService k t d Hnd ltac:(lia))
      as (Hnd1 & Hc1 & Hk1).
    rewrite Htimer in Hk1. cbn [deadline] in Hk1.
    destruct (t0 + 2000 <=? t) eqn:Hdue; [apply Z.leb_le in Hdue; lia|].
    destruct Hk1 as (Ht1 & Hp1).
    destruct (file_changed config slackService k filePath action _ Hkey Hnd1)
      as (Hnd2 & Hw2 & Hts2 & Hk2).
    rewrite Hc1 in Hk2.
    specialize (IH _ t action Hnd2 ltac:(rewrite Hw2; exact Hc1) Hk2
                   Hkeys' Hspaced).
    cbv zeta in IH. destruct IH as (Hnd3 & Hc3 & Hk3 & Hp3).
    unfold SyncDaemon.exec in *.
    rewrite (last_cons time_of), (last_cons action_of).
    split; [exact Hnd3|]. split; [exact Hc3|]. split; [exact Hk3|].
    rewrite Hp3. unfold pushes. rewrite Hts2. exact Hp1.
Qed.

End Burst.

(** X8: Of a burst of file events for one key, each less than 2000 ms after
    the one before, only the last one counts: once 2000 ms have passed
    since it, one push of the key has started if it was an [added]
    event, and none if it was a [removed] event, whatever came before
    it; the timer is gone either way. The push is the timer's callback
    run up to its first suspension: what it goes on to do is
    [pushSingleTicket] of the key, with what it throws caught. *)
Theorem last_event_of_a_burst_decides_the_push :
  forall (P : Platform) (config : LinearSyncConfig)
         (slackService : WebhookBody -> Async unit)
         (d : Daemon) (k : string)
         (first : Z * string * FileAction)
         (rest : list (Z * string * FileAction)) (T : Z),
    distinct_names (moveDebounceMap d) ->
    Fs.assoc k (moveDebounceMap d) = None ->
    clock (world d) <= time_of first ->
    Forall (fun e => debounceKey (path_of e) = Some k) (first :: rest) ->
    close_together (time_of first) rest ->
    let t_last := last (map time_of rest) (time_of first) in
    t_last + 2000 <= T ->
    let during := exec config slackService d (changes (first :: rest)) in
    let after := step config slackService during (TimePassed T) in
    let fired := wait_until (t_last + 2000) (world during) in
    pushes k during = pushes k d
    /\ match last (map action_of rest) (action_of first) with
       | added =>
           exists task,
             pushes k after = (pushes k d ++ [task])%list
             /\ op task = Push
             /\ ticket task = k
             /\ started_at task = t_last + 2000
             /\ code task = snd (segment (settled config k added) fired)
             /\ run (code task) fired
                = run (try_catch (pushSingleTicket config k) (fun _ => Ret tt))
                      fired
       | removed => pushes k after = pushes k d
       end
    /\ Fs.assoc k (moveDebounceMap after) = None.
Proof.
  intros P config slackService d k [[t1 filePath1] action1] rest T
         Hnd Hnone Hclock Hkeys Hspaced t_last HT during after fired.
  apply Forall_cons_iff in Hkeys. destruct Hkeys as [Hkey Hkeys].
  unfold time_of, path_of, action_of in Hclock, Hkey, Hspaced, t_last.
  cbn [fst snd] in Hclock, Hkey, Hspaced, t_last.
  destruct (time_passed config slackService k t1 d Hnd Hclock)
    as (Hnd1 & Hc1 & Hk1).
  rewrite Hnone in Hk1. destruct Hk1 as (_ & Hp1).
  destruct (file_changed config slackService k filePath1 action1 _ Hkey Hnd1)
    as (Hnd2 & Hw2 & Hts2 & Hk2).
  rewrite Hc1 in Hk2.
  destruct (changes_pending config slackService k rest _ t1 action1 Hnd2
              ltac:(rewrite Hw2; exact Hc1) Hk2 Hkeys Hspaced)
    as (Hnd3 & Hc3 & Hk3 & Hp3).
  fold t_last in Hc3, Hk3.
  assert (Hduring : pushes k during = pushes k d).
  { subst during. cbn [changes]. unfold exec. cbn [fold_left].
    unfold exec in Hp3. rewrite Hp3. unfold pushes. rewrite Hts2. exact Hp1. }
  assert (Htimer : Fs.assoc k (moveDebounceMap during)
                   = Some {| deadline := t_last + 2000;
                             captured := last (map action_of rest) action1 |})
    by exact Hk3.
  split; [exact Hduring|].
  assert (Hcd : clock (world during) = t_last) by exact Hc3.
  destruct (time_passed config slackService k T during Hnd3 ltac:(lia))
    as (_ & _ & Hk4).
  rewrite Htimer in Hk4. cbn [deadline captured] in Hk4.
  destruct (t_last + 2000 <=? T) eqn:Hdue; [|apply Z.leb_gt in Hdue; lia].
  destruct Hk4 as (Hgone & Hpush).
  cbn [action_of snd].
  split; [|exact Hgone].
  destruct (last (map action_of rest) action1).
  - exists (push_task config k fired).
    split; [subst after; rewrite Hpush, Hduring; reflexivity|].
    split; [reflexivity|]. split; [reflexivity|].
    split; [subst fired; cbn [push_task started_at clock wait_until]; lia|].
    split; [reflexivity|].
    cbn [push_task code].
    pose proof (run_segment (settled config k added) fired) as Hrun.
    rewrite settled_keeps_world in Hrun. exact Hrun.
  - subst after. rewrite Hpush. exact Hduring.
Qed.

Import Workspace.

(** The file of PAP-1 is moved from [todo/] to [in-progress/]; the
    watcher reports the new path first and the old one 200 ms later. *)
Definition old_path : string := "/repo/linear-tickets/todo/PAP-1-fix-login.md".

Definition move_events : list (Z * string * FileAction) :=
  [ (next_morning + 100, moved_path, added);
    (next_morning + 300, old_path, removed) ].

(** The other way round: the old path first, the new one 200 ms later. *)
Definition move_events_reversed : list (Z * string * FileAction) :=
  [ (next_morning + 100, old_path, removed);
    (next_morning + 300, moved_path, added) ].

Definition move_settled : World :=
  wait_until (next_morning + 2300)
    (world (exec config WebhookResponse.no_slack at_rest
                 (changes move_events_reversed))).

Lemma last_event_witness :
  (pushes "PAP-1" (exec config WebhookResponse.no_slack at_rest (changes move_events))
   = pushes "PAP-1" at_rest
   /\ pushes "PAP-1"
        (step config WebhookResponse.no_slack
           (exec config WebhookResponse.no_slack at_rest (changes move_events))
           (TimePassed (next_morning + 2300)))
      = pushes "PAP-1" at_rest
   /\ Fs.assoc "PAP-1"
        (moveDebounceMap
           (step config WebhookResponse.no_slack
              (exec config WebhookResponse.no_slack at_rest (changes move_events))
              (TimePassed (next_morning + 2300))))
      = None)
  /\ (pushes "PAP-1"
        (exec config WebhookResponse.no_slack at_rest (changes move_events_reversed))
      = pushes "PAP-1" at_rest
      /\ (exists task,
            pushes "PAP-1"
              (step config WebhookResponse.no_slack
                 (exec config WebhookResponse.no_slack at_rest
                       (changes move_events_reversed))
                 (TimePassed (next_morning + 2300)))
            = (pushes "PAP-1" at_rest ++ [task])%list
            /\ op task = Push
            /\ SyncDaemon.ticket task = "PAP-1"
            /\ started_at task = next_morning + 2300
            /\ code task
               = snd (segment (settled config "PAP-1" added) move_settled)
            /\ run (code task) move_settled
               = run (try_catch (pushSingleTicket config "PAP-1")
                                (fun _ => Ret tt)) move_settled)
      /\ Fs.assoc "PAP-1"
           (moveDebounceMap
              (step config WebhookResponse.no_slack
                 (exec config WebhookResponse.no_slack at_rest
                       (changes move_events_reversed))
                 (TimePassed (next_morning + 2300))))
         = None).
Proof.
  split.
  - apply (last_event_of_a_burst_decides_the_push
             platform config WebhookResponse.no_slack at_rest "PAP-1"
             (next_morning + 100, moved_path, added)
             [(next_morning + 300, old_path, removed)]
             (next_morning + 2300)).
    + constructor.
    + reflexivity.
    + vm_compute. discriminate.
    + repeat constructor.
    + vm_compute. intuition discriminate.
    + vm_compute. discriminate.
  - apply (last_event_of_a_burst_decides_the_push
             platform config WebhookResponse.no_slack at_rest "PAP-1"
             (next_morning + 100, old_path, removed)
             [(next_morning + 300, moved_path, added)]
             (next_morning + 2300)).
    + constructor.
    + reflexivity.
    + vm_compute. discriminate.
    + repeat constructor.
    + vm_compute. intuition discriminate.
    + vm_compute. discriminate.
Defined.

End Watcher.

(* ================================================================== *)
(** ** The webhook of a removed ticket *)
(* ================================================================== *)

Module Removal.
Import Types Sync SyncDaemon TreeFacts PullMove.

Lemma find_assoc {A : Type} (q : string * A -> bool) (l : list (string * A)) f :
  find q l = Some f -> exists v, Fs.assoc (fst f) l = Some v.
Proof.
  induction l as [|[k v] l IH]; simpl; [discriminate|].
  destruct (q (k, v)).
  - intros H. injection H as <-. simpl. rewrite String.eqb_refl. eauto.
  - intros H. destruct (String.eqb k (fst f)); eauto.
Qed.

(** What [removeLocalTicketFile] finds is a file of a configured folder
    whose name reads as the ticket's id. *)
Lemma locate_found ticketId mappings t p :
  locate ticketId mappings t = Some p ->
  extractTicketIdFromFilename (snd p) = ticketId
  /\ exists files f,
       Fs.assoc (fst p) t = Some files /\ Fs.assoc (snd p) files = Some f.
Proof.
  induction mappings as [|[name m] mappings IH]; simpl; [discriminate|].
  destruct (Fs.assoc (folder m) t) as [files|] eqn:Hd; [|exact IH].
  destruct (find _ files) as [f|] eqn:Hf; [|exact IH].
  intros H. injection H as <-. cbn [fst snd].
  pose proof (find_some _ _ Hf) as [_ Hq]. apply String.eqb_eq in Hq.
  destruct (find_assoc _ _ _ Hf) as [v Hv]. eauto.
Qed.

(** X9: [removeLocalTicketFile] never throws and asks the tracker nothing.
    It removes the first file, in the order of the configured folders,
    whose name reads as the ticket's id, and leaves every other path; when
    there is no such file it changes nothing. *)
Theorem removal_deletes_the_one_file_it_locates :
  forall (P : Platform) (config : LinearSyncConfig) (ticketId : string)
         (w : World),
    well_formed (tree w) ->
    exists w',
      run (removeLocalTicketFile config ticketId) w = (w', Returned tt)
      /\ requests w' = requests w
      /\ issues w' = issues w
      /\ match locate ticketId (statusMapping config) (tree w) with
         | Some filePath =>
             extractTicketIdFromFilename (snd filePath) = ticketId
             /\ Fs.lookup filePath (tree w) <> None
             /\ Fs.lookup filePath (tree w') = None
             /\ (forall p, p <> filePath ->
                           Fs.lookup p (tree w') = Fs.lookup p (tree w))
         | None => w' = w
         end.
Proof.
  intros P config ticketId w Hwf. unfold removeLocalTicketFile.
  rewrite run_try_catch, run_bind, run_gets.
  destruct (locate ticketId (statusMapping config) (tree w)) as [filePath|] eqn:Hl.
  - destruct (locate_found _ _ _ _ Hl) as (Hid & files & f & Hd & Hf).
    rewrite (run_unlinkSync filePath w files f Hd Hf).
    eexists. split; [reflexivity|]. cbn [requests issues tree set_tree].
    split; [reflexivity|]. split; [reflexivity|].
    split; [exact Hid|]. split; [unfold Fs.lookup; rewrite Hd, Hf; discriminate|].
    assert (Hw : Fs.assoc_set (fst filePath)
                   (Fs.assoc_remove (snd filePath) files) (tree w)
                 = without_file filePath (tree w))
      by (unfold without_file; rewrite Hd; reflexivity).
    rewrite Hw. split.
    + rewrite (PullCases.lookup_without_file filePath (tree w) filePath Hwf).
      destruct (path_dec filePath filePath); [reflexivity|contradiction].
    + intros p Hp.
      rewrite (PullCases.lookup_without_file filePath (tree w) p Hwf).
      destruct (path_dec p filePath); [contradiction|reflexivity].
  - exists w. cbn [run]. auto.
Qed.

Import Workspace.

Lemma removal_witness :
  exists w',
    run (removeLocalTicketFile config "PAP-1") stale = (w', Returned tt)
    /\ requests w' = requests stale
    /\ issues w' = issues stale
    /\ extractTicketIdFromFilename name1 = "PAP-1"
    /\ Fs.lookup ("todo", name1) (tree stale) <> None
    /\ Fs.lookup ("todo", name1) (tree w') = None
    /\ (forall p, p <> ("todo", name1) ->
                  Fs.lookup p (tree w') = Fs.lookup p (tree stale)).
Proof.
  refine (removal_deletes_the_one_file_it_locates platform config "PAP-1" stale _).
  split; [|repeat constructor]; unfold distinct_names; simpl;
    repeat constructor; simpl; intuition discriminate.
Defined.

End Removal.

(* ================================================================== *)
(** ** Retries of the client's requests *)
(* ================================================================== *)

Module RetryBounds.
Import RetryManager RetryFacts.

Section Counting.
Context {T : Type}.
Variable operation : Async T.
Variable cfg : RetryConfig.
(** Each call of the operation sends one request. *)
Hypothesis Hone : forall w, requests (fst (run operation w)) = S (requests w).

Lemma attempt_once_counts attempt w :
  requests (fst (run (attempt_once operation cfg attempt) w)) = S (requests w).
Proof.
  unfold attempt_once. rewrite run_bind.
  destruct (Nat.ltb 0 attempt).
  - rewrite run_sleep. rewrite Hone. reflexivity.
  - cbn [run]. apply Hone.
Qed.

(** The loop sends one request for each iteration it makes: at least
    one when it makes any, and no more than it has iterations left. *)
Lemma attempts_count remaining : forall attempt lastError w,
  (requests w + Nat.min 1 remaining
   <= requests (fst (run (attempts operation cfg remaining attempt lastError) w))
   <= requests w + remaining)%nat.
Proof.
  induction remaining as [|remaining IH]; intros attempt lastError w.
  - cbn [attempts run fst]. simpl. lia.
  - cbn [attempts]. rewrite run_try_catch.
    pose proof (attempt_once_counts attempt w) as H1.
    destruct (run (attempt_once operation cfg attempt) w) as [w1 [x|e]];
      cbn [fst] in *.
    + simpl. lia.
    + cbv zeta. destruct (negb (isRetryableError (as_error e)));
        [cbn [run fst]; simpl; lia|].
      destruct (Nat.eqb attempt (maxAttempts cfg - 1));
        [cbn [run fst]; simpl; lia|].
      specialize (IH (S attempt) (Err (as_error e)) w1). simpl. lia.
Qed.

End Counting.

Lemma request_counts {A : Type} (answer : World -> World * Outcome A) :
  (forall w, requests (fst (answer w)) = requests w) ->
  forall w, requests (fst (run (request answer) w)) = S (requests w).
Proof.
  intros Hanswer w. rewrite run_request.
  destruct (net w (requests w)); [reflexivity|].
  rewrite Hanswer. reflexivity.
Qed.

Lemma get_request_counts issueId w :
  requests (fst (run (Frames.get_request issueId) w)) = S (requests w).
Proof.
  apply request_counts. intros w0.
  destruct (LinearSyncClient.find_issue issueId (issues w0)); reflexivity.
Qed.

Lemma update_request_counts issueId u w :
  requests (fst (run (Frames.update_request issueId u) w)) = S (requests w).
Proof.
  apply request_counts. intros w0. cbv zeta.
  destruct (LinearSyncClient.find_issue issueId _); reflexivity.
Qed.

(** X10: Whatever the network and the tracker answer, a call of [getIssue]
    or of [updateIssue] sends at least one request and at most three. *)
Theorem client_calls_send_one_to_three_requests :
  forall (issueId : string) (u : Linear.IssueUpdate) (w : World),
    (requests w
     < requests (fst (run (LinearSyncClient.getIssue issueId) w))
     <= requests w + 3)%nat
    /\ (requests w
        < requests (fst (run (LinearSyncClient.updateIssue issueId u) w))
        <= requests w + 3)%nat.
Proof.
  intros issueId u w. split.
  - pose proof (attempts_count (Frames.get_request issueId) DEFAULT_CONFIG
                  (get_request_counts issueId) 3 0 Undefined w) as H.
    change (LinearSyncClient.getIssue issueId)
      with (attempts (Frames.get_request issueId) DEFAULT_CONFIG 3 0 Undefined).
    change (Nat.min 1 3) with 1%nat in H. lia.
  - rewrite Frames.updateIssue_unfold.
    pose proof (attempts_count (Frames.update_request issueId u) DEFAULT_CONFIG
                  (update_request_counts issueId u) 3 0 Undefined w) as H.
    change (withRetry (Frames.update_request issueId u) empty_config)
      with (attempts (Frames.update_request issueId u) DEFAULT_CONFIG 3 0 Undefined).
    change (Nat.min 1 3) with 1%nat in H. lia.
Qed.

(** The world when a retry has slept [d] ms and sent its request. *)
Definition retried (d : Z) (w : World) : World :=
  count_request (wait_until (clock w + d) (log_sleep (Some d) w)).

Section Fetch.
Variable issueId : string.

Lemma get_request_failed w msg :
  net w (requests w) = Some msg ->
  run (Frames.get_request issueId) w = (count_request w, Threw (Err msg)).
Proof.
  intros H. unfold Frames.get_request. rewrite run_request, H. reflexivity.
Qed.

Lemma get_request_answered w :
  net w (requests w) = None ->
  run (Frames.get_request issueId) w
  = (count_request w,
     match LinearSyncClient.find_issue issueId (issues w) with
     | Some issue => Returned issue
     | None => Threw (Err ("Issue " ++ issueId ++ " not found"))
     end).
Proof.
  intros H. unfold Frames.get_request. rewrite run_request, H.
  cbn [issues count_request].
  destruct (LinearSyncClient.find_issue issueId (issues w)); reflexivity.
Qed.

(** A later attempt: the sleep, then the request. *)
Lemma run_later_attempt attempt d w :
  (0 < attempt)%nat ->
  delay_before DEFAULT_CONFIG attempt = Some d ->
  run (attempt_once (Frames.get_request issueId) DEFAULT_CONFIG attempt) w
  = run (Frames.get_request issueId)
        (wait_until (clock w + d) (log_sleep (Some d) w)).
Proof.
  intros Ha Hd. unfold attempt_once. rewrite run_bind.
  replace (Nat.ltb 0 attempt) with true by (symmetry; apply Nat.ltb_lt; exact Ha).
  rewrite run_sleep, Hd. reflexivity.
Qed.

Lemma getIssue_unfold :
  LinearSyncClient.getIssue issueId
  = attempts (Frames.get_request issueId) DEFAULT_CONFIG 3 0 Undefined.
Proof. reflexivity. Qed.

End Fetch.

(** X11: When the first requests of a fetch fail with transient errors, two
    at most, and the next one is answered, [getIssue] returns the issue:
    it has sent one request more than failed, and has slept 120000 ms
    before the second and 30000 ms before the third. *)
Theorem getIssue_recovers_from_transient_failures :
  forall (issueId : string) (w : World) (issue : Linear.Issue)
         (failures : list string),
    (List.length failures <= 2)%nat ->
    Forall (fun msg => isRetryableError msg = true) failures ->
    (forall n, (n <= List.length failures)%nat ->
               net w (requests w + n)%nat = nth_error failures n) ->
    LinearSyncClient.find_issue issueId (issues w) = Some issue ->
    exists w',
      run (LinearSyncClient.getIssue issueId) w = (w', Returned issue)
      /\ requests w' = (requests w + List.length failures + 1)%nat
      /\ slept w'
         = (slept w ++ firstn (List.length failures) [Some 120000; Some 30000])%list
      /\ tree w' = tree w
      /\ issues w' = issues w.
Proof.
  intros issueId w issue failures Hlen Hretry Hnet Hfound.
  rewrite getIssue_unfold.
  destruct failures as [|m1 [|m2 [|m3 l]]]; [| | |simpl in Hlen; lia].
  - pose proof (Hnet 0%nat ltac:(simpl; lia)) as H0.
    rewrite Nat.add_0_r in H0. cbn [nth_error] in H0.
    exists (count_request w).
    erewrite attempts_returned
      by (rewrite run_first_attempt, (get_request_answered issueId w H0), Hfound;
          reflexivity).
    cbn [requests slept tree issues count_request List.length firstn].
    rewrite app_nil_r. repeat split; lia.
  - pose proof (Hnet 0%nat ltac:(simpl; lia)) as H0.
    pose proof (Hnet 1%nat ltac:(simpl; lia)) as H1.
    rewrite Nat.add_0_r in H0. cbn [nth_error] in H0, H1.
    apply Forall_cons_iff in Hretry. destruct Hretry as [Hr1 _].
    erewrite attempts_retry;
      [|rewrite run_first_attempt; apply (get_request_failed issueId w m1 H0)
       |exact Hr1|discriminate].
    exists (retried 120000 (count_request w)).
    erewrite attempts_returned.
    + split; [reflexivity|].
      cbn [requests slept tree issues count_request retried wait_until log_sleep
           List.length firstn].
      repeat split; lia.
    + rewrite (run_later_attempt issueId 1 120000) by (reflexivity || lia).
      rewrite get_request_answered.
      * cbn [issues count_request wait_until log_sleep]. rewrite Hfound.
        reflexivity.
      * cbn [net requests count_request wait_until log_sleep].
        rewrite <- H1. f_equal. lia.
  - pose proof (Hnet 0%nat ltac:(simpl; lia)) as H0.
    pose proof (Hnet 1%nat ltac:(simpl; lia)) as H1.
    pose proof (Hnet 2%nat ltac:(simpl; lia)) as H2.
    rewrite Nat.add_0_r in H0. cbn [nth_error] in H0, H1, H2.
    apply Forall_cons_iff in Hretry. destruct Hretry as [Hr1 Hretry].
    apply Forall_cons_iff in Hretry. destruct Hretry as [Hr2 _].
    erewrite attempts_retry;
      [|rewrite run_first_attempt; apply (get_request_failed issueId w m1 H0)
       |exact Hr1|discriminate].
    erewrite attempts_retry;
      [|rewrite (run_later_attempt issueId 1 120000) by (reflexivity || lia);
        apply get_request_failed;
        cbn [net requests count_request wait_until log_sleep];
        rewrite <- H1; f_equal; lia
       |exact Hr2|discriminate].
    exists (retried 30000 (retried 120000 (count_request w))).
    erewrite attempts_returned.
    + split; [reflexivity|].
      cbn [requests slept tree issues count_request retried wait_until log_sleep
           List.length firstn].
      rewrite <- app_assoc. repeat split; lia.
    + rewrite (run_later_attempt issueId 2 30000) by (reflexivity || lia).
      rewrite get_request_answered.
      * cbn [issues count_request wait_until log_sleep]. rewrite Hfound.
        reflexivity.
      * cbn [net requests count_request wait_until log_sleep].
        rewrite <- H2. f_equal. lia.
Qed.

(** A network whose first request fails with a timeout. *)
Definition flaky : World :=
  {| tree := []; issues := [Workspace.PAP1 Workspace.todo];
     workflow := [Workspace.todo];
     net := fun n => if Nat.eqb n 0 then Some "Network timeout" else None;
     requests := 0; updates := []; slept := []; clock := 0 |}.

Lemma getIssue_recovers_witness :
  exists w',
    run (LinearSyncClient.getIssue "PAP-1") flaky
    = (w', Returned (Workspace.PAP1 Workspace.todo))
    /\ requests w' = 2%nat
    /\ slept w' = [Some 120000]
    /\ tree w' = []
    /\ issues w' = [Workspace.PAP1 Workspace.todo].
Proof.
  refine (getIssue_recovers_from_transient_failures
            "PAP-1" flaky (Workspace.PAP1 Workspace.todo) ["Network timeout"]
            _ _ _ eq_refl).
  - simpl. lia.
  - repeat constructor.
  - intros [|[|n]] Hn; reflexivity.
Defined.

(** X12: An issue the tracker does not have: [getIssue] throws
    [Issue <id> not found]. The message carries the id, and the error is
    classed by its message: it is retried, with three requests and both
    sleeps, unless the text of the id makes the message read as a fatal
    error (an id such as PAP-401), when the first request is the only
    one. *)
Theorem getIssue_of_a_missing_issue_is_classed_by_its_id :
  forall (issueId : string) (w : World),
    (forall n, net w n = None) ->
    LinearSyncClient.find_issue issueId (issues w) = None ->
    let msg := "Issue " ++ issueId ++ " not found" in
    exists w',
      run (LinearSyncClient.getIssue issueId) w = (w', Threw (Err msg))
      /\ requests w'
         = (requests w + if isRetryableError msg then 3 else 1)%nat
      /\ slept w'
         = (slept w ++ if isRetryableError msg
                       then [Some 120000; Some 30000] else [])%list.
Proof.
  intros issueId w Hnet Hnone msg.
  assert (Hfail : forall w0, net w0 = net w -> issues w0 = issues w ->
            run (Frames.get_request issueId) w0
            = (count_request w0, Threw (Err msg))).
  { intros w0 Hn Hi. rewrite get_request_answered by (rewrite Hn; apply Hnet).
    rewrite Hi, Hnone. reflexivity. }
  rewrite getIssue_unfold.
  destruct (isRetryableError msg) eqn:Hr.
  - erewrite attempts_retry;
      [|rewrite run_first_attempt; apply Hfail; reflexivity
       |exact Hr|discriminate].
    erewrite attempts_retry;
      [|rewrite (run_later_attempt issueId 1 120000) by (reflexivity || lia);
        apply Hfail; reflexivity
       |exact Hr|discriminate].
    erewrite attempts_last;
      [|rewrite (run_later_attempt issueId 2 30000) by (reflexivity || lia);
        apply Hfail; reflexivity
       |reflexivity].
    eexists. split; [reflexivity|].
    cbn [requests slept count_request wait_until log_sleep].
    rewrite <- app_assoc. split; [lia|reflexivity].
  - erewrite attempts_fatal;
      [|rewrite run_first_attempt; apply Hfail; reflexivity|exact Hr].
    eexists. split; [reflexivity|].
    cbn [requests slept count_request]. rewrite app_nil_r. split; [lia|reflexivity].
Qed.

(** A tracker without issues, the network up. *)
Definition empty_tracker : World :=
  {| tree := []; issues := []; workflow := [];
     net := fun _ => None;
     requests := 0; updates := []; slept := []; clock := 0 |}.

Lemma getIssue_missing_witness :
  (exists w',
     run (LinearSyncClient.getIssue "PAP-401") empty_tracker
     = (w', Threw (Err "Issue PAP-401 not found"))
     /\ requests w' = 1%nat /\ slept w' = [])
  /\ (exists w',
        run (LinearSyncClient.getIssue "PAP-402") empty_tracker
        = (w', Threw (Err "Issue PAP-402 not found"))
        /\ requests w' = 3%nat /\ slept w' = [Some 120000; Some 30000]).
Proof.
  split.
  - exact (getIssue_of_a_missing_issue_is_classed_by_its_id
             "PAP-401" empty_tracker (fun _ => eq_refl) eq_refl).
  - exact (getIssue_of_a_missing_issue_is_classed_by_its_id
             "PAP-402" empty_tracker (fun _ => eq_refl) eq_refl).
Defined.

End RetryBounds.

(* ================================================================== *)
(** ** Push all: which files are pushed *)
(* ================================================================== *)

Module PushGate.
Import Types Sync Frames PushDiff TimestampGate.





Section Gate.
Context {P : Platform}.
Variable config : LinearSyncConfig.



End Gate.




Import Workspace.








End PushGate.

(* ================================================================== *)
(** ** Push all: the tally *)
(* ================================================================== *)

Module PushAll.
Import Types Sync.

Definition total (t : Tally) : nat := (pushed t + skipped t + errors t)%nat.

Lemma total_count v t : total (count v t) = S (total t).
Proof. destruct v; unfold total; simpl; lia. Qed.

Section Batch.
Context {P : Platform}.
Variable config : LinearSyncConfig.

(** Whatever happens to one file, the body of the loop returns. *)
Lemma pushIfModified_returns filePath w :
  exists w' verdict,
    run (pushIfModified config filePath) w = (w', Returned verdict).
Proof.
  unfold pushIfModified. rewrite run_try_catch.
  match goal with
  | |- context [match run ?a w with _ => _ end] =>
      destruct (run a w) as [w' [v|e]]
  end; cbn [run]; eauto.
Qed.

Lemma pushEach_counts tickets : forall tally w,
  exists w' tally',
    run (pushEach config tickets tally) w = (w', Returned tally')
    /\ total tally' = (total tally + List.length tickets)%nat.
Proof.
  induction tickets as [|filePath tickets IH]; intros tally w.
  - exists w, tally. split; [reflexivity|]. simpl. lia.
  - cbn [pushEach]. rewrite run_bind.
    destruct (pushIfModified_returns filePath w) as (w1 & verdict & H1).
    rewrite H1.
    destruct (IH (count verdict tally) w1) as (w' & tally' & H & Ht).
    exists w', tally'. split; [exact H|].
    rewrite Ht, total_count. simpl. lia.
Qed.

End Batch.

(** X13: [pushAllTickets] never throws: a file that cannot be read, parsed or
    pushed is counted as an error and the loop goes on. Every ticket file
    listed is counted once, as pushed, unchanged or failed. *)
Theorem push_all_counts_every_listed_file_once :
  forall (P : Platform) (config : LinearSyncConfig) (w : World)
         (tickets : list Fs.Path),
    run getAllTicketFiles w = (w, Returned tickets) ->
    exists w' tally,
      run (pushAllTickets config) w = (w', Returned tally)
      /\ (pushed tally + skipped tally + errors tally)%nat
         = List.length tickets.
Proof.
  intros P config w tickets Hlist. unfold pushAllTickets.
  rewrite run_bind, Hlist.
  destruct (pushEach_counts config tickets
              {| pushed := 0; skipped := 0; errors := 0 |} w)
    as (w' & tally & H & Ht).
  exists w', tally. split; [exact H|exact Ht].
Qed.

Import Workspace.

(** Two ticket files, one of them not a ticket file at all, and a
    README. *)
Definition mixed_files : World :=
  world_with
    [ ("todo", [ (name1, file_of pulled1 (pulled_at - 1000));
                 ("README.md", {| bytes := "# Todo"; mtime := pulled_at |});
                 ("notes.md", {| bytes := "no frontmatter"; mtime := pulled_at |}) ]) ]
    [PAP1 todo].

Lemma push_all_witness :
  exists w' tally,
    run (pushAllTickets config) mixed_files = (w', Returned tally)
    /\ (pushed tally + skipped tally + errors tally)%nat = 2%nat.
Proof.
  exact (push_all_counts_every_listed_file_once
           platform config mixed_files
           [("todo", name1); ("todo", "notes.md")] eq_refl).
Defined.

End PushAll.

(* ================================================================== *)
(** ** The status mapping, read both ways *)
(* ================================================================== *)

Module StatusMappingFacts.
Import Types Sync.

Definition folder_of (m : string * StatusMapping) : string := folder (snd m).

Lemma find_first {A : Type} (q : A -> bool) (key : A -> string) l x :
  NoDup (map key l) -> In x l ->
  (forall y, q y = String.eqb (key y) (key x)) ->
  find q l = Some x.
Proof.
  intros Hnd Hin Hq. induction l as [|y l IH]; [destruct Hin|].
  simpl. inversion Hnd as [|? ? Hn Hnd']; subst.
  destruct Hin as [->|Hin].
  - rewrite Hq, String.eqb_refl. reflexivity.
  - rewrite Hq. destruct (String.eqb_spec (key y) (key x)) as [E|_].
    + exfalso. apply Hn. rewrite E. apply in_map, Hin.
    + apply IH; assumption.
Qed.

(** X14: When no two states of the configuration share a folder, the folder a
    pull files a state under is the folder a push reads that state's id
    from. *)
Theorem mapping_reads_back_the_state_of_a_folder :
  forall (config : LinearSyncConfig) (stateName : string) (m : StatusMapping),
    NoDup (map fst (statusMapping config)) ->
    NoDup (map folder_of (statusMapping config)) ->
    In (stateName, m) (statusMapping config) ->
    findStatusFolder stateName config = Some (folder m)
    /\ findStateIdForFolder (folder m) config = Some (id m).
Proof.
  intros config stateName m Hnames Hfolders Hin.
  unfold findStatusFolder, findStateIdForFolder. split.
  - rewrite (find_first _ fst _ (stateName, m) Hnames Hin); [reflexivity|].
    intros y. reflexivity.
  - rewrite (find_first _ folder_of _ (stateName, m) Hfolders Hin);
      [reflexivity|].
    intros y. reflexivity.
Qed.

Lemma mapping_witness :
  findStatusFolder "In Progress" Workspace.config = Some "in-progress"
  /\ findStateIdForFolder "in-progress" Workspace.config = Some "state-progress".
Proof.
  refine (mapping_reads_back_the_state_of_a_folder
            Workspace.config "In Progress"
            {| id := "state-progress"; folder := "in-progress" |} _ _ _).
  - simpl. repeat constructor; simpl; intuition discriminate.
  - simpl. repeat constructor; simpl; intuition discriminate.
  - simpl. auto.
Defined.

End StatusMappingFacts.

(* ================================================================== *)
(** ** Which files are valid *)
(* ================================================================== *)

Module Validity.
Import Types TicketFileParser.

(** A comment with every field [validateFile] asks for. *)
Definition complete (c : Comment) : bool :=
  (truthy (comment_id c) && truthy (author c) && truthy (comment_content c)
   && truthy (comment_created_at c))%bool.

Lemma app_nil_iff {A : Type} (l l' : list A) :
  (l ++ l')%list = [] <-> l = [] /\ l' = [].
Proof.
  split; [apply app_eq_nil|]. intros [-> ->]. reflexivity.
Qed.

Lemma check_nil failed message : check failed message = [] <-> failed = false.
Proof. destruct failed; simpl; split; congruence. Qed.

Lemma validateComments_nil l : forall i,
  validateComments i l = [] <-> forallb complete l = true.
Proof.
  induction l as [|c l IH]; intros i; simpl; [tauto|].
  rewrite !app_nil_iff, !check_nil, (IH (S i)). unfold complete.
  destruct (truthy (comment_id c)), (truthy (author c)),
    (truthy (comment_content c)), (truthy (comment_created_at c));
    simpl; intuition congruence.
Qed.

Section WithPlatform.
Context {P : Platform}.

(** A frontmatter [validateFrontmatter] finds nothing wrong with: the
    five required keys, a priority from 0 to 4, labels that are absent,
    empty or an array, and dates that parse and hold a [T]. The title is
    not asked for. *)
Definition acceptable (fm : TicketMetadata) : bool :=
  (truthy (linear_id fm) && truthy (status fm) && truthy (url fm)
   && truthy (created_at fm) && truthy (updated_at fm)
   && ((0 <=? priority fm) && (priority fm <=? 4))
   && (negb (labels_truthy (labels fm)) || isArray (labels fm))
   && isValidISODate (created_at fm)
   && isValidISODate (updated_at fm)
   && match due_date fm with
      | Some d => negb (truthy d) || isValidISODate d
      | None => true
      end)%bool.

Lemma priority_check p :
  (negb (p =? 0) && negb (existsb (Z.eqb p) [1; 2; 3; 4]))%bool = false
  <-> ((0 <=? p) && (p <=? 4))%bool = true.
Proof.
  cbn [existsb].
  destruct (Z.leb_spec 0 p), (Z.leb_spec p 4);
    repeat match goal with
           | |- context [Z.eqb p ?n] => destruct (Z.eqb_spec p n)
           end;
    simpl; split; intros; try reflexivity; try discriminate; lia.
Qed.

Lemma validateFrontmatter_nil fm :
  validateFrontmatter fm = [] <-> acceptable fm = true.
Proof.
  unfold validateFrontmatter, acceptable.
  rewrite !app_nil_iff, !check_nil, priority_check.
  destruct (truthy (linear_id fm)), (truthy (status fm)), (truthy (url fm)),
    (truthy (created_at fm)), (truthy (updated_at fm)),
    ((0 <=? priority fm) && (priority fm <=? 4))%bool,
    (labels_truthy (labels fm)), (isArray (labels fm)),
    (isValidISODate (created_at fm)), (isValidISODate (updated_at fm));
    simpl; try (intuition congruence);
    destruct (due_date fm) as [d|]; try (intuition congruence);
    destruct (truthy d), (isValidISODate d); simpl; intuition congruence.
Qed.

End WithPlatform.

(** A frontmatter that holds [labels: bug]. *)
Example scalar_labels_are_reported :
  validateFrontmatter (P := Workspace.platform)
    {| linear_id := "PAP-1"; title := "Fix login"; status := "Todo";
       assignee := None; labels := LabelsScalar "bug"; priority := 2;
       due_date := None; url := "https://linear.app/pap/issue/PAP-1";
       created_at := "2024-06-19T10:00:00.000+08:00";
       updated_at := "2024-06-19T11:30:00.000+08:00" |}
  = ["Labels must be an array"].
Proof. reflexivity. Qed.

(** A text [validateFile] finds nothing wrong with parses, and what it
    parses to has an acceptable frontmatter, a content that is not blank
    and complete comments. *)
Lemma validateFile_nil :
  forall (P : Platform) (text : string),
    validateFile text = []
    <-> exists ticket,
          parseFile text = Returned ticket
          /\ acceptable (frontmatter ticket) = true
          /\ truthy (JsString.trim (content ticket)) = true
          /\ forallb complete (comments ticket) = true.
Proof.
  intros P text. unfold validateFile.
  destruct (parseFile text) as [ticket|e].
  - rewrite !app_nil_iff, check_nil, validateFrontmatter_nil,
      validateComments_nil, negb_false_iff.
    split.
    + intros (Hf & Hc & Hk). exists ticket. auto.
    + intros (t & Ht & Hf & Hc & Hk). injection Ht as <-. auto.
  - split; [discriminate|]. intros (t & Ht & _). discriminate.
Qed.

(** X16: [generateFile] does not look at what [validateFrontmatter] returns,
    and it swallows a failure to dump the comments: it throws only when
    the frontmatter does not dump. The text starts with the frontmatter
    between its fences, then a blank line and the content. *)
Theorem generateFile_throws_only_when_the_frontmatter_does_not_dump :
  forall (P : Platform) (ticket : TicketFile),
    match yaml_dump_frontmatter (frontmatter ticket) with
    | Returned yaml =>
        exists text,
          generateFile ticket = Returned text
          /\ JsString.startsWith text
               ("---" ++ nl ++ yaml ++ "---" ++ nl ++ nl ++ content ticket)
             = true
    | Threw e =>
        generateFile ticket
        = Threw (Err ("Failed to generate ticket file: " ++ message_of e))
    end.
Proof.
  intros P ticket. unfold generateFile.
  destruct (yaml_dump_frontmatter (frontmatter ticket)) as [yaml|e];
    [|reflexivity].
  eexists. split; [reflexivity|]. cbv zeta.
  set (base := "---" ++ nl ++ yaml ++ "---" ++ nl ++ nl ++ content ticket).
  destruct (comments ticket) as [|c cs].
  - rewrite <- (StringFacts.append_nil_r base) at 1.
    apply StringFacts.startsWith_app.
  - destruct (yaml_dump_comments (c :: cs)) as [cy|e];
      rewrite ?(Codec.append_assoc base); apply StringFacts.startsWith_app.
Qed.

End Validity.

(* ================================================================== *)
(** ** The order of creation *)
(* ================================================================== *)

Module DependencyOrder.
Import CreateCommand.

Lemma has_In set x : has set x = true <-> In x set.
Proof.
  unfold has. rewrite existsb_exists. split.
  - intros (y & Hy & E). apply String.eqb_eq in E. subst. exact Hy.
  - intros H. exists x. split; [exact H|apply String.eqb_refl].
Qed.

Lemma has_not_In set x : has set x = false <-> ~ In x set.
Proof.
  rewrite <- has_In. destruct (has set x); split; congruence.
Qed.

Lemma delete_added x set : ~ In x set -> delete x (x :: set) = set.
Proof.
  intros H. unfold delete. cbn [filter]. rewrite String.eqb_refl. cbn [negb].
  induction set as [|y set IH]; [reflexivity|].
  cbn [filter]. destruct (String.eqb_spec y x) as [->|_].
  - exfalso. apply H. simpl. auto.
  - cbn [negb]. f_equal. apply IH. intros Hx. apply H. simpl. auto.
Qed.

Section Facts.
Context {M : Type}.
Variable ticketFiles : list (TicketFile M).

Lemma get_some path file :
  fileMap_get ticketFiles path = Some file ->
  filePath file = path /\ In file ticketFiles.
Proof.
  unfold fileMap_get. intros H. apply find_some in H.
  destruct H as [Hin E]. apply String.eqb_eq in E.
  split; [exact E|]. apply in_rev. exact Hin.
Qed.

Lemma get_known path :
  fileMap_get ticketFiles path <> None <-> In path (map filePath ticketFiles).
Proof.
  split.
  - destruct (fileMap_get ticketFiles path) as [file|] eqn:E; [|congruence].
    intros _. apply get_some in E. destruct E as [<- Hin].
    apply in_map, Hin.
  - intros Hin H. apply in_map_iff in Hin. destruct Hin as (f & <- & Hf).
    unfold fileMap_get in H.
    pose proof (find_none _ _ H f (proj1 (in_rev _ _) Hf)) as E.
    cbv beta in E. rewrite String.eqb_refl in E. discriminate.
Qed.

(** In the list, each file comes after those of its dependencies that
    are files of the command. *)
Inductive Ordered : list (TicketFile M) -> Prop :=
| ordered_nil : Ordered []
| ordered_snoc files file :
    Ordered files ->
    (forall dep, In dep (dependencies file) ->
                 fileMap_get ticketFiles dep <> None ->
                 In dep (map filePath files)) ->
    Ordered (files ++ [file]).

(** What [visit] keeps true of its sets and its list. *)
Record Good (progress : @Progress M) : Prop := {
  visiting_distinct : NoDup (visiting progress);
  visiting_known :
    forall x, In x (visiting progress) -> In x (map filePath ticketFiles);
  result_paths : map filePath (result progress) = rev (visited progress);
  visited_distinct : NoDup (visited progress);
  result_files :
    forall file, In file (result progress) ->
                 fileMap_get ticketFiles (filePath file) = Some file;
  result_ordered : Ordered (result progress);
  visiting_unvisited :
    forall x, In x (visiting progress) -> ~ In x (visited progress) }.

(** What a call that returns has done. *)
Definition Post (before after : @Progress M) : Prop :=
  visiting after = visiting before
  /\ incl (visited before) (visited after)
  /\ Good after.

Definition resolved (path : string) (progress : @Progress M) : Prop :=
  In path (visited progress) \/ fileMap_get ticketFiles path = None.

Definition visit_ok (fuel : nat) : Prop :=
  forall path progress,
    Good progress ->
    (List.length ticketFiles < List.length (visiting progress) + fuel)%nat ->
    match visit ticketFiles fuel path progress with
    | None => False
    | Some (Returns after) => Post progress after /\ resolved path after
    | Some (Circular _) => True
    end.

Lemma resolved_later path before after :
  incl (visited before) (visited after) -> resolved path before ->
  resolved path after.
Proof. intros Hi [H|H]; [left; apply Hi, H|right; exact H]. Qed.

Lemma each_ok fuel :
  visit_ok fuel ->
  forall paths progress,
    Good progress ->
    (List.length ticketFiles < List.length (visiting progress) + fuel)%nat ->
    match each (visit ticketFiles fuel) paths progress with
    | None => False
    | Some (Returns after) =>
        Post progress after /\ forall path, In path paths -> resolved path after
    | Some (Circular _) => True
    end.
Proof.
  intros Hvisit. induction paths as [|path paths IH]; intros progress Hgood Hfuel.
  - cbn [each]. split; [|intros ? []].
    split; [reflexivity|]. split; [apply incl_refl|exact Hgood].
  - cbn [each]. pose proof (Hvisit path progress Hgood Hfuel) as H1.
    destruct (visit ticketFiles fuel path progress) as [[mid|p]|];
      [|exact I|exact H1].
    destruct H1 as ((Hv1 & Hi1 & Hg1) & Hs1).
    specialize (IH mid Hg1 ltac:(rewrite Hv1; exact Hfuel)).
    destruct (each (visit ticketFiles fuel) paths mid) as [[after|p]|];
      [|exact I|exact IH].
    destruct IH as ((Hv2 & Hi2 & Hg2) & Hs2).
    split.
    + split; [congruence|]. split; [|exact Hg2].
      eapply incl_tran; eauto.
    + intros p [<-|Hp]; [eapply resolved_later; eauto|auto].
Qed.

Lemma visiting_bound progress :
  Good progress ->
  (List.length (visiting progress) <= List.length ticketFiles)%nat.
Proof.
  intros Hgood. rewrite <- (length_map filePath ticketFiles).
  apply NoDup_incl_length; [apply Hgood|]. intros x. apply Hgood.
Qed.

Lemma visit_is_ok fuel : visit_ok fuel.
Proof.
  induction fuel as [|fuel IH]; intros path progress Hgood Hfuel.
  - pose proof (visiting_bound progress Hgood). cbn [visit]. lia.
  - cbn [visit].
    destruct (has (visiting progress) path) eqn:Hving; [exact I|].
    apply has_not_In in Hving.
    destruct (has (visited progress) path) eqn:Hved.
    { apply has_In in Hved. split; [|left; exact Hved].
      split; [reflexivity|]. split; [apply incl_refl|exact Hgood]. }
    apply has_not_In in Hved.
    destruct (fileMap_get ticketFiles path) as [file|] eqn:Hget.
    2:{ split; [|right; exact Hget].
        split; [reflexivity|]. split; [apply incl_refl|exact Hgood]. }
    destruct (get_some path file Hget) as [Hpath Hin].
    set (entered := {| visited := visited progress;
                       visiting := path :: visiting progress;
                       result := result progress |}).
    assert (Hentered : Good entered).
    { destruct Hgood. constructor; cbn [visited visiting result entered]; auto.
      - constructor; assumption.
      - intros x [<-|Hx]; [|auto]. rewrite <- Hpath. apply in_map, Hin.
      - intros x [<-|Hx]; auto. }
    pose proof (each_ok fuel IH (dependencies file) entered Hentered
                  ltac:(cbn [visiting entered List.length]; lia)) as Hdeps.
    destruct (each (visit ticketFiles fuel) (dependencies file) entered)
      as [[after|p]|]; [|exact I|exact Hdeps].
    destruct Hdeps as ((Hv & Hi & Hg) & Hs).
    cbn [visiting visited entered] in Hv, Hi.
    assert (Hfresh : ~ In path (visited after)).
    { apply (visiting_unvisited after Hg). rewrite Hv. simpl. auto. }
    split; [|left; simpl; auto].
    split; [cbn [visiting]; rewrite Hv; apply delete_added, Hving|].
    split; [cbn [visited]; apply incl_tl, Hi|].
    destruct Hg. constructor; cbn [visited visiting result].
    + rewrite Hv. rewrite delete_added by exact Hving. apply Hgood.
    + rewrite Hv. rewrite delete_added by exact Hving. apply Hgood.
    + rewrite map_app, result_paths0. cbn [map rev]. rewrite Hpath. reflexivity.
    + constructor; assumption.
    + intros f Hf. apply in_app_iff in Hf. destruct Hf as [Hf|[<-|[]]]; auto.
      rewrite Hpath. exact Hget.
    + constructor; [assumption|]. intros dep Hdep Hknown.
      destruct (Hs dep Hdep) as [Hd|Hd]; [|contradiction].
      rewrite result_paths0. apply in_rev in Hd. exact Hd.
    + rewrite Hv. rewrite delete_added by exact Hving.
      intros x Hx [<-|Hx']; [contradiction|].
      apply (visiting_unvisited0 x); [rewrite Hv; simpl; auto|exact Hx'].
Qed.

Lemma ordered_prefix order :
  Ordered order ->
  forall pre file post, order = (pre ++ file :: post)%list ->
  forall dep, In dep (dependencies file) ->
              fileMap_get ticketFiles dep <> None ->
              In dep (map filePath pre).
Proof.
  induction 1 as [|files last Hfiles IH Hlast]; intros pre file post E.
  - destruct pre; discriminate.
  - destruct (exists_last (l := file :: post) ltac:(discriminate))
      as (front & x & Efront).
    rewrite Efront, app_assoc in E. apply app_inj_tail in E.
    destruct E as [E <-].
    destruct post as [|y post].
    + destruct front as [|z front]; [|destruct front; discriminate].
      injection Efront as <-. rewrite app_nil_r in E. subst files. exact Hlast.
    + destruct front as [|z front]; [discriminate|].
      injection Efront as -> Efront. apply (IH pre z front). exact E.
Qed.

(** The nothing_visited: nothing visited, nothing in the list. *)
Definition nothing_visited : @Progress M :=
  {| visited := []; visiting := []; result := [] |}.

Lemma nothing_visited_good : Good nothing_visited.
Proof.
  constructor; cbn [nothing_visited visited visiting result]; try constructor;
    try (intros ? []); reflexivity.
Qed.

Lemma resolve_spec :
  match each (visit ticketFiles (S (List.length ticketFiles)))
          (map filePath ticketFiles) nothing_visited with
  | None => False
  | Some (Returns after) =>
      Good after
      /\ forall path, In path (map filePath ticketFiles) -> In path (visited after)
  | Some (Circular _) => True
  end.
Proof.
  pose proof (each_ok (S (List.length ticketFiles)) (visit_is_ok _)
                (map filePath ticketFiles) nothing_visited
                nothing_visited_good ltac:(unfold nothing_visited; simpl; lia)) as H.
  destruct (each _ _ nothing_visited) as [[after|p]|]; auto.
  destruct H as ((_ & _ & Hg) & Hs). split; [exact Hg|].
  intros path Hp. destruct (Hs path Hp) as [H|H]; [exact H|].
  exfalso. apply (proj2 (get_known path) Hp). exact H.
Qed.

End Facts.

Lemma resolve_outcome :
  forall (M : Type) (ticketFiles : list (TicketFile M)),
  exists outcome,
    resolveDependencyOrder ticketFiles = Some outcome
    /\ match outcome with
       | Returned order =>
           NoDup (map filePath order)
           /\ (forall path, In path (map filePath order)
                            <-> In path (map filePath ticketFiles))
           /\ (forall file, In file order ->
                  fileMap_get ticketFiles (filePath file) = Some file)
           /\ (forall pre file post, order = (pre ++ file :: post)%list ->
                forall dep, In dep (dependencies file) ->
                            In dep (map filePath ticketFiles) ->
                            In dep (map filePath pre))
       | Threw e =>
           exists path,
             e = Err ("Circular dependency detected involving " ++ path)
       end.
Proof.
  intros M ticketFiles. unfold resolveDependencyOrder.
  pose proof (resolve_spec ticketFiles) as H. fold (@nothing_visited M).
  destruct (each _ _ nothing_visited) as [[after|p]|]; [| |contradiction].
  - destruct H as (Hg & Hall). eexists. split; [reflexivity|].
    destruct Hg. split; [|split; [|split]].
    + rewrite result_paths0. apply NoDup_rev, visited_distinct0.
    + intros path. rewrite result_paths0, <- in_rev. split; [|apply Hall].
      intros Hp. apply in_rev in Hp. rewrite <- result_paths0 in Hp.
      apply in_map_iff in Hp. destruct Hp as (f & <- & Hf).
      apply result_files0, get_some in Hf. apply in_map, Hf.
    + exact result_files0.
    + intros pre file post E dep Hdep Hknown.
      apply (ordered_prefix ticketFiles _ result_ordered0 pre file post E dep Hdep).
      apply get_known, Hknown.
  - eexists. split; [reflexivity|]. exists p. reflexivity.
Qed.

(** X17: [resolveDependencyOrder] comes to an end on every list of files: it
    returns an order or throws for a circular dependency. The order it
    returns holds one file for each path of the input, the one the map
    keeps for that path, and each file comes after every dependency of
    its that is a file of the input. *)
Theorem creation_order_puts_dependencies_first :
  forall (M : Type) (ticketFiles : list (TicketFile M)),
  exists outcome,
    resolveDependencyOrder ticketFiles = Some outcome
    /\ match outcome with
       | Returned order =>
           NoDup (map filePath order)
           /\ (forall path, In path (map filePath order)
                            <-> In path (map filePath ticketFiles))
           /\ (forall file, In file order ->
                  fileMap_get ticketFiles (filePath file) = Some file)
           /\ (forall pre file post, order = (pre ++ file :: post)%list ->
                forall dep, In dep (dependencies file) ->
                            In dep (map filePath ticketFiles) ->
                            In dep (map filePath pre))
       | Threw e =>
           exists path,
             e = Err ("Circular dependency detected involving " ++ path)
       end.
Proof. exact resolve_outcome. Qed.


Section Cycles.
Context {M : Type}.
Variable ticketFiles : list (TicketFile M).

(** [a] is a file of the command and names [b] as a dependency. *)
Definition depends (a b : string) : Prop :=
  exists file,
    fileMap_get ticketFiles a = Some file /\ In b (dependencies file).

(** A chain of dependencies from one path to another. *)
Inductive chain : string -> string -> Prop :=
| chain_step a b : depends a b -> chain a b
| chain_more a b c : depends a b -> chain b c -> chain a c.

Lemma chain_starts_at_a_file a b :
  chain a b -> fileMap_get ticketFiles a <> None.
Proof. intros [? ? (f & -> & _)|? ? ? (f & -> & _) _]; discriminate. Qed.

Lemma split_unique {A : Type} (key : A -> string) (l : list A) :
  NoDup (map key l) ->
  forall a x b a' x' b',
    l = (a ++ x :: b)%list -> l = (a' ++ x' :: b')%list -> key x = key x' ->
    a = a'.
Proof.
  intros Hnd a. revert l Hnd.
  induction a as [|y a IH]; intros l Hnd x b a' x' b' E E' Hk.
  - destruct a' as [|y' a']; [reflexivity|]. exfalso.
    subst l. simpl in E'. injection E' as -> E'.
    simpl in Hnd. inversion Hnd as [|? ? Hn _]; subst. apply Hn.
    rewrite Hk, map_app. apply in_or_app. right. simpl. auto.
  - destruct a' as [|y' a'].
    + exfalso. subst l. simpl in E'. injection E' as -> E'.
      simpl in Hnd. inversion Hnd as [|? ? Hn _]; subst. apply Hn.
      rewrite <- Hk, map_app. apply in_or_app. right. simpl. auto.
    + subst l. simpl in E'. injection E' as -> E'. f_equal.
      simpl in Hnd. inversion Hnd as [|? ? _ Hnd']; subst.
      eapply IH; eauto.
Qed.

Section Order.
Variable order : list (TicketFile M).
Hypothesis Hdistinct : NoDup (map filePath order).
Hypothesis Hall :
  forall path, In path (map filePath order)
               <-> In path (map filePath ticketFiles).
Hypothesis Hfiles :
  forall file, In file order ->
               fileMap_get ticketFiles (filePath file) = Some file.
Hypothesis Hordered :
  forall pre file post, order = (pre ++ file :: post)%list ->
  forall dep, In dep (dependencies file) ->
              In dep (map filePath ticketFiles) ->
              In dep (map filePath pre).

(** [a] comes before [b] in the order. *)
Definition before (a b : string) : Prop :=
  exists pre file post,
    order = (pre ++ file :: post)%list /\ filePath file = b
    /\ In a (map filePath pre).

Lemma before_trans a b c : before a b -> before b c -> before a c.
Proof.
  intros (pre1 & f1 & post1 & E1 & Hb & Ha) (pre2 & f2 & post2 & E2 & Hc & Hb2).
  exists pre2, f2, post2. split; [exact E2|]. split; [exact Hc|].
  apply in_map_iff in Hb2. destruct Hb2 as (g & Hg & Hin).
  apply in_split in Hin. destruct Hin as (front & back & ->).
  rewrite <- app_assoc in E2. cbn [app] in E2.
  assert (pre1 = front)
    by (eapply (split_unique filePath order Hdistinct); eauto; congruence).
  subst front. rewrite map_app. apply in_or_app. left. exact Ha.
Qed.

Lemma depends_before a b :
  depends a b -> fileMap_get ticketFiles b <> None -> before b a.
Proof.
  intros (file & Hget & Hdep) Hb.
  assert (Hin : In a (map filePath order)).
  { apply Hall. apply (get_known ticketFiles). rewrite Hget. discriminate. }
  apply in_map_iff in Hin. destruct Hin as (f & Hf & Hin).
  pose proof (Hfiles f Hin) as Hsame. rewrite Hf, Hget in Hsame.
  injection Hsame as ->.
  apply in_split in Hin. destruct Hin as (pre & post & E).
  exists pre, f, post. split; [exact E|]. split; [exact Hf|].
  apply (Hordered pre f post E b Hdep).
  apply (get_known ticketFiles). exact Hb.
Qed.

Lemma chain_before a b :
  chain a b -> fileMap_get ticketFiles b <> None -> before b a.
Proof.
  induction 1 as [a b Hd|a b c Hd Hc IH]; intros Hknown.
  - apply depends_before; assumption.
  - apply (before_trans c b a); [apply IH, Hknown|].
    apply depends_before; [exact Hd|].
    eapply chain_starts_at_a_file; eauto.
Qed.

Lemma no_cycle a : ~ chain a a.
Proof.
  intros Hc.
  destruct (chain_before a a Hc (chain_starts_at_a_file a a Hc))
    as (pre & f & post & E & Hf & Hin).
  rewrite E, map_app in Hdistinct. cbn [map] in Hdistinct.
  apply NoDup_remove_2 in Hdistinct. apply Hdistinct.
  apply in_or_app. left. rewrite Hf. exact Hin.
Qed.

End Order.
End Cycles.

(** X18: When the files of the command depend on one another in a circle,
    however long, [resolveDependencyOrder] throws [Circular dependency
    detected]. *)
Theorem circular_dependencies_are_refused :
  forall (M : Type) (ticketFiles : list (TicketFile M)) (path : string),
    chain ticketFiles path path ->
    exists involved,
      resolveDependencyOrder ticketFiles
      = Some (Threw (Err ("Circular dependency detected involving "
                          ++ involved))).
Proof.
  intros M ticketFiles path Hcycle.
  destruct (resolve_outcome M ticketFiles) as ([order|e] & Hrun & Hout).
  - exfalso. destruct Hout as (Hd & Hall & Hfiles & Hord).
    exact (no_cycle ticketFiles order Hd Hall Hfiles Hord path Hcycle).
  - destruct Hout as (involved & ->). exists involved. exact Hrun.
Qed.

(** Two files that name each other as parent. *)
Definition cyclic : list (TicketFile unit) :=
  [ {| filePath := "a.md"; metadata := tt; bodyContent := "A";
       dependencies := ["b.md"] |};
    {| filePath := "b.md"; metadata := tt; bodyContent := "B";
       dependencies := ["a.md"] |} ].

Lemma circular_witness :
  exists involved,
    resolveDependencyOrder cyclic
    = Some (Threw (Err ("Circular dependency detected involving " ++ involved))).
Proof.
  apply (circular_dependencies_are_refused unit cyclic "a.md").
  apply (chain_more cyclic "a.md" "b.md" "a.md").
  - eexists. split; [reflexivity|]. simpl. auto.
  - apply chain_step. eexists. split; [reflexivity|]. simpl. auto.
Defined.

Example creation_order_example :
  resolveDependencyOrder
    [ {| filePath := "child.md"; metadata := tt; bodyContent := "";
         dependencies := ["parent.md"] |};
      {| filePath := "parent.md"; metadata := tt; bodyContent := "";
         dependencies := ["missing.md"] |} ]
  = Some (Returned
            [ {| filePath := "parent.md"; metadata := tt; bodyContent := "";
                 dependencies := ["missing.md"] |};
              {| filePath := "child.md"; metadata := tt; bodyContent := "";
                 dependencies := ["parent.md"] |} ]).
Proof. reflexivity. Qed.

End DependencyOrder.

(* ================================================================== *)
(** ** Slack: the length of a shortened text *)
(* ================================================================== *)

Module SlackFacts.
Import SlackNotificationService.

Lemma length_take_exact n s :
  (n <= String.length s)%nat -> String.length (JsString.take n s) = n.
Proof.
  revert s. induction n as [|n IH]; intros [|c s] H; simpl in *; try lia.
  rewrite IH; lia.
Qed.

Lemma take_take_app n s t :
  (n <= String.length s)%nat ->
  JsString.take n (JsString.take n s ++ t) = JsString.take n s.
Proof.
  revert s. induction n as [|n IH]; intros [|c s] H; simpl in *;
    try reflexivity; try lia.
  rewrite IH; [reflexivity|lia].
Qed.

(** X19: A text that fits is left as it is. A longer one is cut and ends in
    three dots, and is then exactly [maxLength] long, or three characters
    long when [maxLength] is less than three. *)
Theorem truncated_text_is_as_long_as_allowed_or_three :
  forall (text : string) (maxLength : Z),
    (Z.of_nat (String.length text) <= maxLength ->
     truncateText text maxLength = text)
    /\ (maxLength < Z.of_nat (String.length text) ->
        Z.of_nat (String.length (truncateText text maxLength))
        = Z.max maxLength 3
        /\ JsString.endsWith (truncateText text maxLength) "..." = true
        /\ JsString.startsWith text
             (JsString.take (String.length (truncateText text maxLength) - 3)
                            (truncateText text maxLength)) = true).
Proof.
  intros text maxLength. unfold truncateText.
  destruct (Z.leb_spec (Z.of_nat (String.length text)) maxLength) as [Hle|Hgt].
  - split; [reflexivity|lia].
  - split; [lia|]. intros _.
    set (n := Z.to_nat (maxLength - 3)).
    assert (Hn : (n <= String.length text)%nat) by (subst n; lia).
    assert (Hlen : String.length (JsString.take n text ++ "...") = (n + 3)%nat).
    { rewrite StringFacts.length_app, (length_take_exact n text Hn).
      reflexivity. }
    split; [rewrite Hlen; subst n; lia|].
    split; [apply StringFacts.endsWith_app|].
    rewrite Hlen. replace (n + 3 - 3)%nat with n by lia.
    rewrite (take_take_app n text "..." Hn).
    rewrite <- (StringFacts.take_drop n text) at 1.
    apply StringFacts.startsWith_app.
Qed.

End SlackFacts.

(* ================================================================== *)
(** ** The grace period of a new comment *)
(* ================================================================== *)

Module GracePeriod.
Import Types SyncDaemon.

Section Handler.
Context {P : Platform}.
Variable config : LinearSyncConfig.
Variable slackService : WebhookBody -> Async unit.

Lemma comment_webhook_suspends body ticketId w :
  ticketIdOf body = Some ticketId ->
  equals (action body) "create" = true ->
  equals (type body) "Comment" = true ->
  exists k,
    segment (webhook config slackService body ;; Ret tt) w
    = (log_sleep (Some 2000) w, Await (Some (clock w + 2000)) k).
Proof.
  intros Hid Hact Htype. unfold webhook, dispatch.
  rewrite Hid, Hact, Htype, orb_true_r. eexists. reflexivity.
Qed.

End Handler.

(** X20: The webhook of a created comment does not fetch the ticket at once:
    its handler sends no request and waits on a timer of 2000 ms, and as
    long as the clock has not reached that time, resuming it does
    nothing. *)
Theorem created_comment_is_synced_after_2000_ms :
  forall (P : Platform) (config : LinearSyncConfig)
         (slackService : WebhookBody -> Async unit)
         (d : Daemon) (body : WebhookBody) (ticketId : string),
    ticketIdOf body = Some ticketId ->
    equals (action body) "create" = true ->
    equals (type body) "Comment" = true ->
    let d' := step config slackService d (WebhookPosted body) in
    exists task,
      tasks d' = (tasks d ++ [task])%list
      /\ op task = Pull
      /\ ticket task = ticketId
      /\ world d' = log_sleep (Some 2000) (world d)
      /\ (forall later i,
            nth_error (tasks later) i = Some task ->
            clock (world later) < clock (world d) + 2000 ->
            step config slackService later (Resumed i) = later).
Proof.
  intros P config slackService d body ticketId Hid Hact Htype d'.
  destruct (comment_webhook_suspends config slackService body ticketId
              (world d) Hid Hact Htype) as [k Hseg].
  assert (Hop : equals (action body) "remove" = false).
  { unfold equals in *. destruct (action body) as [a|]; [|reflexivity].
    apply String.eqb_eq in Hact. subst a. reflexivity. }
  set (task := {| op := Pull; ticket := ticketId;
                  started_at := clock (world d);
                  code := Await (Some (clock (world d) + 2000)) k |}).
  assert (Hd' : d' = {| world := log_sleep (Some 2000) (world d);
                        moveDebounceMap := moveDebounceMap d;
                        tasks := (tasks d ++ [task])%list |}).
  { subst d'. unfold step, start. rewrite Hseg, Hop, Hid. reflexivity. }
  exists task. rewrite Hd'. cbn [tasks world op ticket task].
  split; [reflexivity|]. split; [reflexivity|]. split; [reflexivity|].
  split; [reflexivity|].
  intros later i Hnth Hclock. cbn [step]. unfold resume. rewrite Hnth.
  unfold task. cbn [code].
  destruct (Z.leb_spec (clock (world d) + 2000) (clock (world later)));
    [lia|reflexivity].
Qed.

Import Workspace.

Definition comment_created : WebhookBody :=
  {| action := Some "create"; type := Some "Comment";
     data := Some {| identifier := None; issue_identifier := Some "PAP-1" |} |}.

Lemma created_comment_witness :
  exists task,
    tasks (step config WebhookResponse.no_slack Debounce.at_rest
                (WebhookPosted comment_created))
    = [task]
    /\ op task = Pull
    /\ SyncDaemon.ticket task = "PAP-1"
    /\ world (step config WebhookResponse.no_slack Debounce.at_rest
                   (WebhookPosted comment_created))
       = log_sleep (Some 2000) (world Debounce.at_rest)
    /\ (forall later i,
          nth_error (tasks later) i = Some task ->
          clock (world later) < next_morning + 2000 ->
          step config WebhookResponse.no_slack later (Resumed i) = later).
Proof.
  exact (created_comment_is_synced_after_2000_ms
           platform config WebhookResponse.no_slack Debounce.at_rest
           comment_created "PAP-1" eq_refl eq_refl eq_refl).
Defined.

End GracePeriod.

(* ================================================================== *)
(** ** The title a push reads off the file name *)
(* ================================================================== *)

Module TitleFromName.
Import Types TicketFileParser Sync StringFacts FileNames.

Lemma startsWith_split s p :
  JsString.startsWith s p = true -> exists r, s = p ++ r.
Proof.
  unfold JsString.startsWith. revert s.
  induction p as [|c p IH]; intros s H; [exists s; reflexivity|].
  destruct s as [|c' s]; [discriminate|]. simpl in H.
  destruct (ascii_dec c c') as [<-|_]; [|discriminate].
  destruct (IH s H) as [r ->]. exists r. reflexivity.
Qed.

Lemma take_app a b : JsString.take (String.length a) (a ++ b) = a.
Proof. induction a as [|c a IH]; simpl; [reflexivity|]. rewrite IH. reflexivity. Qed.

(** [path.basename(file, '.md')] of a name that ends in [.md]. *)
Lemma basename_md_app stem : basename_md (stem ++ ".md") = stem.
Proof.
  unfold basename_md. rewrite endsWith_app, length_app.
  replace (String.length stem + String.length ".md" - 3)%nat
    with (String.length stem) by (simpl; lia).
  apply take_app.
Qed.

(** X21: The title [pushSingleTicket] falls back on when the frontmatter has
    none. From the name of a ticket without parent it is the slug of the
    title with spaces for hyphens and each word capitalised, and nothing
    when the slug is empty. From the name of a child ticket it is
    nothing: the name does not start with the ticket's identifier. *)
Theorem title_from_a_generated_name :
  forall (key number pkey pnumber title : string),
    is_key key = true -> is_number number = true ->
    is_key pkey = true -> is_number pnumber = true ->
    let linearId := key ++ "-" ++ number in
    let slug := sanitizeTitle title in
    extractTitleFromFilename
      (basename_md (generateFilename linearId title None)) linearId
    = (if truthy slug
       then Some (title_case false (hyphens_to_spaces slug))
       else None)
    /\ extractTitleFromFilename
         (basename_md (generateFilename linearId title
                         (Some (pkey ++ "-" ++ pnumber)))) linearId
       = None.
Proof.
  intros key number pkey pnumber title Hk Hn Hpk Hpn linearId slug. split.
  - unfold generateFilename. cbv zeta. fold slug.
    replace (linearId ++ "-" ++ slug ++ ".md")
      with ((linearId ++ "-" ++ slug) ++ ".md")
      by (repeat (rewrite ?Codec.append_assoc; cbn [append]); reflexivity).
    rewrite basename_md_app. unfold extractTitleFromFilename. cbv zeta.
    replace (linearId ++ "-" ++ slug) with ((linearId ++ "-") ++ slug)
      by (repeat (rewrite ?Codec.append_assoc; cbn [append]); reflexivity).
    rewrite startsWith_app, drop_app. cbn [negb].
    destruct slug as [|c s]; reflexivity.
  - subst linearId.
    rewrite (child_shape key number title Hk Hn pkey pnumber Hpk).
    replace (pkey ++ "-" ++ pnumber ++ "." ++ number ++ "-"
             ++ sanitizeTitle title ++ ".md")
      with ((pkey ++ "-" ++ pnumber ++ "." ++ number ++ "-"
             ++ sanitizeTitle title) ++ ".md")
      by (repeat (rewrite ?Codec.append_assoc; cbn [append]); reflexivity).
    rewrite basename_md_app. unfold extractTitleFromFilename. cbv zeta.
    destruct (JsString.startsWith _ ((key ++ "-" ++ number) ++ "-")) eqn:E;
      [|reflexivity].
    exfalso. apply startsWith_split in E. destruct E as [r E].
    assert (H1 : match_identifier
                   (pkey ++ "-" ++ pnumber ++ "." ++ number ++ "-"
                    ++ sanitizeTitle title)
                 = Some (pkey, pnumber,
                         "." ++ number ++ "-" ++ sanitizeTitle title))
      by (apply match_identifier_app; auto).
    assert (H2 : match_identifier (((key ++ "-" ++ number) ++ "-") ++ r)
                 = Some (key, number, "-" ++ r)).
    { replace (((key ++ "-" ++ number) ++ "-") ++ r)
        with (key ++ "-" ++ number ++ "-" ++ r)
        by (repeat (rewrite ?Codec.append_assoc; cbn [append]); reflexivity).
      apply match_identifier_app; auto. }
    rewrite E, H2 in H1. discriminate.
Qed.

Lemma title_from_name_witness :
  extractTitleFromFilename
    (basename_md (generateFilename "PAP-447" "Implement feature: v2" None))
    "PAP-447"
  = Some "Implement Feature V2"
  /\ extractTitleFromFilename
       (basename_md (generateFilename "PAP-447" "Implement feature: v2"
                       (Some "PAP-434")))
       "PAP-447"
     = None.
Proof.
  exact (title_from_a_generated_name "PAP" "447" "PAP" "434"
           "Implement feature: v2" eq_refl eq_refl eq_refl eq_refl).
Defined.

End TitleFromName.

(* ================================================================== *)
(** ** A pulled comment without text *)
(* ================================================================== *)

Module EmptyComment.
Import Types TicketFileParser Sync Validity.

Section WithPlatform.
Context {P : Platform}.

Definition no_body (c : Linear.Comment) : bool :=
  match Linear.body c with
  | Some b => negb (truthy b)
  | None => true
  end.

Lemma convertComment_incomplete c c' :
  convertComment c = Returned c' -> no_body c = true -> complete c' = false.
Proof.
  unfold convertComment, no_body.
  destruct (TimezoneUtils.utcToSGT _) as [created|e]; [|discriminate].
  intros H Hb. injection H as <-. unfold complete. cbn [comment_content].
  destruct (Linear.body c) as [b|].
  - apply negb_true_iff in Hb. rewrite Hb, !andb_false_r. reflexivity.
  - rewrite !andb_false_r. reflexivity.
Qed.

Lemma convertComments_incomplete l : forall l',
  convertComments l = Returned l' ->
  existsb no_body l = true -> forallb complete l' = false.
Proof.
  induction l as [|c l IH]; intros l' H He; [discriminate|].
  cbn [convertComments] in H.
  destruct (convertComment c) as [c'|e] eqn:Hc; [|discriminate].
  destruct (convertComments l) as [rest|e]; [|discriminate].
  injection H as <-. cbn [forallb existsb] in *.
  apply orb_true_iff in He. destruct He as [He|He].
  - rewrite (convertComment_incomplete c c' Hc He). reflexivity.
  - rewrite (IH rest eq_refl He). apply andb_false_r.
Qed.

Lemma convert_comments issue ticket :
  convertLinearIssueToTicket issue = Returned ticket ->
  convertComments (Linear.comments issue) = Returned (comments ticket).
Proof.
  unfold convertLinearIssueToTicket.
  destruct (TimezoneUtils.utcToSGT (Linear.createdAt issue)); [|discriminate].
  destruct (TimezoneUtils.utcToSGT (Linear.updatedAt issue)); [|discriminate].
  destruct (match Linear.dueDate issue with
            | Some d => _
            | None => _
            end); [|discriminate].
  destruct (convertComments (Linear.comments issue)); [|discriminate].
  intros H. injection H as <-. reflexivity.
Qed.

End WithPlatform.

(** X22: A comment without text is pulled with an empty [content], which
    [validateFile] does not accept: whenever the file of a ticket holds
    what the pull of such an issue converts to, a push of the ticket
    throws [Invalid ticket file] before it asks the tracker anything. *)
Theorem pulled_empty_comment_blocks_the_push :
  forall (P : Platform) (config : LinearSyncConfig) (issue : Linear.Issue)
         (ticket : TicketFile) (w : World) (ticketId : string)
         (filePath : Fs.Path) (f : FileEntry),
    convertLinearIssueToTicket issue = Returned ticket ->
    existsb no_body (Linear.comments issue) = true ->
    find_in_tree ticketId (tree w) = Some filePath ->
    Fs.lookup filePath (tree w) = Some f ->
    parseFile (bytes f) = Returned ticket ->
    validateFile (bytes f) <> []
    /\ exists detail,
         run (pushSingleTicket config ticketId) w
         = (w, Threw (Err ("Invalid ticket file: " ++ detail))).
Proof.
  intros P config issue ticket w ticketId filePath f
         Hconv Hempty Hfind Hlookup Hparse.
  assert (Hinvalid : validateFile (bytes f) <> []).
  { intros Hv.
    apply (validateFile_nil P (bytes f)) in Hv.
    destruct Hv as (t & Ht & _ & _ & Hc).
    rewrite Hparse in Ht. injection Ht as <-.
    rewrite (convertComments_incomplete _ _ (convert_comments _ _ Hconv) Hempty)
      in Hc. discriminate. }
  split; [exact Hinvalid|].
  unfold pushSingleTicket, findTicketFile.
  rewrite run_bind, run_gets, Hfind, run_bind.
  rewrite (run_readFileSync filePath w f Hlookup).
  rewrite run_bind, run_lift, Hparse.
  destruct (validateFile (bytes f)) as [|e rest]; [congruence|].
  eexists. reflexivity.
Qed.

Import Workspace.

(** PAP-1 with one comment, of an integration, that has no text. *)
Definition silent : Linear.Comment :=
  {| Linear.comment_id := "comment-2";
     Linear.body := None;
     Linear.comment_createdAt := "2024-06-19T03:00:00.000Z";
     Linear.user := Some ann |}.

Definition commented_issue : Linear.Issue :=
  {| Linear.id := Linear.id (PAP1 todo);
     Linear.identifier := "PAP-1";
     Linear.title := "Fix login";
     Linear.description := Some "Users cannot log in.";
     Linear.url := Linear.url (PAP1 todo);
     Linear.priority := 2;
     Linear.createdAt := Linear.createdAt (PAP1 todo);
     Linear.updatedAt := Linear.updatedAt (PAP1 todo);
     Linear.dueDate := None;
     Linear.labels := ["bug"];
     Linear.assignee := Some ann;
     Linear.parent := None;
     Linear.state := todo;
     Linear.comments := [silent] |}.

Definition silent_pulled : Comment :=
  {| comment_id := "comment-2";
     author := "ann@example.com";
     comment_content := "";
     comment_created_at := "2024-06-19T11:00:00.000+08:00" |}.

(** A platform whose YAML reads that comment back. *)
Definition reading : Platform := Reference.platform known [[silent_pulled]].

Definition pulled_with_comment : TicketFile :=
  {| frontmatter := metadata "PAP-1" "Todo" "Fix login";
     content := "Users cannot log in.";
     comments := [silent_pulled] |}.

Definition pulled_file : FileEntry :=
  {| bytes := match generateFile (P := reading) pulled_with_comment with
              | Returned text => text
              | Threw _ => ""
              end;
     mtime := pulled_at |}.

Definition holding : World :=
  world_with [("todo", [(name1, pulled_file)])] [commented_issue].

Lemma pulled_empty_comment_witness :
  validateFile (P := reading) (bytes pulled_file) <> []
  /\ exists detail,
       run (pushSingleTicket (P := reading) config "PAP-1") holding
       = (holding, Threw (Err ("Invalid ticket file: " ++ detail))).
Proof.
  exact (pulled_empty_comment_blocks_the_push
           reading config commented_issue pulled_with_comment holding "PAP-1"
           ("todo", name1) pulled_file
           eq_refl eq_refl eq_refl eq_refl eq_refl).
Defined.

End EmptyComment.

(* ================================================================== *)
(** ** What a push sends after a pull *)
(* ================================================================== *)

Module PullThenPush.
Import Types TicketFileParser Sync.

Lemma trimEnd_app s t :
  truthy t = true -> JsString.trimEnd t = t ->
  JsString.trimEnd (s ++ t) = s ++ t.
Proof.
  intros Ht Hend. induction s as [|c s IH]; [exact Hend|].
  cbn [append JsString.trimEnd]. rewrite IH.
  destruct (s ++ t) eqn:E; [|reflexivity].
  destruct s; [|discriminate]. simpl in E. subst t. discriminate.
Qed.

(** The content a pull gives a ticket without description. *)
Definition placeholder (title : string) : string :=
  "# " ++ title ++ nl ++ nl ++ "*No description provided*".

Lemma placeholder_trimmed title : JsString.trim (placeholder title) = placeholder title.
Proof.
  unfold JsString.trim, placeholder.
  change (JsString.trimStart ("# " ++ title ++ nl ++ nl ++ "*No description provided*"))
    with ("# " ++ title ++ nl ++ nl ++ "*No description provided*").
  replace ("# " ++ title ++ nl ++ nl ++ "*No description provided*")
    with (("# " ++ title ++ nl ++ nl) ++ "*No description provided*")
    by (repeat (rewrite ?Codec.append_assoc; cbn [append]); reflexivity).
  apply trimEnd_app; reflexivity.
Qed.

Lemma placeholder_truthy title : truthy (placeholder title) = true.
Proof. reflexivity. Qed.

Section WithPlatform.
Context {P : Platform}.

Lemma converted_fields issue ticket :
  convertLinearIssueToTicket issue = Returned ticket ->
  title (frontmatter ticket) = Linear.title issue
  /\ content ticket
     = match first_truthy (Linear.description issue) None with
       | Some d => d
       | None => placeholder (Linear.title issue)
       end.
Proof.
  unfold convertLinearIssueToTicket.
  destruct (TimezoneUtils.utcToSGT (Linear.createdAt issue)); [|discriminate].
  destruct (TimezoneUtils.utcToSGT (Linear.updatedAt issue)); [|discriminate].
  destruct (match Linear.dueDate issue with
            | Some d => _
            | None => _
            end); [|discriminate].
  destruct (convertComments (Linear.comments issue)); [|discriminate].
  intros H. injection H as <-. split; reflexivity.
Qed.

End WithPlatform.

(** The ticket as [parseFile] gives it back: the content trimmed. *)
Definition read_back (ticket : TicketFile) : TicketFile :=
  {| frontmatter := frontmatter ticket;
     content := JsString.trim (content ticket);
     comments := comments ticket |}.

(** X23: What [pushSingleTicket] finds to send when the file holds what a
    pull of the issue wrote, read back with its content trimmed, and the
    issue has not changed: the state of the folder if it is not the
    issue's; no title, for an issue that has one; and for the
    description, nothing when the issue's is not blank and has no white
    space around it, the trimmed description when it has, and the
    placeholder of the pull when the issue has no description. *)
Theorem push_after_pull_sends_the_trimmed_or_placeholder_description :
  forall (P : Platform) (issue : Linear.Issue) (ticket : TicketFile)
         (filePath : Fs.Path) (newStateId : string),
    convertLinearIssueToTicket issue = Returned ticket ->
    let updates := buildUpdates filePath (read_back ticket) newStateId issue in
    Linear.upd_stateId updates
    = (if String.eqb (Linear.state_id (Linear.state issue)) newStateId
       then None else Some newStateId)
    /\ (truthy (Linear.title issue) = true -> Linear.upd_title updates = None)
    /\ Linear.upd_description updates
       = match first_truthy (Linear.description issue) None with
         | Some d =>
             if (truthy (JsString.trim d)
                 && negb (String.eqb d (JsString.trim d)))%bool
             then Some (JsString.trim d) else None
         | None => Some (placeholder (Linear.title issue))
         end.
Proof.
  intros P issue ticket filePath newStateId Hconv updates.
  destruct (converted_fields issue ticket Hconv) as [Htitle Hcontent].
  subst updates. unfold buildUpdates, read_back.
  cbn [Linear.upd_stateId Linear.upd_title Linear.upd_description
       frontmatter content].
  split; [destruct (String.eqb _ newStateId); reflexivity|]. split.
  - intros Ht. unfold newTitle. cbn [frontmatter]. cbv zeta.
    rewrite Htitle, Ht, String.eqb_refl. reflexivity.
  - rewrite Hcontent. unfold first_truthy.
    destruct (Linear.description issue) as [d|] eqn:Hd.
    + destruct (truthy d) eqn:Hdt.
      * unfold differs. reflexivity.
      * rewrite placeholder_trimmed, placeholder_truthy. unfold differs.
        unfold truthy in Hdt. apply negb_false_iff, String.eqb_eq in Hdt.
        subst d. reflexivity.
    + rewrite placeholder_trimmed, placeholder_truthy. reflexivity.
Qed.

Import Workspace.

(** PAP-1 without a description. *)
Definition undescribed : Linear.Issue :=
  {| Linear.id := Linear.id (PAP1 todo);
     Linear.identifier := "PAP-1";
     Linear.title := "Fix login";
     Linear.description := None;
     Linear.url := Linear.url (PAP1 todo);
     Linear.priority := 2;
     Linear.createdAt := Linear.createdAt (PAP1 todo);
     Linear.updatedAt := Linear.updatedAt (PAP1 todo);
     Linear.dueDate := None;
     Linear.labels := ["bug"];
     Linear.assignee := Some ann;
     Linear.parent := None;
     Linear.state := todo;
     Linear.comments := [] |}.

Lemma push_after_pull_witness :
  buildUpdates ("todo", name1)
    (read_back (ticket "PAP-1" "Todo" "Fix login" (placeholder "Fix login")))
    "state-todo" undescribed
  = {| Linear.upd_stateId := None;
       Linear.upd_title := None;
       Linear.upd_description := Some (placeholder "Fix login") |}.
Proof.
  destruct (push_after_pull_sends_the_trimmed_or_placeholder_description
              platform undescribed
              (ticket "PAP-1" "Todo" "Fix login" (placeholder "Fix login"))
              ("todo", name1) "state-todo" eq_refl)
    as (Hs & Ht & Hd).
  specialize (Ht eq_refl).
  destruct (buildUpdates _ _ _ _) as [s t d]. simpl in *. congruence.
Defined.

End PullThenPush.
